(** * Government job form analysis backend: last-date / organization
      inference and the AI-extraction validation pipeline

    Shallow embedding of [backend/app.py].  Python [str] values are Rocq
    strings over the 7-bit ASCII alphabet; case mapping leaves every other
    byte unchanged.  Python dictionaries are [gmap string _], the set of
    processed organizations is a [gset string], exceptions are values of
    [exn] threaded through an error monad, and the external services (PDF
    reader, completion service, [json.loads], float formatting, the clock)
    are parameters of the development. *)

From Stdlib Require Import Ascii String ZArith List Lia Bool Arith.
From Stdlib Require Import Sorting.Sorted Sorting.Permutation.
From stdpp Require Import base gmap strings list.

Local Open Scope list_scope.
Set Warnings "-register-all,-abstract-large-number".

(** String concatenation computes under [simpl] in this development. *)
#[local] Arguments String.append !_ _ : simpl nomatch.

(** ** Python string primitives *)

Module PyStr.

Definition code (c : ascii) : nat := nat_of_ascii c.

(** [str.isspace] on ASCII: TAB..CR, FS..US and the blank. *)
Definition is_space (c : ascii) : bool :=
  let n := code c in
  ((9 <=? n) && (n <=? 13)) || ((28 <=? n) && (n <=? 32)).

Definition is_digit (c : ascii) : bool :=
  let n := code c in (48 <=? n) && (n <=? 57).

Definition is_upper (c : ascii) : bool :=
  let n := code c in (65 <=? n) && (n <=? 90).

Definition is_lower (c : ascii) : bool :=
  let n := code c in (97 <=? n) && (n <=? 122).

Definition lower_char (c : ascii) : ascii :=
  if is_upper c then ascii_of_nat (code c + 32) else c.

Definition upper_char (c : ascii) : ascii :=
  if is_lower c then ascii_of_nat (code c - 32) else c.

Fixpoint map_str (f : ascii -> ascii) (s : string) : string :=
  match s with
  | EmptyString => EmptyString
  | String c s' => String (f c) (map_str f s')
  end.

(** [s.lower()] and [s.upper()] *)
Definition lower (s : string) : string := map_str lower_char s.
Definition upper (s : string) : string := map_str upper_char s.

(** [len(s)] *)
Definition len (s : string) : nat := String.length s.

Fixpoint rev_acc (s acc : string) : string :=
  match s with
  | EmptyString => acc
  | String c s' => rev_acc s' (String c acc)
  end.

Definition rev (s : string) : string := rev_acc s EmptyString.

(** Dropping the leading characters of a class. *)
Fixpoint lstrip_by (sp : ascii -> bool) (s : string) : string :=
  match s with
  | String c s' => if sp c then lstrip_by sp s' else s
  | EmptyString => EmptyString
  end.

Definition rstrip_by (sp : ascii -> bool) (s : string) : string :=
  rev (lstrip_by sp (rev s)).

Definition strip_by (sp : ascii -> bool) (s : string) : string :=
  rstrip_by sp (lstrip_by sp s).

Definition lstrip (s : string) : string := lstrip_by is_space s.
Definition rstrip (s : string) : string := rstrip_by is_space s.

(** [s.strip()] *)
Definition strip (s : string) : string := strip_by is_space s.

(** [s.startswith(p)] *)
Fixpoint startswith (p s : string) : bool :=
  match p, s with
  | EmptyString, _ => true
  | String a p', String b s' => if Ascii.eqb a b then startswith p' s' else false
  | String _ _, EmptyString => false
  end.

(** [s.endswith(p)] *)
Definition endswith (p s : string) : bool := startswith (rev p) (rev s).

(** [p in s] *)
Fixpoint contains (p s : string) : bool :=
  startswith p s ||
  match s with
  | EmptyString => false
  | String _ s' => contains p s'
  end.

(** [s[:n]] *)
Fixpoint take (n : nat) (s : string) : string :=
  match n, s with
  | S k, String c s' => String c (take k s')
  | _, _ => EmptyString
  end.

(** [s[n:]] *)
Fixpoint drop (n : nat) (s : string) : string :=
  match n, s with
  | S k, String _ s' => drop k s'
  | _, _ => s
  end.

(** [s.replace(old, new)] for a non-empty [old]: occurrences are replaced
    left to right without overlap.  [skip] counts the characters of the
    current occurrence still to be dropped. *)
Fixpoint replace_aux (old new : string) (skip : nat) (s : string) : string :=
  match skip with
  | S k =>
      match s with
      | EmptyString => EmptyString
      | String _ s' => replace_aux old new k s'
      end
  | O =>
      match s with
      | EmptyString => EmptyString
      | String c s' =>
          if startswith old s
          then new +:+ replace_aux old new (pred (len old)) s'
          else String c (replace_aux old new 0 s')
      end
  end.

Definition replace (old new s : string) : string := replace_aux old new 0 s.

(** [s.split(sep)] for a one-character separator; the pieces come back in
    document order and the result is never empty. *)
Fixpoint split_aux (sep : ascii) (cur : string) (s : string) : list string :=
  match s with
  | EmptyString => [rev cur]
  | String c s' =>
      if Ascii.eqb c sep then rev cur :: split_aux sep EmptyString s'
      else split_aux sep (String c cur) s'
  end.

Definition split (sep : ascii) (s : string) : list string :=
  split_aux sep EmptyString s.

(** [sep.join(l)] *)
Fixpoint join (sep : string) (l : list string) : string :=
  match l with
  | [] => EmptyString
  | [x] => x
  | x :: rest => x +:+ sep +:+ join sep rest
  end.

(** [c * n] for a one-character string *)
Fixpoint repeat_char (c : ascii) (n : nat) : string :=
  match n with
  | O => EmptyString
  | S k => String c (repeat_char c k)
  end.

(** [s.zfill(2)]: pad with zeros on the left up to width 2, after a
    leading sign if there is one. *)
Definition zfill2 (s : string) : string :=
  match s with
  | EmptyString => "00"
  | String c EmptyString =>
      if Ascii.eqb c "+" || Ascii.eqb c "-"
      then String c "0"
      else String "0" s
  | _ => s
  end.

Definition digit_val (c : ascii) : Z := Z.of_nat (code c - 48).

(** Digits of an [int] literal: single underscores may separate digits.
    [acc] is the value read so far, [prev_digit] tells whether the previous
    character was a digit. *)
Fixpoint int_digits (s : string) (acc : Z) (prev_digit : bool) : option Z :=
  match s with
  | EmptyString => if prev_digit then Some acc else None
  | String c s' =>
      if is_digit c then int_digits s' (10 * acc + digit_val c)%Z true
      else if Ascii.eqb c "_" && prev_digit then int_digits s' acc false
      else None
  end.

(** The whitespace [int] skips: TAB..CR and the blank, not FS..US. *)
Definition is_c_space (c : ascii) : bool :=
  let n := code c in
  ((9 <=? n) && (n <=? 13)) || (n =? 32).

(** [int(s)]: surrounding whitespace is ignored, one sign is allowed;
    [None] stands for [ValueError]. *)
Definition int (s : string) : option Z :=
  match strip_by is_c_space s with
  | String "+" t => int_digits t 0%Z false
  | String "-" t => option_map Z.opp (int_digits t 0%Z false)
  | t => int_digits t 0%Z false
  end.

Definition digit_char (n : nat) : ascii := ascii_of_nat (48 + n).

Fixpoint str_of_nat_aux (fuel n : nat) (acc : string) : string :=
  match fuel with
  | O => acc
  | S f =>
      let acc' := String (digit_char (n mod 10)) acc in
      if n <? 10 then acc' else str_of_nat_aux f (n / 10) acc'
  end.

(** [str(n)] for a non-negative integer *)
Definition str_of_nat (n : nat) : string := str_of_nat_aux (S n) n EmptyString.

End PyStr.

(** ** A backtracking matcher for the regular expressions of the source

    Every quantifier of the source's patterns applies to a single character
    class and every pattern has at most one capture group, so a pattern is
    a sequence of items.  Matching follows [re]: alternatives are explored
    in priority order (greedy: longest first, lazy: shortest first) and the
    first complete match wins. *)

Module Re.

Inductive item :=
| Chr (p : ascii -> bool)
| Rep (p : ascii -> bool) (lo : nat) (hi : option nat) (greedy : bool)
| GroupOpen
| GroupClose.

Definition regex := list item.

(** A match: the number of characters consumed and the span of group 1. *)
Definition found := (nat * option (nat * nat))%type.

Definition below (hi : option nat) (cnt : nat) : bool :=
  match hi with
  | None => true
  | Some h => cnt <? h
  end.

Fixpoint rep (p : ascii -> bool) (lo : nat) (hi : option nat) (greedy : bool)
    (k : string -> nat -> option found) (s : string) (pos cnt : nat)
    {struct s} : option found :=
  if greedy then
    match
      match s with
      | String c s' =>
          if p c && below hi cnt then rep p lo hi greedy k s' (S pos) (S cnt)
          else None
      | EmptyString => None
      end
    with
    | Some r => Some r
    | None => if lo <=? cnt then k s pos else None
    end
  else
    match (if lo <=? cnt then k s pos else None) with
    | Some r => Some r
    | None =>
        match s with
        | String c s' =>
            if p c && below hi cnt then rep p lo hi greedy k s' (S pos) (S cnt)
            else None
        | EmptyString => None
        end
    end.

Fixpoint match_here (r : regex) (s : string) (pos : nat)
    (gs ge : option nat) {struct r} : option found :=
  match r with
  | [] =>
      Some (pos, match gs, ge with
                 | Some a, Some b => Some (a, b)
                 | _, _ => None
                 end)
  | Chr p :: r' =>
      match s with
      | String c s' => if p c then match_here r' s' (S pos) gs ge else None
      | EmptyString => None
      end
  | Rep p lo hi g :: r' =>
      rep p lo hi g (fun s' pos' => match_here r' s' pos' gs ge) s pos 0
  | GroupOpen :: r' => match_here r' s pos (Some pos) ge
  | GroupClose :: r' => match_here r' s pos gs (Some pos)
  end.

(** [re.match(r, s)] at the start of [s]: the text of group 0 and of
    group 1 when the pattern has one. *)
Definition match_at (r : regex) (s : string) : option (nat * string * option string) :=
  match match_here r s 0 None None with
  | Some (e, g) =>
      Some (e, PyStr.take e s,
            match g with
            | Some (a, b) => Some (PyStr.take (b - a) (PyStr.drop a s))
            | None => None
            end)
  | None => None
  end.

(** [re.search(r, s)]: the leftmost match. *)
Fixpoint search (r : regex) (s : string) : option (string * option string) :=
  match match_at r s with
  | Some (_, g0, g1) => Some (g0, g1)
  | None =>
      match s with
      | String _ s' => search r s'
      | EmptyString => None
      end
  end.

(** What [findall] reports for one match: group 1 when the pattern has a
    group, the whole match otherwise. *)
Definition reported (g0 : string) (g1 : option string) : string :=
  match g1 with
  | Some g => g
  | None => g0
  end.

(** [re.findall(r, s)]: non-overlapping matches, left to right.  [skip]
    counts the characters of the previous match not yet passed. *)
Fixpoint findall_aux (r : regex) (skip : nat) (s : string) : list string :=
  match skip with
  | S k =>
      match s with
      | EmptyString => []
      | String _ s' => findall_aux r k s'
      end
  | O =>
      match match_at r s with
      | Some (e, g0, g1) =>
          reported g0 g1 ::
          match s with
          | EmptyString => []
          | String _ s' => findall_aux r (pred e) s'
          end
      | None =>
          match s with
          | EmptyString => []
          | String _ s' => findall_aux r 0 s'
          end
      end
  end.

Definition findall (r : regex) (s : string) : list string := findall_aux r 0 s.

(** Character classes *)
Definition digit : ascii -> bool := PyStr.is_digit.            (* \d *)
Definition space : ascii -> bool := PyStr.is_space.            (* \s *)
Definition dot (c : ascii) : bool := negb (Ascii.eqb c "010").  (* .  *)
Definition anychar (c : ascii) : bool := true.                 (* . with DOTALL *)
Definition exactly (a : ascii) (c : ascii) : bool := Ascii.eqb c a.
(** a letter under [re.IGNORECASE] *)
Definition ci (a : ascii) (c : ascii) : bool :=
  Ascii.eqb (PyStr.lower_char c) (PyStr.lower_char a).
Definition date_sep (c : ascii) : bool :=                      (* [-./] *)
  Ascii.eqb c "-" || Ascii.eqb c "." || Ascii.eqb c "/".

(** a literal word under [re.IGNORECASE] *)
Fixpoint word (w : string) : regex :=
  match w with
  | EmptyString => []
  | String a w' => Chr (ci a) :: word w'
  end.

End Re.

(** ** Exceptions and the error monad *)

Inductive exn :=
| ValueError
| TypeError
| AttributeError
| ZeroDivisionError
| JSONDecodeError (msg : string)          (* raised by [json.loads] *)
| ClientError (msg : string)              (* raised by the completion client *)
| PdfReadError (msg : string)             (* raised by the PDF reader *)
| KeyError (key : string)
| KeyErrorInt (key : nat)                 (* [KeyError] for an integer key *)
| HTTPException (status_code : nat) (detail : string).

(** [str(e)].  The framework renders an [HTTPException] as
    ["<status>: <detail>"]; library exceptions carry their message; for the
    interpreter's own errors only the class is kept. *)
Definition str_exn (e : exn) : string :=
  match e with
  | ValueError => "ValueError"
  | TypeError => "TypeError"
  | AttributeError => "AttributeError"
  | ZeroDivisionError => "division by zero"
  | JSONDecodeError msg => msg
  | ClientError msg => msg
  | PdfReadError msg => msg
  | KeyError key => "'" +:+ key +:+ "'"
  | KeyErrorInt key => PyStr.str_of_nat key
  | HTTPException c d => PyStr.str_of_nat c +:+ ": " +:+ d
  end.

Definition Exc (A : Type) : Type := (exn + A)%type.

Definition ret {A} (a : A) : Exc A := inr a.
Definition raise {A} (e : exn) : Exc A := inl e.
Definition bind {A B} (m : Exc A) (f : A -> Exc B) : Exc B :=
  match m with
  | inl e => inl e
  | inr a => f a
  end.

Notation "'let*' x := m 'in' k" := (bind m (fun x => k))
  (at level 10, x name, m at level 100, k at level 200, only parsing).

(** [try: m  except: h] with a handler for every exception *)
Definition try_except {A} (m : Exc A) (h : exn -> Exc A) : Exc A :=
  match m with
  | inl e => h e
  | inr a => inr a
  end.

(** ** Values produced by [json.loads] *)

Inductive json :=
| JNull
| JBool (b : bool)
| JNum (z : Z)
| JStr (s : string)
| JArr (l : list json)
| JObj (m : gmap string json).

(** Python truthiness ([not v] is its negation).  For numbers only the
    integers are represented: the code observes nothing of a number but
    whether it is zero. *)
Definition truthy (v : json) : bool :=
  match v with
  | JNull => false
  | JBool b => b
  | JNum z => negb (Z.eqb z 0)
  | JStr s => negb (String.eqb s "")
  | JArr l => match l with [] => false | _ => true end
  | JObj m => negb (Nat.eqb (size m) 0)
  end.

(** A record of string fields, as written by the dictionary literals of
    the source. *)
Definition str_record (l : list (string * string)) : gmap string json :=
  list_to_map (map (fun kv => (kv.1, JStr kv.2)) l).

(** ** The environment: configuration and external collaborators *)

(** The instruction sent to the completion service is a fixed template
    filled with these three values ([create_ultra_strict_prompt]). *)
Record Prompt := {
  prompt_text : string;       (* text[:14000] *)
  prompt_org : string;
  prompt_last_date : string
}.

Record Env := {
  (** whether the global [mistral_client] holds a client; the functions
      read it when called, the module-level initialisation that sets it
      is not part of the model *)
  mistral_client : bool;
  (** calendar date of [datetime.now()] as (year, month, day) *)
  now : Z * Z * Z;
  (** [mistral_client.chat.complete(...)] followed by
      [.choices[0].message.content]: given the prompts sent so far and
      the new prompt, the content or the message of the raised exception
      (an exception of the client, not a [JSONDecodeError]) *)
  chat_complete : list Prompt -> Prompt -> string + string;
  (** [json.loads]: the value or the message of the [JSONDecodeError] *)
  json_loads : string -> string + json;
  (** [f"{(a / b * 100):.0f}%"] for [b > 0] (floating point) *)
  fmt_pct : nat -> nat -> string
}.

(** ** Static tables *)

Definition ORGANIZATION_MAPPINGS : list (string * string) :=
  [ ("ntpc", "NTPC");
    ("ngel", "NTPC");
    ("green energy", "NTPC");
    ("tanuvas", "TANUVAS");
    ("tamil nadu veterinary", "TANUVAS");
    ("csir", "CSIR");
    ("council of scientific", "CSIR");
    ("nhm", "NHM");
    ("national health mission", "NHM");
    ("aau", "AAU");
    ("assam agricultural", "AAU") ].

Definition KNOWN_LAST_DATES : gmap string string :=
  list_to_map
    [ ("NTPC", "01-05-2025");
      ("TANUVAS", "15-02-2025");
      ("CSIR", "15-02-2025");
      ("NHM", "31-01-2025");
      ("AAU", "31-01-2025") ].

Definition required_orgs : list string :=
  ["AAU"; "CSIR"; "NHM"; "NTPC"; "TANUVAS"].

Definition required_fields : list string :=
  [ "advertisement_number"; "advertisement_date"; "post_name";
    "vacancies"; "last_date"; "salary"; "location"; "age_limit";
    "category"; "qualification"; "mandatory"; "specialization";
    "experience_years"; "remarks" ].

(** ** DateNormalizer: [normalize_date] *)

Definition nonempty (s : string) : bool := negb (String.eqb s "").

Definition int_or_raise (s : string) : Exc Z :=
  match PyStr.int s with
  | Some z => ret z
  | None => raise ValueError
  end.

Definition in_range (lo hi z : Z) : bool := (lo <=? z)%Z && (z <=? hi)%Z.

(** The body of the [try] block. *)
Definition normalize_date_try (date_str : string) : Exc string :=
  let date_str := PyStr.replace "." "-" (PyStr.replace "/" "-" date_str) in
  let parts := PyStr.split "-" date_str in
  match parts with
  | [day; month; year] =>
      let day := PyStr.zfill2 day in
      let month := PyStr.zfill2 month in
      let year := if PyStr.len year =? 2 then "20" +:+ year else year in
      let* d := int_or_raise day in
      if in_range 1 31 d then
        let* m := int_or_raise month in
        if in_range 1 12 m then
          let* y := int_or_raise year in
          if in_range 2024 2026 y
          then ret (day +:+ "-" +:+ month +:+ "-" +:+ year)
          else ret ""
        else ret ""
      else ret ""
  | _ => ret ""
  end.

Definition normalize_date (date_str : string) : string :=
  match normalize_date_try date_str with
  | inr r => r
  | inl _ => ""
  end.

(** ** FutureDateHeuristic: [is_reasonable_future_date] *)

Definition is_leap (y : Z) : bool :=
  ((y mod 4 =? 0) && negb (y mod 100 =? 0) || (y mod 400 =? 0))%Z.

Definition days_in_month (y m : Z) : Z :=
  if (m =? 2)%Z then (if is_leap y then 29 else 28)%Z
  else if ((m =? 4) || (m =? 6) || (m =? 9) || (m =? 11))%Z then 30%Z
  else 31%Z.

(** [datetime(year, month, day)] *)
Definition datetime (y m d : Z) : Exc (Z * Z * Z) :=
  if in_range 1 9999 y && in_range 1 12 m && in_range 1 (days_in_month y m) d
  then ret (y, m, d)
  else raise ValueError.

Definition date_lt (a b : Z * Z * Z) : bool :=
  let '(ya, ma, da) := a in
  let '(yb, mb, db) := b in
  ((ya <? yb) || ((ya =? yb) && ((ma <? mb) || ((ma =? mb) && (da <? db)))))%Z.

Fixpoint map_int (l : list string) : Exc (list Z) :=
  match l with
  | [] => ret []
  | x :: rest =>
      let* z := int_or_raise x in
      let* zs := map_int rest in
      ret (z :: zs)
  end.

Definition is_reasonable_future_date_try (E : Env) (date_str : string) : Exc bool :=
  let* ints := map_int (PyStr.split "-" date_str) in
  match ints with
  | [day; month; year] =>
      let* date_obj := datetime year month day in
      (* [now] carries a time of day and [date_obj] is midnight: [now <
         date_obj] holds exactly when the day of [now] is earlier *)
      ret (date_lt (now E) date_obj && date_lt date_obj (2025, 12, 31)%Z)
  | _ => raise ValueError
  end.

Definition is_reasonable_future_date (E : Env) (date_str : string) : bool :=
  match is_reasonable_future_date_try E date_str with
  | inr b => b
  | inl _ => false
  end.

(** ** OrganizationResolver: [detect_organization_from_text] *)

(** [for key, org in ORGANIZATION_MAPPINGS.items(): if key in hay: return org] *)
Fixpoint first_mapping (tbl : list (string * string)) (hay : string) : option string :=
  match tbl with
  | [] => None
  | (key, org) :: rest =>
      if PyStr.contains key hay then Some org else first_mapping rest hay
  end.

Definition str_in (s : string) (l : list string) : bool :=
  existsb (String.eqb s) l.

Definition detect_organization_from_text (text provided_name : string) : string :=
  if nonempty provided_name
     && negb (str_in (PyStr.lower provided_name) ["unknown"; "organization"])
  then
    let provided_clean := PyStr.upper (PyStr.strip provided_name) in
    match first_mapping ORGANIZATION_MAPPINGS (PyStr.lower provided_clean) with
    | Some org => org
    | None => provided_clean
    end
  else
    let text_lower := PyStr.lower text in
    let header := PyStr.lower (PyStr.take 500 text) in
    match first_mapping ORGANIZATION_MAPPINGS header with
    | Some org_name => org_name
    | None =>
        match first_mapping ORGANIZATION_MAPPINGS text_lower with
        | Some org_name => org_name
        | None =>
            if nonempty provided_name then provided_name
            else "Unknown Organization"
        end
    end.

(** ** LastDateExtractor: [extract_last_date_comprehensive] *)

(** [\d{1,2}[-./]\d{1,2}[-./]\d{lo,hi}] *)
Definition date_shape (lo hi : nat) : Re.regex :=
  [ Re.Rep Re.digit 1 (Some 2) true; Re.Chr Re.date_sep;
    Re.Rep Re.digit 1 (Some 2) true; Re.Chr Re.date_sep;
    Re.Rep Re.digit lo (Some hi) true ].

Definition group (r : Re.regex) : Re.regex :=
  Re.GroupOpen :: r ++ [Re.GroupClose].

Definition lazy_any : Re.regex := [Re.Rep Re.dot 0 None false].      (* .*?  *)
Definition spaces : Re.regex := [Re.Rep Re.space 1 None true].       (* \s+  *)

Definition date_patterns : list (Re.regex * string) :=
  [ (Re.word "last" ++ spaces ++ Re.word "date" ++ lazy_any ++ group (date_shape 2 4),
     "last date keyword");
    (Re.word "closing" ++ spaces ++ Re.word "date" ++ lazy_any ++ group (date_shape 2 4),
     "closing date");
    (Re.word "submit" ++ lazy_any ++ Re.word "by" ++ lazy_any ++ group (date_shape 2 4),
     "submit by");
    (Re.word "application" ++ lazy_any ++ Re.word "till" ++ lazy_any ++ group (date_shape 2 4),
     "application till");
    (Re.word "deadline" ++ lazy_any ++ group (date_shape 2 4), "deadline");
    (Re.word "before" ++ lazy_any ++ group (date_shape 2 4), "before date");
    (Re.word "within" ++ lazy_any ++ group (date_shape 2 4), "within date");
    (group (date_shape 4 4) ++ lazy_any ++ Re.word "last", "reverse last");
    (Re.word "online" ++ spaces ++ Re.word "application" ++ lazy_any ++ group (date_shape 2 4),
     "online application") ].

(** Method 1: for each pattern, the last of all matches, normalized. *)
Fixpoint keyword_cascade (pats : list (Re.regex * string)) (text : string)
    : option (string * string) :=
  match pats with
  | [] => None
  | (pattern, source) :: rest =>
      match List.last (map Some (Re.findall pattern text)) None with
      | Some date_str =>
          let normalized := normalize_date date_str in
          if nonempty normalized then Some (normalized, source)
          else keyword_cascade rest text
      | None => keyword_cascade rest text
      end
  end.

Definition section_keywords : list string :=
  ["last date"; "closing"; "deadline"; "till"].

(** Method 2: the first date-shaped token of each line naming a keyword. *)
Fixpoint section_scan (sections : list string) : option string :=
  match sections with
  | [] => None
  | line :: rest =>
      if existsb (fun keyword => PyStr.contains keyword (PyStr.lower line))
                 section_keywords
      then
        match Re.search (group (date_shape 2 4)) line with
        | Some (_, Some g1) =>
            let normalized := normalize_date g1 in
            if nonempty normalized then Some normalized else section_scan rest
        | _ => section_scan rest
        end
      else section_scan rest
  end.

(** Method 4: the first date-shaped token that is a reasonable future date. *)
Fixpoint heuristic_scan (E : Env) (all_dates : list string) : option string :=
  match all_dates with
  | [] => None
  | date_str :: rest =>
      let normalized := normalize_date date_str in
      if nonempty normalized && is_reasonable_future_date E normalized
      then Some normalized
      else heuristic_scan E rest
  end.

Definition extract_last_date_comprehensive (E : Env) (text org_name : string)
    : string * string :=
  match keyword_cascade date_patterns text with
  | Some r => r
  | None =>
      match section_scan (PyStr.split "010" text) with
      | Some normalized => (normalized, "section scan")
      | None =>
          match KNOWN_LAST_DATES !! org_name with
          | Some d => (d, "known fallback")
          | None =>
              match heuristic_scan E (Re.findall (date_shape 4 4) text) with
              | Some normalized => (normalized, "heuristic scan")
              | None => ("", "not found")
              end
          end
      end
  end.

(** ** AIExtractionOrchestrator: [analyze_with_ultra_strict_ai] *)

Record Quality := {
  last_date_coverage : string;
  salary_coverage : string;
  auto_last_date : string;
  date_source : string
}.

(** The organization of a result is a string wherever the orchestrator
    wrote it; the placeholders of the batch loop carry the hint of the hint
    list as it is, whatever its type. *)
Record OrgResult := {
  organization : json;
  positions : list (gmap string json);
  total_positions : nat;
  extraction_quality : Quality
}.

Definition create_ultra_strict_prompt (text org_name auto_last_date : string) : Prompt :=
  {| prompt_text := PyStr.take 14000 text;
     prompt_org := org_name;
     prompt_last_date := auto_last_date |}.

(** [pos[key]] *)
Definition getitem (pos : gmap string json) (key : string) : Exc json :=
  match pos !! key with
  | Some v => ret v
  | None => raise (KeyError key)
  end.

(** [v.lower()]: only strings have the method. *)
Definition lower_of (v : json) : Exc string :=
  match v with
  | JStr s => ret (PyStr.lower s)
  | _ => raise AttributeError
  end.

(** [for field in required_fields: if field not in pos: pos[field] = ""] *)
Definition ensure_fields (pos : gmap string json) : gmap string json :=
  fold_left
    (fun pos field =>
       match pos !! field with
       | Some _ => pos
       | None => <[field := JStr ""]> pos
       end)
    required_fields pos.

(** [not v or 'check' in v.lower() or 'manual' in v.lower()] for
    [v = pos['last_date']] *)
Definition last_date_punted (pos : gmap string json) : Exc bool :=
  let* v := getitem pos "last_date" in
  if negb (truthy v) then ret true
  else
    let* l := lower_of v in
    if PyStr.contains "check" l then ret true
    else
      let* v' := getitem pos "last_date" in
      let* l' := lower_of v' in
      ret (PyStr.contains "manual" l').

(** "Auto-fill last date if missing" *)
Definition fill_last_date (auto_last_date detected_org : string)
    (pos : gmap string json) : Exc (gmap string json) :=
  let* punted := last_date_punted pos in
  if punted then
    if nonempty auto_last_date
    then ret (<["last_date" := JStr auto_last_date]> pos)
    else
      match KNOWN_LAST_DATES !! detected_org with
      | Some d => ret (<["last_date" := JStr d]> pos)
      | None => ret pos
      end
  else ret pos.

(** "Validate salary field": only a warning is printed, but evaluating the
    condition can raise. *)
Definition validate_salary (pos : gmap string json) : Exc unit :=
  let* v := getitem pos "salary" in
  if negb (truthy v) then
    let* _ := getitem pos "post_name" in ret tt
  else
    let* l := lower_of v in
    if PyStr.contains "check" l then
      let* _ := getitem pos "post_name" in ret tt
    else ret tt.

(** One iteration of [for pos in positions].  An element that is not a
    dictionary ends in a [TypeError], at the membership test, at the item
    assignment or at [pos['last_date']]. *)
Definition postprocess_position (auto_last_date detected_org : string)
    (pos : json) : Exc (gmap string json) :=
  match pos with
  | JObj m =>
      let m := ensure_fields m in
      let* m := fill_last_date auto_last_date detected_org m in
      let* _ := validate_salary m in
      ret m
  | _ => raise TypeError
  end.

Fixpoint mapM {A B} (f : A -> Exc B) (l : list A) : Exc (list B) :=
  match l with
  | [] => ret []
  | x :: rest =>
      let* y := f x in
      let* ys := mapM f rest in
      ret (y :: ys)
  end.

(** The loop over whatever [json.loads] returned: an array is walked
    element by element; a non-empty object or string yields keys or
    characters, which are strings and fail as above; an empty one yields
    nothing; anything else is not iterable. *)
Definition postprocess_positions (auto_last_date detected_org : string)
    (positions : json) : Exc (list (gmap string json)) :=
  match positions with
  | JArr l => mapM (postprocess_position auto_last_date detected_org) l
  | JObj m => if Nat.eqb (size m) 0 then ret [] else raise TypeError
  | JStr s => if String.eqb s "" then ret [] else raise TypeError
  | _ => raise TypeError
  end.

(** [sum(1 for p in positions if not p[key])] *)
Fixpoint count_missing (key : string) (l : list (gmap string json)) : Exc nat :=
  match l with
  | [] => ret 0
  | p :: rest =>
      let* v := getitem p key in
      let* n := count_missing key rest in
      ret (if truthy v then n else S n)
  end.

(** [f"{((total - missing) / total * 100):.0f}%"] *)
Definition coverage (E : Env) (total missing : nat) : Exc string :=
  if Nat.eqb total 0 then raise ZeroDivisionError
  else ret (fmt_pct E (total - missing) total).

(** "Clean response" and "Extract JSON": strip the code fences, then keep
    the span from the first opening bracket to the last closing one. *)
Definition bracket_span : Re.regex :=
  [ Re.Chr (Re.exactly "["); Re.Rep Re.anychar 0 None true;
    Re.Chr (Re.exactly "]") ].

Definition clean_response (content : string) : string :=
  let result_text := PyStr.strip content in
  let result_text :=
    PyStr.strip (PyStr.replace "```" "" (PyStr.replace "```json" "" result_text)) in
  match Re.search bracket_span result_text with
  | Some (g0, _) => g0
  | None => result_text
  end.

(** The body of the orchestrator's [try] block, after the completion call
    returned or raised. *)
Definition analyze_try (E : Env) (detected_org auto_last_date date_source : string)
    (reply : string + string) : Exc OrgResult :=
  let* content :=
    match reply with
    | inl msg => raise (ClientError msg)
    | inr content => ret content
    end in
  let result_text := clean_response content in
  let* parsed :=
    match json_loads E result_text with
    | inl msg => raise (JSONDecodeError msg)
    | inr v => ret v
    end in
  let* positions := postprocess_positions auto_last_date detected_org parsed in
  let total_pos := length positions in
  let* missing_dates := count_missing "last_date" positions in
  let* missing_salary := count_missing "salary" positions in
  let* last_date_cov := coverage E total_pos missing_dates in
  let* salary_cov := coverage E total_pos missing_salary in
  ret {| organization := JStr detected_org;
         positions := positions;
         total_positions := total_pos;
         extraction_quality :=
           {| last_date_coverage := last_date_cov;
              salary_coverage := salary_cov;
              auto_last_date := auto_last_date;
              date_source := date_source |} |}.

(** The two [except] clauses. *)
Definition analyze_handler (e : exn) : Exc OrgResult :=
  match e with
  | JSONDecodeError msg =>
      raise (HTTPException 500 ("AI response parsing failed: " +:+ msg))
  | _ => raise (HTTPException 500 ("Analysis failed: " +:+ str_exn e))
  end.

(** The orchestrator.  [calls] is the log of the prompts sent to the
    completion service so far; the new log is returned with the outcome. *)
Definition analyze_with_ultra_strict_ai (E : Env) (text org_name : string)
    (calls : list Prompt) : Exc OrgResult * list Prompt :=
  if negb (mistral_client E)
  then (raise (HTTPException 503 "Mistral AI not configured"), calls)
  else
    let detected_org := detect_organization_from_text text org_name in
    let '(auto_last_date, date_source) :=
      extract_last_date_comprehensive E text detected_org in
    let prompt := create_ultra_strict_prompt text detected_org auto_last_date in
    let reply := chat_complete E calls prompt in
    (try_except (analyze_try E detected_org auto_last_date date_source reply)
                analyze_handler,
     calls ++ [prompt]).

(** ** PDF text extraction: [extract_text_from_pdf] *)

Definition nl : string := String "010" EmptyString.

Definition rule : string := PyStr.repeat_char "=" 60.

(** [f"\n{'='*60}\nPAGE {page_num + 1}\n{'='*60}\n{page_text}"] *)
Definition page_block (page_num : nat) (page_text : string) : string :=
  nl +:+ rule +:+ nl +:+ "PAGE " +:+ PyStr.str_of_nat (page_num + 1) +:+ nl
     +:+ rule +:+ nl +:+ page_text.

Fixpoint page_blocks (page_num : nat) (pages : list string) : list string :=
  match pages with
  | [] => []
  | page_text :: rest => page_block page_num page_text :: page_blocks (S page_num) rest
  end.

(** An uploaded file: its name and what the PDF reader makes of its
    content, the page texts or the message of the exception it raises. *)
Record UploadFile := {
  filename : string;
  file : string + list string
}.

Definition extract_text_from_pdf (pdf_file : string + list string) : Exc string :=
  match pdf_file with
  | inr pages => ret (PyStr.join nl (page_blocks 0 pages))
  | inl msg => raise (HTTPException 400 ("PDF extraction failed: " +:+ msg))
  end.

(** ** ReportAssembler: [analyze_forms] *)

Definition manual : string := "CHECK PDF MANUALLY".

Definition zero_quality (source : string) : Quality :=
  {| last_date_coverage := "0%";
     salary_coverage := "0%";
     auto_last_date := "";
     date_source := source |}.

(** The placeholder for an empty or small PDF. *)
Definition empty_pdf_result (detected_org : json) : OrgResult :=
  {| organization := detected_org;
     positions :=
       [ str_record
           [ ("advertisement_number", manual);
             ("advertisement_date", manual);
             ("post_name", manual);
             ("vacancies", manual);
             ("last_date", manual);
             ("salary", manual);
             ("location", manual);
             ("age_limit", manual);
             ("category", manual);
             ("qualification", manual);
             ("mandatory", manual);
             ("specialization", manual);
             ("experience_years", manual);
             ("remarks",
              "Document was empty or unreadable. Please verify all details from the original PDF.") ] ];
     total_positions := 1;
     extraction_quality := zero_quality "empty PDF" |}.

(** The placeholder for a PDF whose processing raised [e]. *)
Definition failed_result (detected_org : json) (e : exn) : OrgResult :=
  {| organization := detected_org;
     positions :=
       [ str_record
           [ ("advertisement_number", "EXTRACTION FAILED");
             ("advertisement_date", "");
             ("post_name", "EXTRACTION FAILED - See error");
             ("vacancies", "");
             ("last_date", "");
             ("salary", "");
             ("location", "");
             ("age_limit", "");
             ("category", "");
             ("qualification", "");
             ("mandatory", "");
             ("specialization", "");
             ("experience_years", "");
             ("remarks", "Error during extraction: " +:+ str_exn e) ] ];
     total_positions := 1;
     extraction_quality := zero_quality "error" |}.

(** The placeholder for a required organization without a result. *)
Definition missing_result (req_org : string) : OrgResult :=
  {| organization := JStr req_org;
     positions :=
       [ str_record
           [ ("advertisement_number", req_org +:+ " - NOT PROCESSED");
             ("advertisement_date", "");
             ("post_name", req_org +:+ " - PDF not uploaded or failed");
             ("vacancies", "");
             ("last_date", default "" (KNOWN_LAST_DATES !! req_org));
             ("salary", "");
             ("location", "");
             ("age_limit", "");
             ("category", "");
             ("qualification", "");
             ("mandatory", "");
             ("specialization", "");
             ("experience_years", "");
             ("remarks",
              "PDF for " +:+ req_org +:+
              " was not uploaded or failed to process. Please fill manually from original PDF.") ] ];
     total_positions := 1;
     extraction_quality := zero_quality "not uploaded" |}.

(** [a or b] on strings *)
Definition str_or (a b : string) : string := if nonempty a then a else b.

(** "Detect organization even from filename" *)
Fixpoint org_from_filename (orgs : list string) (filename_lower : string) : string :=
  match orgs with
  | [] => ""
  | org :: rest =>
      if PyStr.contains (PyStr.lower org) filename_lower then org
      else org_from_filename rest filename_lower
  end.

(** [a or b] *)
Definition or_else (a b : json) : json := if truthy a then a else b.

(** "Parse organization names": whatever [json.loads(organizations)]
    returns, and the empty list when the parameter is absent or empty or
    when the parser raises. *)
Definition parse_org_names (E : Env) (organizations : option string) : json :=
  match organizations with
  | Some s =>
      if nonempty s then
        match json_loads E s with
        | inr org_names => org_names
        | inl _ => JArr []
        end
      else JArr []
  | None => JArr []
  end.

(** [org_names[idx] if idx < len(org_names) else dflt].  [len] is defined
    on a list, a string and a dictionary and raises [TypeError] on the
    other values; a string is indexed by character; the keys of a
    dictionary read from JSON are strings, so that the integer key is
    missing. *)
Definition hint_at (org_names : json) (idx : nat) (dflt : json) : Exc json :=
  match org_names with
  | JArr l => ret (default dflt (l !! idx))
  | JStr s =>
      ret (match String.get idx s with
           | Some c => JStr (String c "")
           | None => dflt
           end)
  | JObj m => if idx <? size m then raise (KeyErrorInt idx) else ret dflt
  | JNull | JBool _ | JNum _ => raise TypeError
  end.

Definition fallback_name (idx : nat) : string :=
  "Organization_" +:+ PyStr.str_of_nat (idx + 1).

(** The orchestrator as the batch loop calls it, with a hint of any JSON
    type.  The hint is read by [detect_organization_from_text] only, which
    the orchestrator calls before its [try] block: a truthy value that is
    not a string has no [lower] ([AttributeError]), a falsy one fails the
    first test and the last one as the empty string does. *)
Definition analyze_with_hint (E : Env) (text : string) (org_name : json)
    (calls : list Prompt) : Exc OrgResult * list Prompt :=
  match org_name with
  | JStr s => analyze_with_ultra_strict_ai E text s calls
  | _ =>
      if truthy org_name then
        if negb (mistral_client E)
        then (raise (HTTPException 503 "Mistral AI not configured"), calls)
        else (raise AttributeError, calls)
      else analyze_with_ultra_strict_ai E text "" calls
  end.

(** The state of the loop over the uploaded files, with the log of the
    prompts sent to the completion service. *)
Record Batch := {
  analyzed_results : list OrgResult;
  processed_orgs : gset string;
  calls : list Prompt
}.

(** What a part of the loop leaves: the new state, or the exception that
    leaves the endpoint together with the state reached. *)
Definition Outcome : Type := (exn * Batch + Batch)%type.

(** [processed_orgs.add(org)]: a list and a dictionary are not hashable.
    The set is only ever asked whether it holds a required organization,
    a string, so the model keeps the strings of the set. *)
Definition add_org (org : json) (processed : gset string) : Exc (gset string) :=
  match org with
  | JStr s => ret (processed ∪ {[ s ]})
  | JArr _ | JObj _ => raise TypeError
  | JNull | JBool _ | JNum _ => ret processed
  end.

(** The body of the [try] block for one file, up to the result it is
    about to record. *)
Definition process_try (E : Env) (org_names : json) (idx : nat)
    (f : UploadFile) (log : list Prompt) : Exc OrgResult * list Prompt :=
  match extract_text_from_pdf (file f) with
  | inl e => (inl e, log)
  | inr pdf_text =>
      let from_name := org_from_filename required_orgs (PyStr.lower (filename f)) in
      match hint_at org_names idx (JStr from_name) with
      | inl e => (inl e, log)
      | inr provided_name =>
          if PyStr.len (PyStr.strip pdf_text) <? 100 then
            let detected_org :=
              or_else provided_name (JStr (str_or from_name (fallback_name idx))) in
            (ret (empty_pdf_result detected_org), log)
          else analyze_with_hint E pdf_text provided_name log
      end
  end.

Definition with_calls (st : Batch) (log : list Prompt) : Batch :=
  {| analyzed_results := analyzed_results st;
     processed_orgs := processed_orgs st;
     calls := log |}.

(** [analyzed_results.append(r)] followed by
    [processed_orgs.add(r["organization"])]: when the second raises, the
    result is already appended. *)
Definition record_result (st : Batch) (r : OrgResult) (log : list Prompt) : Outcome :=
  match add_org (organization r) (processed_orgs st) with
  | inr orgs =>
      inr {| analyzed_results := analyzed_results st ++ [r];
             processed_orgs := orgs;
             calls := log |}
  | inl e =>
      inl (e, {| analyzed_results := analyzed_results st ++ [r];
                 processed_orgs := processed_orgs st;
                 calls := log |})
  end.

(** The [except] clause of the loop: it looks the hint up again, and what
    it raises leaves the endpoint. *)
Definition process_handler (org_names : json) (idx : nat) (e : exn)
    (st : Batch) : Outcome :=
  match hint_at org_names idx (JStr "") with
  | inl e' => inl (e', st)
  | inr name =>
      let detected_org := or_else name (JStr (fallback_name idx)) in
      record_result st (failed_result detected_org e) (calls st)
  end.

(** One iteration of [for idx, file in enumerate(files)]. *)
Definition process_file (E : Env) (org_names : json) (idx : nat)
    (f : UploadFile) (st : Batch) : Outcome :=
  if negb (PyStr.endswith ".pdf" (filename f)) then inr st
  else
    match process_try E org_names idx f (calls st) with
    | (inr result, log) =>
        match record_result st result log with
        | inr st' => inr st'
        | inl (e, st') => process_handler org_names idx e st'
        end
    | (inl e, log) => process_handler org_names idx e (with_calls st log)
    end.

Fixpoint process_files (E : Env) (org_names : json) (idx : nat)
    (files : list UploadFile) (st : Batch) : Outcome :=
  match files with
  | [] => inr st
  | f :: rest =>
      match process_file E org_names idx f st with
      | inr st' => process_files E org_names (S idx) rest st'
      | inl abort => inl abort
      end
  end.

(** "Ensure all 5 required organizations are present" *)
Fixpoint backfill (orgs : list string) (processed : gset string)
    (results : list OrgResult) : list OrgResult :=
  match orgs with
  | [] => results
  | req_org :: rest =>
      if decide (req_org ∈ processed) then backfill rest processed results
      else backfill rest processed (results ++ [missing_result req_org])
  end.

(** [required_orgs.index(org)] *)
Fixpoint index_of (org : string) (l : list string) : option nat :=
  match l with
  | [] => None
  | x :: rest =>
      if String.eqb org x then Some 0 else option_map S (index_of org rest)
  end.

(** Only a string can be a member of [required_orgs]. *)
Definition org_sort_key (item : OrgResult) : nat :=
  match organization item with
  | JStr org =>
      match index_of org required_orgs with
      | Some i => i
      | None => 999
      end
  | _ => 999
  end.

(** [list.sort(key=...)] is stable: an element is inserted after the
    elements whose key is not larger. *)
Fixpoint insert_by {A} (key : A -> nat) (x : A) (l : list A) : list A :=
  match l with
  | [] => [x]
  | y :: rest =>
      if key x <? key y then x :: l else y :: insert_by key x rest
  end.

Definition sort_by {A} (key : A -> nat) (l : list A) : list A :=
  fold_left (fun acc x => insert_by key x acc) l [].

Definition empty_batch : Batch :=
  {| analyzed_results := []; processed_orgs := ∅; calls := [] |}.

(** The batch endpoint up to the report set handed to the spreadsheet
    writer, together with the prompts sent to the completion service.
    An exception of the loop leaves the endpoint as it is. *)
Definition analyze_forms (E : Env) (files : list UploadFile)
    (organizations : option string) : Exc (list OrgResult) * list Prompt :=
  if negb (mistral_client E)
  then (raise (HTTPException 503 "Mistral AI not configured"), [])
  else
    match files with
    | [] => (raise (HTTPException 400 "No files uploaded"), [])
    | _ =>
        let org_names := parse_org_names E organizations in
        match process_files E org_names 0 files empty_batch with
        | inl (e, st) => (inl e, calls st)
        | inr st =>
            let results :=
              backfill required_orgs (processed_orgs st) (analyzed_results st) in
            (ret (sort_by org_sort_key results), calls st)
        end
    end.

(** ** Vocabulary of the specification *)

(** A string made of decimal digits only, and its value. *)
Fixpoint all_digits (s : string) : bool :=
  match s with
  | EmptyString => true
  | String c s' => PyStr.is_digit c && all_digits s'
  end.

Fixpoint num_acc (s : string) (acc : Z) : Z :=
  match s with
  | EmptyString => acc
  | String c s' => num_acc s' (10 * acc + PyStr.digit_val c)%Z
  end.

Definition num (s : string) : Z := num_acc s 0.

(** A date written day-sep-month-sep-year. *)
Definition date_input (d : string) (s1 : ascii) (m : string) (s2 : ascii)
    (y : string) : string :=
  d +:+ String s1 (m +:+ String s2 y).

Definition zdigit (n : Z) : ascii := PyStr.digit_char (Z.to_nat n).

Definition two_digits (n : Z) : string :=
  String (zdigit (n / 10)) (String (zdigit (n mod 10)) EmptyString).

Definition four_digits (n : Z) : string :=
  String (zdigit (n / 1000))
    (String (zdigit (n / 100 mod 10)) (two_digits (n mod 100))).

(** The canonical zero-padded DD-MM-YYYY form. *)
Definition canonical_date (d m y : Z) : string :=
  two_digits d +:+ "-" +:+ two_digits m +:+ "-" +:+ four_digits y.

(** The year a 2- or 4-digit year string stands for. *)
Definition expanded_year (y : string) : Z :=
  if PyStr.len y =? 2 then (2000 + num y)%Z else num y.

(** The validity window of the normalizer. *)
Definition date_in_window (d m y : Z) : bool :=
  in_range 1 31 d && in_range 1 12 m && in_range 2024 2026 y.

(** What replacing the one-character string [a] by [b] does to a character. *)
Definition subst_char (a b c : ascii) : ascii := if Ascii.eqb a c then b else c.

(** The pieces [normalize_date] splits its argument into. *)
Definition date_parts (date_str : string) : list string :=
  PyStr.split "-" (PyStr.replace "." "-" (PyStr.replace "/" "-" date_str)).

(** A caller-provided name that is present and not a placeholder. *)
Definition is_real_name (provided_name : string) : bool :=
  nonempty provided_name
  && negb (str_in (PyStr.lower provided_name) ["unknown"; "organization"]).

(** In a keyword table, [org] is the identifier of the first keyword that
    occurs in [hay]; no keyword of the table occurs in [hay]. *)
Definition first_hit (tbl : list (string * string)) (hay org : string) : Prop :=
  exists pre key post,
    tbl = pre ++ (key, org) :: post
    /\ PyStr.contains key hay = true
    /\ Forall (fun kv => PyStr.contains kv.1 hay = false) pre.

Definition no_hit (tbl : list (string * string)) (hay : string) : Prop :=
  Forall (fun kv => PyStr.contains kv.1 hay = false) tbl.

(** C6 as the specification words it: a real name that matches no keyword
    comes back verbatim, uppercased. *)
Definition verbatim_uppercased (text provided_name : string) : Prop :=
  is_real_name provided_name = true ->
  no_hit ORGANIZATION_MAPPINGS (PyStr.lower provided_name) ->
  detect_organization_from_text text provided_name = PyStr.upper provided_name.

(** The last of all non-overlapping matches of a pattern, in document
    order, and what the keyword cascade makes of a pattern: that last
    occurrence normalized, or nothing. *)
Definition last_match (pattern : Re.regex) (text : string) : option string :=
  List.last (map Some (Re.findall pattern text)) None.

Definition keyword_hit (pattern : Re.regex) (text : string) : string :=
  match last_match pattern text with
  | Some date_str => normalize_date date_str
  | None => ""
  end.

Definition keyword_labels : list string := map snd date_patterns.

(** An environment for the examples: a configured client whose completion
    service answers every prompt with [sample_reply], a parser that knows
    this one payload, and truncating percentages. *)
Definition dq : string := String "034" EmptyString.

Definition jpair (key value : string) : string :=
  dq +:+ key +:+ dq +:+ ": " +:+ dq +:+ value +:+ dq.

Definition sample_payload : string :=
  "[{" +:+ jpair "post_name" "Engineer" +:+ ", "
       +:+ jpair "salary" "Rs 50,000" +:+ ", "
       +:+ jpair "last_date" "check" +:+ ", "
       +:+ jpair "note" "x" +:+ "}]".

Definition sample_reply : string :=
  "```json" +:+ nl +:+ sample_payload +:+ nl +:+ "```".

Definition sample_parsed : json :=
  JArr [ JObj (list_to_map
                 [ ("post_name", JStr "Engineer");
                   ("salary", JStr "Rs 50,000");
                   ("last_date", JStr "check");
                   ("note", JStr "x") ]) ].

Definition sample_env : Env :=
  {| mistral_client := true;
     now := (2025, 1, 15)%Z;
     chat_complete := fun _ _ => inr sample_reply;
     json_loads := fun s =>
       if String.eqb s sample_payload then inr sample_parsed
       else inl "Expecting value: line 1 column 1 (char 0)";
     fmt_pct := fun a b => PyStr.str_of_nat (a * 100 / b) +:+ "%" |}.


Definition sample_text : string :=
  "NTPC Recruitment 2025, advertised on 10-03-2025. Last Date: 01-05-2025. Salary: Rs 50,000/- per month".



(** The model punted on the deadline: the field is empty or names "check"
    or "manual". *)
Definition says_punted (s : string) : bool :=
  String.eqb s ""
  || PyStr.contains "check" (PyStr.lower s)
  || PyStr.contains "manual" (PyStr.lower s).

Definition required_keys : gset string := list_to_set required_fields.

(** C2 as the specification words it: every returned record has exactly
    the 14 required keys. *)
Definition exactly_required_keys (r : gmap string json) : Prop :=
  dom r = required_keys.

Definition orchestrator_exact_keys : Prop :=
  forall E text org_name log res log',
    analyze_with_ultra_strict_ai E text org_name log = (inr res, log') ->
    Forall exactly_required_keys (positions res).

(** What the orchestrator does to one parsed record [p]: the keys of [r]
    are those of [p] and the 14 required ones, values present in [p] are
    kept and missing required keys hold the empty string ([last_date]
    apart, which the repair step may then overwrite). *)
Definition completes (p : json) (r : gmap string json) : Prop :=
  exists m,
    p = JObj m
    /\ dom r = dom m ∪ required_keys
    /\ (forall k v, m !! k = Some v -> k <> "last_date" -> r !! k = Some v)
    /\ (forall k, k ∈ required_keys -> m !! k = None -> k <> "last_date" ->
         r !! k = Some (JStr "")).

(** The prompt the orchestrator sends for a document and a hint. *)
Definition prompt_for (E : Env) (text org_name : string) : Prompt :=
  let detected_org := detect_organization_from_text text org_name in
  create_ultra_strict_prompt text detected_org
    (extract_last_date_comprehensive E text detected_org).1.



(** The files the batch loop processes. *)
Definition is_pdf (f : UploadFile) : bool := PyStr.endswith ".pdf" (filename f).

(** The outcome of the batch loop on the given files. *)
Definition batch_after (E : Env) (org_names : json)
    (files : list UploadFile) : Outcome :=
  process_files E org_names 0 files empty_batch.

(** The log of completion calls an outcome leaves behind. *)
Definition outcome_calls (o : Outcome) : list Prompt :=
  match o with
  | inl (_, st) => calls st
  | inr st => calls st
  end.

(** The required organizations no processed document resolved to. *)
Definition missing_orgs (processed : gset string) : list string :=
  filter (fun org => org ∉ processed) required_orgs.

(** A PDF without pages, a file the reader rejects and a readable notice. *)
Definition blank_scan : UploadFile :=
  {| filename := "scan.pdf"; file := inr [] |}.

Definition broken_pdf : UploadFile :=
  {| filename := "tanuvas_notice.pdf"; file := inl "EOF marker not found" |}.

Definition ntpc_pdf : UploadFile :=
  {| filename := "ntpc_advt.pdf"; file := inr [sample_text] |}.

(** A PDF of one page that holds 40 blanks and nothing else. *)
Definition forty_blanks : string := PyStr.repeat_char " " 40.

Definition whitespace_pdf : UploadFile :=
  {| filename := "notice.pdf"; file := inr [forty_blanks] |}.

(** Two values of the [organizations] parameter: a list whose second hint
    is itself a list, and a list that holds a number. *)
Definition nested_hints : string :=
  "[" +:+ dq +:+ "NTPC" +:+ dq +:+ ", [" +:+ dq +:+ "x" +:+ dq +:+ "]]".

Definition number_hints : string := "[5]".

(** The sample service with a parser that also reads these two. *)
Definition hinted_env : Env :=
  {| mistral_client := true;
     now := now sample_env;
     chat_complete := chat_complete sample_env;
     json_loads := fun s =>
       if String.eqb s nested_hints
       then inr (JArr [JStr "NTPC"; JArr [JStr "x"]])
       else if String.eqb s number_hints then inr (JArr [JNum 5])
       else json_loads sample_env s;
     fmt_pct := fmt_pct sample_env |}.

(** The same with a completion service that is down. *)
Definition down_env : Env :=
  {| mistral_client := true;
     now := now sample_env;
     chat_complete := fun _ _ => inl "Service unavailable";
     json_loads := json_loads hinted_env;
     fmt_pct := fmt_pct sample_env |}.

(** The text [extract_text_from_pdf] returns for the given pages. *)
Definition pdf_text_of (pages : list string) : string :=
  PyStr.join nl (page_blocks 0 pages).

(** The marker lines written before the text of the first page. *)
Definition first_marker : string :=
  rule +:+ nl +:+ "PAGE 1" +:+ nl +:+ rule.

(** Every character of [s] satisfies [p]. *)
Fixpoint str_forall (p : ascii -> bool) (s : string) : bool :=
  match s with
  | EmptyString => true
  | String c s' => p c && str_forall p s'
  end.

(** The characters of a date-shaped token. *)
Definition date_char (c : ascii) : bool := PyStr.is_digit c || Re.date_sep c.

(** Items without group marks whose classes are all included in [P]. *)
Fixpoint plain (P : ascii -> bool) (r : Re.regex) : Prop :=
  match r with
  | [] => True
  | Re.Chr p :: r' => (forall c, p c = true -> P c = true) /\ plain P r'
  | Re.Rep p _ _ _ :: r' => (forall c, p c = true -> P c = true) /\ plain P r'
  | _ => False
  end.

Definition date_group : Re.regex := group (date_shape 2 4).

(** The phrase of the sample scenario, its date and the first pattern of
    the cascade. *)
Definition deadline_phrase : string := "last date: 01-05-2025".
Definition deadline_date : string := "01-05-2025".

Definition last_date_pattern : Re.regex :=
  Re.word "last" ++ spaces ++ Re.word "date" ++ lazy_any ++ group (date_shape 2 4).

(** ** Further vocabulary *)

(** A date-shaped token: one or two digits, a separator, one or two
    digits, a separator and a year of [lo] to [hi] digits. *)
Definition date_token (lo hi : nat) (t : string) : Prop :=
  exists d s1 m s2 y,
    t = date_input d s1 m s2 y
    /\ all_digits d = true /\ 1 <= PyStr.len d <= 2
    /\ all_digits m = true /\ 1 <= PyStr.len m <= 2
    /\ all_digits y = true /\ lo <= PyStr.len y <= hi
    /\ Re.date_sep s1 = true /\ Re.date_sep s2 = true.

(** A deadline the extractor may report: a canonical DD-MM-YYYY date of
    the validity window. *)
Definition valid_date (d : string) : Prop :=
  exists D M Y, date_in_window D M Y = true /\ d = canonical_date D M Y.

Definition any_char (c : ascii) : bool := true.

(** The labels the extractor gives to a date it found. *)
Definition found_labels : list string :=
  keyword_labels ++ ["section scan"; "known fallback"; "heuristic scan"].

(** An environment whose clock shows the first day of 2026. *)
Definition late_env : Env :=
  {| mistral_client := true;
     now := (2026, 1, 1)%Z;
     chat_complete := chat_complete sample_env;
     json_loads := json_loads sample_env;
     fmt_pct := fmt_pct sample_env |}.

(** A completion service that finds no position and answers with an empty
    array. *)
Definition empty_reply_env : Env :=
  {| mistral_client := true;
     now := now sample_env;
     chat_complete := fun _ _ => inr "[]";
     json_loads := fun s =>
       if String.eqb s "[]" then inr (JArr [])
       else inl "Expecting value: line 1 column 1 (char 0)";
     fmt_pct := fmt_pct sample_env |}.

(** A record whose [last_date] is a non-empty string: the pre-detected
    deadline [auto_date], or a value of the model that does not punt. *)
Definition has_last_date (auto_date : string) (r : gmap string json) : Prop :=
  exists s,
    r !! "last_date" = Some (JStr s)
    /\ s <> ""
    /\ (s = auto_date \/ says_punted s = false).

(** The hint the batch loop looks up for the file at [idx]: the entry of
    the hint list or, beyond the list, the organization read off the file
    name. *)
Definition batch_hint (org_names : json) (idx : nat) (f : UploadFile)
    : Exc json :=
  hint_at org_names idx
    (JStr (org_from_filename required_orgs (PyStr.lower (filename f)))).

(** The hint as the resolver reads it: a string as it is, a falsy value
    of another type as no hint; a truthy value of another type cannot be
    read. *)
Definition readable_hint (hint : json) : option string :=
  match hint with
  | JStr s => Some s
  | _ => if truthy hint then None else Some ""
  end.

(** The prompts due for the file at [idx]: one for a file named as a PDF
    that the reader accepts, whose text reaches the threshold and whose
    hint can be looked up and read; none for any other file. *)
Definition file_calls (E : Env) (org_names : json) (idx : nat)
    (f : UploadFile) : list Prompt :=
  if is_pdf f then
    match file f, batch_hint org_names idx f with
    | inr pages, inr hint =>
        if PyStr.len (PyStr.strip (pdf_text_of pages)) <? 100 then []
        else
          match readable_hint hint with
          | Some name => [prompt_for E (pdf_text_of pages) name]
          | None => []
          end
    | _, _ => []
    end
  else [].

(** The prompts due for the files of a batch, in upload order. *)
Fixpoint batch_calls (E : Env) (org_names : json) (idx : nat)
    (files : list UploadFile) : list Prompt :=
  match files with
  | [] => []
  | f :: rest =>
      file_calls E org_names idx f ++ batch_calls E org_names (S idx) rest
  end.

(** The organization of an entry is the string [org]. *)
Definition has_org (entry : OrgResult) (org : string) : bool :=
  match organization entry with
  | JStr s => String.eqb s org
  | _ => false
  end.

(** An entry of the report set is well formed: it has at least one
    record, counts its records, and each record has the required keys. *)
Definition entry_ok (entry : OrgResult) : Prop :=
  positions entry <> []
  /\ total_positions entry = length (positions entry)
  /\ Forall (fun r => required_keys ⊆ dom r) (positions entry).

(** A one-page PDF whose page holds no text. *)
Definition blank_page_pdf : UploadFile :=
  {| filename := "aau_blank.pdf"; file := inr [""] |}.

Definition word_file : UploadFile :=
  {| filename := "notice.docx"; file := inl "not a PDF" |}.

(** ** Single-document endpoint: [analyze_single] *)

(** The endpoint for one document; [log] is the log of the prompts sent
    to the completion service so far.  Every exception of the [try] block,
    the orchestrator's own [HTTPException] included, is raised again with
    status 500 and its text as detail. *)
Definition analyze_single (E : Env) (f : UploadFile) (organization : string)
    (log : list Prompt) : Exc OrgResult * list Prompt :=
  if negb (mistral_client E)
  then (raise (HTTPException 503 "Mistral AI not configured"), log)
  else
    match extract_text_from_pdf (file f) with
    | inl e => (raise (HTTPException 500 (str_exn e)), log)
    | inr pdf_text =>
        match analyze_with_ultra_strict_ai E pdf_text organization log with
        | (inl e, log') => (raise (HTTPException 500 (str_exn e)), log')
        | (inr analysis, log') => (ret analysis, log')
        end
    end.

(** A PDF without pages. *)
Definition pageless_pdf : UploadFile :=
  {| filename := "empty.pdf"; file := inr [] |}.

(** A character that can stand inside a part of a date: none of the three
    separators. *)
Definition part_char (c : ascii) : bool :=
  negb (Ascii.eqb c "-") && negb (Ascii.eqb c "/") && negb (Ascii.eqb c ".").

(** A character of a string whose separators have been unified. *)
Definition unified_char (c : ascii) : bool := Ascii.eqb c "-" || part_char c.

(** The year once a two-digit year is expanded. *)
Definition full_year (year : string) : string :=
  if PyStr.len year =? 2 then "20" +:+ year else year.

(** The range checks of [normalize_date] on the prepared parts. *)
Definition checked_date (day month year : string) : Exc string :=
  let* d := int_or_raise day in
  if in_range 1 31 d then
    let* m := int_or_raise month in
    if in_range 1 12 m then
      let* y := int_or_raise year in
      if in_range 2024 2026 y
      then ret (day +:+ "-" +:+ month +:+ "-" +:+ year)
      else ret ""
    else ret ""
  else ret "".

(** * Verification *)

(** ** Strings *)

Lemma append_nil_r s : s +:+ "" = s.
Proof. induction s; simpl; congruence. Qed.

Lemma append_assoc (a b c : string) : (a +:+ b) +:+ c = a +:+ (b +:+ c).
Proof. induction a; simpl; congruence. Qed.

Lemma rev_acc_app s acc : PyStr.rev_acc s acc = PyStr.rev s +:+ acc.
Proof.
  unfold PyStr.rev. revert acc.
  induction s as [|c s IH]; intros acc; simpl; [reflexivity|].
  rewrite (IH (String c acc)), (IH (String c EmptyString)).
  now rewrite append_assoc.
Qed.

Lemma rev_app a b : PyStr.rev (a +:+ b) = PyStr.rev b +:+ PyStr.rev a.
Proof.
  induction a as [|c a IH]; simpl.
  - now rewrite append_nil_r.
  - unfold PyStr.rev at 1. simpl. rewrite rev_acc_app, IH.
    unfold PyStr.rev at 4. simpl. rewrite (rev_acc_app a).
    now rewrite append_assoc.
Qed.

Lemma rev_involutive s : PyStr.rev (PyStr.rev s) = s.
Proof.
  induction s as [|c s IH]; [reflexivity|].
  unfold PyStr.rev at 2. simpl. rewrite rev_acc_app, rev_app, IH.
  reflexivity.
Qed.

Lemma all_digits_app a b :
  all_digits (a +:+ b) = all_digits a && all_digits b.
Proof. induction a; simpl; [reflexivity|]. rewrite IHa. now rewrite andb_assoc. Qed.

Lemma all_digits_rev s : all_digits (PyStr.rev s) = all_digits s.
Proof.
  induction s as [|c s IH]; [reflexivity|].
  unfold PyStr.rev. simpl. rewrite rev_acc_app, all_digits_app, IH. simpl.
  rewrite andb_true_r. apply andb_comm.
Qed.

Lemma len_app a b : PyStr.len (a +:+ b) = PyStr.len a + PyStr.len b.
Proof. unfold PyStr.len. induction a; simpl; auto. Qed.

(** The ten digit characters. *)
Lemma is_digit_cases c :
  PyStr.is_digit c = true ->
  In c ["0"; "1"; "2"; "3"; "4"; "5"; "6"; "7"; "8"; "9"]%char.
Proof.
  destruct c as [[] [] [] [] [] [] [] []]; intros H;
    try discriminate H; simpl; tauto.
Qed.

Ltac digit_cases c H :=
  apply is_digit_cases in H; simpl in H;
  repeat (destruct H as [H|H]; [subst c|]); [..|contradiction].

Lemma digit_not_space c :
  PyStr.is_digit c = true ->
  PyStr.is_space c = false /\ PyStr.is_c_space c = false.
Proof. intros H. digit_cases c H; split; reflexivity. Qed.

Lemma lstrip_by_solid sp s :
  match s with
  | String c _ => sp c = false
  | EmptyString => True
  end ->
  PyStr.lstrip_by sp s = s.
Proof. destruct s as [|c s]; [reflexivity|]. simpl. now intros ->. Qed.

Lemma strip_c_digits s :
  all_digits s = true -> PyStr.strip_by PyStr.is_c_space s = s.
Proof.
  intros H. unfold PyStr.strip_by, PyStr.rstrip_by.
  assert (Hhead : forall t, all_digits t = true ->
            match t with
            | String c _ => PyStr.is_c_space c = false
            | EmptyString => True
            end).
  { intros [|c t] Ht; [exact I|]. simpl in Ht.
    apply andb_prop in Ht as [Hc _]. now apply digit_not_space. }
  rewrite (lstrip_by_solid _ s) by (apply Hhead; assumption).
  rewrite lstrip_by_solid, rev_involutive; [reflexivity|].
  apply Hhead. now rewrite all_digits_rev.
Qed.

Lemma replace_char a b s :
  PyStr.replace (String a "") (String b "") s = PyStr.map_str (subst_char a b) s.
Proof.
  unfold PyStr.replace.
  induction s as [|c s IH]; [reflexivity|].
  simpl. unfold subst_char at 1.
  destruct (Ascii.eqb a c); simpl; now rewrite IH.
Qed.

Lemma map_str_app f a b :
  PyStr.map_str f (a +:+ b) = PyStr.map_str f a +:+ PyStr.map_str f b.
Proof. induction a; simpl; congruence. Qed.

Lemma map_str_digits f s :
  (forall c, PyStr.is_digit c = true -> f c = c) ->
  all_digits s = true -> PyStr.map_str f s = s.
Proof.
  intros Hf. induction s as [|c s IH]; [reflexivity|].
  simpl. intros H. apply andb_prop in H as [Hc Hs].
  now rewrite (Hf c Hc), IH.
Qed.

Lemma subst_digit a b c :
  PyStr.is_digit a = false -> PyStr.is_digit c = true -> subst_char a b c = c.
Proof.
  intros Ha Hc. unfold subst_char.
  destruct (Ascii.eqb a c) eqn:E; [|reflexivity].
  apply Ascii.eqb_eq in E. congruence.
Qed.

Lemma date_sep_cases c :
  Re.date_sep c = true -> c = "-"%char \/ c = "."%char \/ c = "/"%char.
Proof.
  unfold Re.date_sep. intros H.
  apply orb_prop in H as [H|H]; [apply orb_prop in H as [H|H]|];
    apply Ascii.eqb_eq in H; auto.
Qed.

(** After the two replacements a date input has dashes only. *)
Lemma replace_date_input d s1 m s2 y :
  all_digits d = true -> all_digits m = true -> all_digits y = true ->
  Re.date_sep s1 = true -> Re.date_sep s2 = true ->
  PyStr.replace "." "-" (PyStr.replace "/" "-" (date_input d s1 m s2 y))
  = date_input d "-" m "-" y.
Proof.
  intros Hd Hm Hy H1 H2. unfold date_input.
  rewrite !replace_char. rewrite !map_str_app. simpl. rewrite !map_str_app. simpl.
  rewrite !(map_str_digits (subst_char "/" "-")) by
    (auto; intros; now apply subst_digit).
  rewrite !(map_str_digits (subst_char "." "-")) by
    (auto; intros; now apply subst_digit).
  apply date_sep_cases in H1 as [->|[->| ->]];
    apply date_sep_cases in H2 as [->|[->| ->]]; reflexivity.
Qed.

Lemma rev_cons c s : PyStr.rev (String c s) = PyStr.rev s +:+ String c "".
Proof. unfold PyStr.rev at 1. simpl. apply rev_acc_app. Qed.

Lemma digit_not_dash c : PyStr.is_digit c = true -> Ascii.eqb c "-" = false.
Proof. intros H. digit_cases c H; reflexivity. Qed.

Lemma split_digits_sep d cur rest :
  all_digits d = true ->
  PyStr.split_aux "-" cur (d +:+ String "-" rest)
  = (PyStr.rev cur +:+ d) :: PyStr.split_aux "-" "" rest.
Proof.
  revert cur. induction d as [|c d IH]; intros cur H; simpl.
  - now rewrite append_nil_r.
  - simpl in H. apply andb_prop in H as [Hc Hd].
    rewrite (digit_not_dash c Hc), IH by assumption.
    now rewrite rev_cons, append_assoc.
Qed.

Lemma split_digits_end d cur :
  all_digits d = true ->
  PyStr.split_aux "-" cur d = [PyStr.rev cur +:+ d].
Proof.
  revert cur. induction d as [|c d IH]; intros cur H; simpl.
  - now rewrite append_nil_r.
  - simpl in H. apply andb_prop in H as [Hc Hd].
    rewrite (digit_not_dash c Hc), IH by assumption.
    now rewrite rev_cons, append_assoc.
Qed.

Lemma split_date_input d m y :
  all_digits d = true -> all_digits m = true -> all_digits y = true ->
  PyStr.split "-" (date_input d "-" m "-" y) = [d; m; y].
Proof.
  intros Hd Hm Hy. unfold PyStr.split, date_input.
  rewrite split_digits_sep, split_digits_sep, split_digits_end by assumption.
  reflexivity.
Qed.

Lemma int_digits_num s acc b :
  all_digits s = true -> s <> "" ->
  PyStr.int_digits s acc b = Some (num_acc s acc).
Proof.
  revert acc b. induction s as [|c s IH]; intros acc b H Hne; [congruence|].
  simpl in *. apply andb_prop in H as [Hc Hs]. rewrite Hc.
  destruct s as [|c' s']; [reflexivity|].
  apply IH; [assumption|discriminate].
Qed.

(** [int] reads a non-empty digit string as its decimal value. *)
Lemma int_digits_string s :
  all_digits s = true -> s <> "" -> PyStr.int s = Some (num s).
Proof.
  intros H Hne. unfold PyStr.int. rewrite (strip_c_digits s H).
  destruct s as [|c s]; [congruence|].
  assert (Hc : PyStr.is_digit c = true) by (simpl in H; now apply andb_prop in H).
  transitivity (PyStr.int_digits (String c s) 0 false).
  - digit_cases c Hc; reflexivity.
  - now apply int_digits_num.
Qed.

(** ** DateNormalizer *)

Lemma zdigit_digit_val c :
  PyStr.is_digit c = true ->
  zdigit (PyStr.digit_val c) = c /\ (0 <= PyStr.digit_val c <= 9)%Z.
Proof. intros H. digit_cases c H; (split; [reflexivity | vm_compute; split; discriminate]). Qed.

Lemma two_digits_num2 c1 c2 :
  PyStr.is_digit c1 = true -> PyStr.is_digit c2 = true ->
  two_digits (num (String c1 (String c2 ""))) = String c1 (String c2 "").
Proof.
  intros H1 H2.
  destruct (zdigit_digit_val c1 H1) as [E1 B1].
  destruct (zdigit_digit_val c2 H2) as [E2 B2].
  unfold num, two_digits. simpl num_acc.
  set (a := PyStr.digit_val c1) in *. set (b := PyStr.digit_val c2) in *.
  replace ((10 * (10 * 0 + a) + b) / 10)%Z with a by (Z.div_mod_to_equations; lia).
  replace ((10 * (10 * 0 + a) + b) mod 10)%Z with b by (Z.div_mod_to_equations; lia).
  now rewrite E1, E2.
Qed.

Lemma two_digits_num1 c :
  PyStr.is_digit c = true ->
  two_digits (num (String c "")) = String "0" (String c "").
Proof. intros H. digit_cases c H; reflexivity. Qed.

(** Day and month: [zfill(2)] writes the value on two digits. *)
Lemma zfill2_digits s :
  all_digits s = true -> 1 <= PyStr.len s <= 2 ->
  PyStr.zfill2 s = two_digits (num s)
  /\ all_digits (PyStr.zfill2 s) = true
  /\ PyStr.zfill2 s <> ""
  /\ num (PyStr.zfill2 s) = num s.
Proof.
  intros H L.
  destruct s as [|c1 [|c2 [|c3 s]]]; simpl in L; try lia.
  - simpl in H. rewrite andb_true_r in H.
    rewrite two_digits_num1 by assumption.
    digit_cases c1 H; repeat split; discriminate.
  - simpl in H. apply andb_prop in H as [H1 H2]. rewrite andb_true_r in H2.
    rewrite two_digits_num2 by assumption.
    simpl. rewrite H1, H2. repeat split; discriminate.
Qed.

Lemma four_digits_expand2 y :
  all_digits y = true -> PyStr.len y = 2 ->
  "20" +:+ y = four_digits (2000 + num y)
  /\ num ("20" +:+ y) = (2000 + num y)%Z.
Proof.
  intros H L.
  destruct y as [|c1 [|c2 [|c3 s]]]; simpl in L; try lia.
  simpl in H. apply andb_prop in H as [H1 H2]. rewrite andb_true_r in H2.
  destruct (zdigit_digit_val c1 H1) as [E1 B1].
  destruct (zdigit_digit_val c2 H2) as [E2 B2].
  unfold num, four_digits, two_digits. simpl.
  set (a := PyStr.digit_val c1) in *. set (b := PyStr.digit_val c2) in *.
  split; [|change (PyStr.digit_val "2") with 2%Z;
           change (PyStr.digit_val "0") with 0%Z; lia].
  replace ((2000 + (10 * (10 * 0 + a) + b)) / 1000)%Z with 2%Z
    by (Z.div_mod_to_equations; lia).
  replace ((2000 + (10 * (10 * 0 + a) + b)) / 100 mod 10)%Z with 0%Z
    by (Z.div_mod_to_equations; lia).
  replace ((2000 + (10 * (10 * 0 + a) + b)) mod 100 / 10)%Z with a
    by (Z.div_mod_to_equations; lia).
  replace ((2000 + (10 * (10 * 0 + a) + b)) mod 100 mod 10)%Z with b
    by (Z.div_mod_to_equations; lia).
  now rewrite E1, E2.
Qed.

Lemma four_digits_num4 y :
  all_digits y = true -> PyStr.len y = 4 -> y = four_digits (num y).
Proof.
  intros H L.
  destruct y as [|c1 [|c2 [|c3 [|c4 [|c5 s]]]]]; simpl in L; try lia.
  simpl in H. rewrite andb_true_r in H.
  apply andb_prop in H as [H1 H]. apply andb_prop in H as [H2 H].
  apply andb_prop in H as [H3 H4].
  destruct (zdigit_digit_val c1 H1) as [E1 B1].
  destruct (zdigit_digit_val c2 H2) as [E2 B2].
  destruct (zdigit_digit_val c3 H3) as [E3 B3].
  destruct (zdigit_digit_val c4 H4) as [E4 B4].
  unfold num, four_digits, two_digits. simpl.
  set (a := PyStr.digit_val c1) in *. set (b := PyStr.digit_val c2) in *.
  set (c := PyStr.digit_val c3) in *. set (d := PyStr.digit_val c4) in *.
  set (n := (10 * (10 * (10 * (10 * 0 + a) + b) + c) + d)%Z).
  replace (n / 1000)%Z with a by (subst n; Z.div_mod_to_equations; lia).
  replace (n / 100 mod 10)%Z with b by (subst n; Z.div_mod_to_equations; lia).
  replace (n mod 100 / 10)%Z with c by (subst n; Z.div_mod_to_equations; lia).
  replace (n mod 100 mod 10)%Z with d by (subst n; Z.div_mod_to_equations; lia).
  now rewrite E1, E2, E3, E4.
Qed.

Lemma year_digits y :
  all_digits y = true -> PyStr.len y = 2 \/ PyStr.len y = 4 ->
  let year := if PyStr.len y =? 2 then "20" +:+ y else y in
  year = four_digits (expanded_year y)
  /\ PyStr.int year = Some (expanded_year y).
Proof.
  intros H L. unfold expanded_year.
  destruct L as [L|L]; rewrite L; simpl Nat.eqb; cbv zeta.
  - destruct (four_digits_expand2 y H L) as [E N]. split; [assumption|].
    rewrite int_digits_string; [now rewrite N| |discriminate].
    simpl. assumption.
  - split; [now apply four_digits_num4|].
    apply int_digits_string; [assumption|].
    destruct y; [discriminate L|discriminate].
Qed.

Lemma normalize_date_well_formed d s1 m s2 y :
  all_digits d = true -> 1 <= PyStr.len d <= 2 ->
  all_digits m = true -> 1 <= PyStr.len m <= 2 ->
  all_digits y = true -> PyStr.len y = 2 \/ PyStr.len y = 4 ->
  Re.date_sep s1 = true -> Re.date_sep s2 = true ->
  normalize_date_try (date_input d s1 m s2 y)
  = ret (if date_in_window (num d) (num m) (expanded_year y)
         then canonical_date (num d) (num m) (expanded_year y)
         else "").
Proof.
  intros Hd Ld Hm Lm Hy Ly H1 H2.
  unfold normalize_date_try.
  rewrite replace_date_input, split_date_input by assumption.
  destruct (zfill2_digits d Hd Ld) as (Ed & Dd & Nd & Vd).
  destruct (zfill2_digits m Hm Lm) as (Em & Dm & Nm & Vm).
  destruct (year_digits y Hy Ly) as [Ey Iy].
  cbv zeta in Ey, Iy.
  cbv beta iota zeta.
  unfold int_or_raise, date_in_window, canonical_date.
  rewrite (int_digits_string _ Dd Nd), Vd.
  cbv beta iota delta [bind ret].
  destruct (in_range 1 31 (num d)); [|reflexivity].
  rewrite (int_digits_string _ Dm Nm), Vm.
  destruct (in_range 1 12 (num m)); [|reflexivity].
  rewrite Iy.
  destruct (in_range 2024 2026 (expanded_year y)); [|reflexivity].
  simpl andb. cbv iota. now rewrite Ed, Em, Ey.
Qed.

(** C4.  For a date written day-sep-month-sep-year, with separators among
    '-', '.' and '/', a day and a month of one or two digits and a year of
    two or four digits, [normalize_date] returns the zero-padded DD-MM-YYYY
    string (a two-digit year being prefixed with 20) exactly when the day is
    in 1..31, the month in 1..12 and the expanded year in 2024..2026, and
    the empty string otherwise; an argument that does not split into three
    parts gives the empty string, and so does every exception raised in
    the body: the function returns a string on every argument. *)
Theorem normalize_date_spec d s1 m s2 y :
  all_digits d = true -> 1 <= PyStr.len d <= 2 ->
  all_digits m = true -> 1 <= PyStr.len m <= 2 ->
  all_digits y = true -> PyStr.len y = 2 \/ PyStr.len y = 4 ->
  Re.date_sep s1 = true -> Re.date_sep s2 = true ->
  let D := num d in
  let M := num m in
  let Y := expanded_year y in
  (date_in_window D M Y = true ->
     normalize_date (date_input d s1 m s2 y) = canonical_date D M Y
     /\ canonical_date D M Y <> "")
  /\ (date_in_window D M Y = false ->
        normalize_date (date_input d s1 m s2 y) = "")
  /\ (forall s, length (date_parts s) <> 3 -> normalize_date s = "")
  /\ (forall s e, normalize_date_try s = inl e -> normalize_date s = "").
Proof.
  intros Hd Ld Hm Lm Hy Ly H1 H2 D M Y.
  pose proof (normalize_date_well_formed d s1 m s2 y Hd Ld Hm Lm Hy Ly H1 H2) as E.
  fold D M Y in E.
  repeat split.
  - unfold normalize_date. rewrite E. unfold ret. now rewrite H.
  - discriminate.
  - intros W. unfold normalize_date. rewrite E. unfold ret. now rewrite W.
  - intros s L. unfold normalize_date, normalize_date_try.
    fold (date_parts s).
    destruct (date_parts s) as [|a [|b [|c [|x l]]]]; simpl in L; try reflexivity.
    lia.
  - intros s e He. unfold normalize_date. now rewrite He.
Qed.

(** A date of the operating period, written with dots and a short year. *)
Lemma normalize_date_spec_witness :
  normalize_date (date_input "1" "." "5" "." "25") = "01-05-2025"
  /\ normalize_date "1-13-2025" = ""
  /\ normalize_date "01/05/2027" = "".
Proof.
  split; [|split; reflexivity].
  apply (normalize_date_spec "1" "." "5" "." "25");
    first [reflexivity | simpl; lia | (left; reflexivity)].
Defined.

(** ** OrganizationResolver *)

Lemma first_mapping_Some tbl hay org :
  first_mapping tbl hay = Some org <-> first_hit tbl hay org.
Proof.
  split.
  - induction tbl as [|[k o] tbl IH]; simpl; [discriminate|].
    destruct (PyStr.contains k hay) eqn:Hk.
    + intros [= ->]. exists [], k, tbl. auto.
    + intros H. destruct (IH H) as (pre & key & post & -> & Hc & Hpre).
      exists ((k, o) :: pre), key, post. repeat split; auto.
  - intros (pre & key & post & -> & Hc & Hpre).
    induction Hpre as [|[k o] pre Hk _ IH]; simpl.
    + now rewrite Hc.
    + simpl in Hk. now rewrite Hk.
Qed.

Lemma first_mapping_None tbl hay :
  first_mapping tbl hay = None <-> no_hit tbl hay.
Proof.
  unfold no_hit. split.
  - induction tbl as [|[k o] tbl IH]; simpl; [constructor|].
    destruct (PyStr.contains k hay) eqn:Hk; [discriminate|].
    intros H. constructor; auto.
  - induction 1 as [|[k o] tbl Hk _ IH]; simpl; [reflexivity|].
    simpl in Hk. now rewrite Hk.
Qed.

Lemma lower_upper_char c :
  PyStr.lower_char (PyStr.upper_char c) = PyStr.lower_char c.
Proof. destruct c as [[] [] [] [] [] [] [] []]; reflexivity. Qed.

(** Lowercasing forgets an earlier uppercasing. *)
Lemma lower_upper s : PyStr.lower (PyStr.upper s) = PyStr.lower s.
Proof.
  unfold PyStr.lower, PyStr.upper.
  induction s as [|c s IH]; simpl; [reflexivity|].
  now rewrite lower_upper_char, IH.
Qed.

Lemma startswith_lower p s :
  PyStr.startswith p s = true ->
  PyStr.startswith (PyStr.lower p) (PyStr.lower s) = true.
Proof.
  revert s. induction p as [|a p IH]; intros [|b s]; simpl; try easy.
  destruct (Ascii.eqb a b) eqn:E; [|discriminate].
  apply Ascii.eqb_eq in E as ->. rewrite Ascii.eqb_refl. apply IH.
Qed.

Lemma contains_cons p c s :
  PyStr.contains p (String c s)
  = PyStr.startswith p (String c s) || PyStr.contains p s.
Proof. reflexivity. Qed.

Lemma contains_lower p s :
  PyStr.contains p s = true ->
  PyStr.contains (PyStr.lower p) (PyStr.lower s) = true.
Proof.
  induction s as [|c s IH].
  - simpl. rewrite !orb_false_r. apply (startswith_lower p "").
  - rewrite contains_cons. intros H.
    change (PyStr.lower (String c s))
      with (String (PyStr.lower_char c) (PyStr.lower s)).
    rewrite contains_cons. apply orb_prop in H as [H|H].
    + apply startswith_lower in H.
      change (PyStr.lower (String c s))
        with (String (PyStr.lower_char c) (PyStr.lower s)) in H.
      now rewrite H.
    + rewrite (IH H). apply orb_true_r.
Qed.

(** C7.  The resolver is idempotent on the canonical identifiers: given
    one of AAU, CSIR, NHM, NTPC, TANUVAS as the caller-provided name, it
    returns that identifier, whatever the document text. *)
Theorem resolver_idempotent text id :
  In id required_orgs ->
  detect_organization_from_text text id = id.
Proof.
  unfold required_orgs. simpl.
  intros [<-|[<-|[<-|[<-|[<-|[]]]]]]; reflexivity.
Qed.

Lemma resolver_idempotent_witness :
  detect_organization_from_text "Council of Scientific research" "TANUVAS"
  = "TANUVAS".
Proof. apply resolver_idempotent. simpl. tauto. Defined.

(** C6, as stated, fails: a real name with surrounding blanks that matches
    no keyword is not returned verbatim uppercased. *)
Lemma resolver_verbatim_counterexample :
  ~ verbatim_uppercased "" " Railways ".
Proof.
  unfold verbatim_uppercased. intros H.
  assert (E : detect_organization_from_text "" " Railways " = " RAILWAYS ").
  { apply H; [reflexivity|]. apply first_mapping_None. reflexivity. }
  vm_compute in E. discriminate E.
Qed.

(** C6, amended.  The resolution steps apply in strict priority order.  A
    real caller-provided name is stripped of surrounding whitespace and
    checked, case-insensitively, against every keyword: the first keyword
    of the table it contains decides, and when it contains none the
    stripped name is returned uppercased.  Only without a real name is the
    header (the first 500 characters) scanned, then the whole text, then
    the fallback returned.  So a text with NTPC in its first 500
    characters resolves to NTPC without a hint, wherever CSIR occurs. *)
Theorem resolver_priority text provided_name :
  let name := PyStr.strip provided_name in
  let header := PyStr.lower (PyStr.take 500 text) in
  let body := PyStr.lower text in
  let tbl := ORGANIZATION_MAPPINGS in
  (is_real_name provided_name = true ->
     (forall org, first_hit tbl (PyStr.lower name) org ->
        detect_organization_from_text text provided_name = org)
     /\ (no_hit tbl (PyStr.lower name) ->
        detect_organization_from_text text provided_name = PyStr.upper name))
  /\ (is_real_name provided_name = false ->
     (forall org, first_hit tbl header org ->
        detect_organization_from_text text provided_name = org)
     /\ (forall org, no_hit tbl header -> first_hit tbl body org ->
        detect_organization_from_text text provided_name = org)
     /\ (no_hit tbl header -> no_hit tbl body ->
        detect_organization_from_text text provided_name
        = if nonempty provided_name then provided_name
          else "Unknown Organization"))
  /\ (PyStr.contains "NTPC" (PyStr.take 500 text) = true ->
      detect_organization_from_text text "" = "NTPC").
Proof.
  intros name header body tbl.
  unfold detect_organization_from_text. fold (is_real_name provided_name).
  fold name header body tbl. rewrite lower_upper.
  split; [|split].
  - intros ->. split.
    + intros org H. apply first_mapping_Some in H. now rewrite H.
    + intros H. apply first_mapping_None in H. now rewrite H.
  - intros ->. split; [|split].
    + intros org H. apply first_mapping_Some in H. now rewrite H.
    + intros org H0 H. apply first_mapping_None in H0.
      apply first_mapping_Some in H. now rewrite H0, H.
    + intros H0 H. apply first_mapping_None in H0, H. now rewrite H0, H.
  - intros H. apply contains_lower in H. change (PyStr.lower "NTPC") with "ntpc" in H.
    simpl nonempty. cbv iota. simpl andb. cbv iota.
    unfold tbl, ORGANIZATION_MAPPINGS, first_mapping.
    fold header. unfold header. now rewrite H.
Qed.

Lemma resolver_priority_witness :
  detect_organization_from_text
    "NTPC Limited, recruitment notice. Candidates from CSIR labs may apply." ""
  = "NTPC"
  /\ detect_organization_from_text "" " Railways " = "RAILWAYS".
Proof.
  split.
  - apply (resolver_priority
      "NTPC Limited, recruitment notice. Candidates from CSIR labs may apply." "").
    reflexivity.
  - destruct (resolver_priority "" " Railways ") as [H _].
    destruct (H eq_refl) as [_ H']. apply H'.
    apply first_mapping_None. reflexivity.
Defined.

(** ** LastDateExtractor *)

Lemma nonempty_true s : nonempty s = true <-> s <> "".
Proof.
  unfold nonempty. destruct (String.eqb s "") eqn:E; simpl.
  - apply String.eqb_eq in E. split; [discriminate|congruence].
  - apply String.eqb_neq in E. tauto.
Qed.

Lemma nonempty_false s : nonempty s = false <-> s = "".
Proof.
  unfold nonempty. destruct (String.eqb s "") eqn:E; simpl.
  - apply String.eqb_eq in E. tauto.
  - apply String.eqb_neq in E. split; [discriminate|congruence].
Qed.

Lemma keyword_cascade_step pattern source rest text :
  keyword_cascade ((pattern, source) :: rest) text
  = if nonempty (keyword_hit pattern text)
    then Some (keyword_hit pattern text, source)
    else keyword_cascade rest text.
Proof.
  unfold keyword_hit, last_match. simpl.
  destruct (List.last (map Some (Re.findall pattern text)) None); reflexivity.
Qed.

(** Patterns whose last match does not normalize are passed over. *)
Lemma keyword_cascade_skip pre rest text :
  Forall (fun ps => keyword_hit ps.1 text = "") pre ->
  keyword_cascade (pre ++ rest) text = keyword_cascade rest text.
Proof.
  induction 1 as [|[p s] pre Hp _ IH]; [reflexivity|].
  simpl app. rewrite keyword_cascade_step. simpl in Hp. now rewrite Hp.
Qed.

(** *** Inversion of the matcher *)

Lemma drop_drop a b s : PyStr.drop a (PyStr.drop b s) = PyStr.drop (b + a) s.
Proof.
  revert s. induction b as [|b IH]; intros s; simpl; [reflexivity|].
  destruct s as [|c s]; [now destruct a|]. apply IH.
Qed.

Lemma take_add a b s :
  PyStr.take (a + b) s = PyStr.take a s +:+ PyStr.take b (PyStr.drop a s).
Proof.
  revert s. induction a as [|a IH]; intros s; simpl; [reflexivity|].
  destruct s as [|c s]; simpl; [now destruct b|]. now rewrite IH.
Qed.

Lemma str_forall_app p a b :
  str_forall p (a +:+ b) = str_forall p a && str_forall p b.
Proof. induction a; simpl; [reflexivity|]. now rewrite IHa, andb_assoc. Qed.

Lemma len_drop j s : PyStr.len (PyStr.drop j s) = PyStr.len s - j.
Proof.
  revert s. induction j as [|j IH]; intros s; simpl; [unfold PyStr.len; lia|].
  destruct s as [|c s]; [reflexivity|]. apply IH.
Qed.

(** A successful repetition consumed a run of characters of its class,
    long enough to reach [lo], and went on with the rest of the pattern. *)
Lemma rep_inv p lo hi g k s pos cnt res :
  Re.rep p lo hi g k s pos cnt = Some res ->
  exists j,
    j <= PyStr.len s
    /\ lo <= cnt + j
    /\ str_forall p (PyStr.take j s) = true
    /\ k (PyStr.drop j s) (pos + j) = Some res.
Proof.
  revert pos cnt res. induction s as [|c s IH]; intros pos cnt res.
  - simpl. destruct g.
    + destruct (lo <=? cnt) eqn:Hlo; [|discriminate]. intros H. exists 0.
      apply Nat.leb_le in Hlo. rewrite !Nat.add_0_r. repeat split; auto; simpl; lia.
    + destruct (lo <=? cnt) eqn:Hlo; [|discriminate].
      destruct (k "" pos) eqn:Hk; [|discriminate]. intros [= <-].
      apply Nat.leb_le in Hlo.
      exists 0. rewrite !Nat.add_0_r. repeat split; auto; simpl; lia.
  - simpl. 
    assert (Hmore : forall r,
              (if p c && Re.below hi cnt
               then Re.rep p lo hi g k s (S pos) (S cnt) else None) = Some r ->
              exists j, j <= PyStr.len (String c s)
                /\ lo <= cnt + j
                /\ str_forall p (PyStr.take j (String c s)) = true
                /\ k (PyStr.drop j (String c s)) (pos + j) = Some r).
    { intros r. destruct (p c) eqn:Hp; simpl; [|discriminate].
      destruct (Re.below hi cnt); [|discriminate]. intros H.
      destruct (IH _ _ _ H) as (j & Hj & Hlo & Hall & Hk).
      exists (S j). simpl. rewrite Hp, Hall.
      replace (pos + S j) with (S pos + j) by lia.
      repeat split; auto; [unfold PyStr.len in *; simpl; lia | lia]. }
    assert (Hstop : forall r,
              (if lo <=? cnt then k (String c s) pos else None) = Some r ->
              exists j, j <= PyStr.len (String c s)
                /\ lo <= cnt + j
                /\ str_forall p (PyStr.take j (String c s)) = true
                /\ k (PyStr.drop j (String c s)) (pos + j) = Some r).
    { intros r H. destruct (lo <=? cnt) eqn:Hlo; [|discriminate].
      apply Nat.leb_le in Hlo.
      exists 0. rewrite !Nat.add_0_r. simpl. repeat split; auto; lia. }
    destruct g.
    + destruct (if p c && Re.below hi cnt then _ else None) eqn:E.
      * intros [= <-]. now apply Hmore.
      * apply Hstop.
    + destruct (if lo <=? cnt then _ else None) eqn:E.
      * intros [= <-]. now apply Hstop.
      * apply Hmore.
Qed.

(** A lazy repetition from zero stops at the first position where the rest
    of the pattern matches. *)
Lemma rep_lazy_first p hi k s pos cnt res :
  Re.rep p 0 hi false k s pos cnt = Some res ->
  exists j,
    j <= PyStr.len s
    /\ k (PyStr.drop j s) (pos + j) = Some res
    /\ forall i, i < j -> k (PyStr.drop i s) (pos + i) = None.
Proof.
  revert pos cnt res. induction s as [|c s IH]; intros pos cnt res; simpl.
  - destruct (k "" pos) eqn:Hk; [|discriminate]. intros [= <-].
    exists 0. rewrite Nat.add_0_r. repeat split; auto. lia.
  - destruct (k (String c s) pos) eqn:Hk.
    + intros [= <-]. exists 0. rewrite Nat.add_0_r. simpl.
      repeat split; auto; lia.
    + destruct (p c && Re.below hi cnt); [|discriminate]. intros H.
      destruct (IH _ _ _ H) as (j & Hj & Hkj & Hmin).
      exists (S j). simpl. replace (pos + S j) with (S pos + j) by lia.
      repeat split; auto.
      * unfold PyStr.len in *. simpl. lia.
      * intros [|i] Hi; simpl.
        -- now rewrite Nat.add_0_r.
        -- replace (pos + S i) with (S pos + i) by lia. apply Hmin. lia.
Qed.

(** Matching a run of plain items consumes a prefix made of characters of
    their classes and goes on with the rest of the pattern. *)
Lemma match_here_plain P A rest s pos gs ge res :
  plain P A ->
  Re.match_here (A ++ rest) s pos gs ge = Some res ->
  exists j,
    j <= PyStr.len s
    /\ str_forall P (PyStr.take j s) = true
    /\ Re.match_here rest (PyStr.drop j s) (pos + j) gs ge = Some res.
Proof.
  revert s pos. induction A as [|it A IH]; intros s pos HA H.
  - exists 0. rewrite Nat.add_0_r. simpl. repeat split; auto. lia.
  - destruct it as [p|p lo hi g| |]; simpl in HA; try contradiction;
      destruct HA as [Hp HA].
    + simpl in H. destruct s as [|c s]; [discriminate|].
      destruct (p c) eqn:Hc; [|discriminate].
      destruct (IH _ _ HA H) as (j & Hj & Hall & Hk).
      exists (S j). simpl. rewrite (Hp c Hc), Hall.
      replace (pos + S j) with (S pos + j) by lia.
      repeat split; auto. unfold PyStr.len in *. simpl. lia.
    + simpl in H. apply rep_inv in H as (j1 & Hj1 & _ & Hall1 & Hk).
      destruct (IH _ _ HA Hk) as (j2 & Hj2 & Hall2 & Hk2).
      exists (j1 + j2). rewrite take_add, str_forall_app, Hall2, andb_true_r.
      rewrite len_drop in Hj2. rewrite drop_drop in Hk2.
      rewrite Nat.add_assoc. repeat split; auto; [lia|].
      clear -Hall1 Hp. revert Hall1. generalize (PyStr.take j1 s).
      induction s0 as [|c t IHt]; simpl; [reflexivity|].
      intros H. apply andb_prop in H as [Hc Ht]. now rewrite (Hp c Hc), IHt.
Qed.

Lemma str_forall_impl (p P : ascii -> bool) s :
  (forall c, p c = true -> P c = true) ->
  str_forall p s = true -> str_forall P s = true.
Proof.
  intros Hp. induction s as [|c t IH]; simpl; [reflexivity|].
  intros H. apply andb_prop in H as [Hc Ht]. now rewrite (Hp c Hc), IH.
Qed.

Lemma digit_date_char c : Re.digit c = true -> date_char c = true.
Proof. unfold date_char, Re.digit. now intros ->. Qed.

Lemma sep_date_char c : Re.date_sep c = true -> date_char c = true.
Proof. unfold date_char. intros ->. apply orb_true_r. Qed.

(** A match of the date group spans at least one character, date
    characters only, and ends the match. *)
Lemma date_group_inv t p res :
  Re.match_here date_group t p None None = Some res ->
  exists j,
    1 <= j <= PyStr.len t
    /\ str_forall date_char (PyStr.take j t) = true
    /\ res = (p + j, Some (p, p + j)).
Proof.
  intros H.
  change (Re.rep Re.digit 1 (Some 2) true
            (fun s' pos' =>
               Re.match_here
                 ([ Re.Chr Re.date_sep; Re.Rep Re.digit 1 (Some 2) true;
                    Re.Chr Re.date_sep; Re.Rep Re.digit 2 (Some 4) true ]
                  ++ [Re.GroupClose]) s' pos' (Some p) None)
            t p 0 = Some res) in H.
  apply rep_inv in H as (j1 & Hj1 & Hlo & Hall1 & Hk).
  apply (match_here_plain date_char) in Hk as (j2 & Hj2 & Hall2 & Hend).
  - simpl in Hend. injection Hend as <-.
    exists (j1 + j2). rewrite len_drop in Hj2.
    rewrite take_add, str_forall_app, Hall2, andb_true_r.
    rewrite (str_forall_impl _ _ _ digit_date_char Hall1).
    rewrite Nat.add_assoc. repeat split; auto; lia.
  - simpl. repeat split; auto using digit_date_char, sep_date_char.
Qed.

Lemma get_drop i a s : String.get i (PyStr.drop a s) = String.get (a + i) s.
Proof.
  revert s. induction a as [|a IH]; intros s; simpl; [reflexivity|].
  destruct s as [|c s]; simpl; [now destruct i|]. apply IH.
Qed.

Lemma drop_cons_get j s c t :
  PyStr.drop j s = String c t ->
  String.get j s = Some c /\ PyStr.drop (S j) s = t.
Proof.
  revert s. induction j as [|j IH]; intros s; simpl.
  - intros ->. auto.
  - destruct s as [|c' s]; [discriminate|]. intros H.
    destruct (IH _ H) as [Hg Hd]. split; [exact Hg|].
    destruct j; exact Hd.
Qed.

Lemma str_forall_get P j t i c :
  str_forall P (PyStr.take j t) = true ->
  i < j -> String.get i t = Some c -> P c = true.
Proof.
  revert t i. induction j as [|j IH]; intros t i Hall Hi Hg; [lia|].
  destruct t as [|c' t]; [discriminate Hg|].
  simpl in Hall. apply andb_prop in Hall as [Hc Hall].
  destruct i as [|i]; simpl in Hg; [congruence|].
  apply (IH t i); auto. lia.
Qed.

Lemma get_app_r pre t i :
  String.get (PyStr.len pre + i) (pre +:+ t) = String.get i t.
Proof. induction pre as [|c pre IH]; simpl; auto. Qed.

Lemma drop_app_r pre t i :
  PyStr.drop (PyStr.len pre + i) (pre +:+ t) = PyStr.drop i t.
Proof. induction pre as [|c pre IH]; simpl; auto. Qed.

Lemma phrase_head_not_date i :
  i <= 10 ->
  exists c, String.get i deadline_phrase = Some c /\ date_char c = false.
Proof.
  intros Hi.
  do 11 (destruct i as [|i]; [eexists; split; reflexivity|]). lia.
Qed.

Lemma phrase_tail_not_e i c :
  11 <= i -> String.get i deadline_phrase = Some c -> Re.ci "e" c = false.
Proof.
  intros Hi.
  do 11 (destruct i as [|i]; [lia|]).
  do 10 (destruct i as [|i]; [intros [= <-]; reflexivity|]).
  discriminate.
Qed.

Lemma date_group_on_date p :
  Re.match_here date_group deadline_date p None None
  = Some (10 + p, Some (p, 10 + p)).
Proof. reflexivity. Qed.

Lemma match_here_chr p r s pos gs ge res :
  Re.match_here (Re.Chr p :: r) s pos gs ge = Some res ->
  exists c t,
    s = String c t /\ p c = true
    /\ Re.match_here r t (S pos) gs ge = Some res.
Proof.
  simpl. destruct s as [|c t]; [discriminate|].
  destruct (p c) eqn:Hc; [|discriminate]. eauto.
Qed.

Lemma match_here_rep p lo hi g r s pos gs ge :
  Re.match_here (Re.Rep p lo hi g :: r) s pos gs ge
  = Re.rep p lo hi g (fun s' pos' => Re.match_here r s' pos' gs ge) s pos 0.
Proof. reflexivity. Qed.

(** A match of the "last date" pattern on a text that ends with the
    phrase either ends before the phrase or runs to the end of the text
    and captures the date of the phrase. *)
Lemma last_date_match_at pre e g0 g1 :
  Re.match_at last_date_pattern (pre +:+ deadline_phrase) = Some (e, g0, g1) ->
  e <= PyStr.len pre
  \/ (e = PyStr.len (pre +:+ deadline_phrase) /\ g1 = Some deadline_date).
Proof.
  set (s := pre +:+ deadline_phrase). set (n := PyStr.len pre).
  unfold Re.match_at.
  destruct (Re.match_here last_date_pattern s 0 None None) as [[e' g]|] eqn:H;
    [|discriminate].
  intros [= <- _ <-].
  change last_date_pattern
    with ((Re.word "last" ++ spaces ++ Re.word "dat")
          ++ Re.Chr (Re.ci "e") :: Re.Rep Re.dot 0 None false :: date_group) in H.
  apply (match_here_plain (fun _ => true)) in H as (j0 & _ & _ & H);
    [|simpl; tauto].
  apply match_here_chr in H as (c & t1 & Hd & He & H).
  apply drop_cons_get in Hd as [Hget Hdrop].
  rewrite match_here_rep in H.
  apply rep_lazy_first in H as (j1 & _ & Hk & Hmin).
  cbv beta in Hk, Hmin.
  assert (Hsuffix : forall i, PyStr.drop i t1 = PyStr.drop (S j0 + i) s).
  { intros i. rewrite <- Hdrop. apply drop_drop. }
  set (a := S j0 + j1) in *.
  rewrite Hsuffix in Hk. fold a in Hk.
  destruct (Nat.le_gt_cases e' n) as [Hle|Hgt]; [now left|right].
  pose proof Hk as Hk'.
  apply date_group_inv in Hk' as (j2 & [Hj2 _] & Hall & Hres).
  injection Hres as He' Hg.
  (* the captured token lies after the words of the phrase *)
  assert (Ha1 : n + 11 <= a).
  { destruct (Nat.le_gt_cases (n + 11) a) as [?|Hlt]; [assumption|exfalso].
    pose (m := Nat.max a n).
    assert (Hmax : (m = a /\ n <= a) \/ (m = n /\ a <= n)) by (unfold m; lia).
    clearbody m.
    destruct (phrase_head_not_date (m - n)) as (c' & Hc' & Hnd); [lia|].
    assert (Hm : String.get (m - a) (PyStr.drop a s) = Some c').
    { rewrite get_drop. replace (a + (m - a)) with (n + (m - n)) by lia.
      unfold s, n. now rewrite get_app_r. }
    assert (Hlt' : m - a < j2) by lia.
    pose proof (str_forall_get _ _ _ _ _ Hall Hlt' Hm). congruence. }
  (* the word "date" ends before the date of the phrase *)
  assert (Hj0 : j0 < n + 11).
  { destruct (Nat.le_gt_cases (n + 11) j0) as [Hge|?]; [exfalso|assumption].
    replace j0 with (n + (j0 - n)) in Hget by lia.
    unfold s, n in Hget. rewrite get_app_r in Hget.
    apply phrase_tail_not_e in Hget; [congruence|lia]. }
  (* the lazy repetition stops at the date of the phrase *)
  assert (Ha2 : a = n + 11).
  { destruct (Nat.eq_dec a (n + 11)) as [?|Hne]; [assumption|exfalso].
    specialize (Hmin (n + 11 - S j0) ltac:(lia)).
    rewrite Hsuffix in Hmin.
    replace (S j0 + (n + 11 - S j0)) with (n + 11) in Hmin by lia.
    unfold s, n in Hmin. rewrite drop_app_r in Hmin.
    change (PyStr.drop 11 deadline_phrase) with deadline_date in Hmin.
    rewrite date_group_on_date in Hmin. discriminate. }
  assert (Hda : PyStr.drop a s = deadline_date).
  { rewrite Ha2. unfold s, n. rewrite drop_app_r. reflexivity. }
  rewrite Hda, date_group_on_date in Hk. injection Hk as <- <-.
  split.
  - unfold s. rewrite len_app. fold n. change (PyStr.len deadline_phrase) with 21. lia.
  - change (Some (PyStr.take (10 + a - a) (PyStr.drop a s)) = Some deadline_date).
    rewrite Hda. replace (10 + a - a) with 10 by lia. reflexivity.
Qed.

Lemma findall_skip_all r s :
  Re.match_at r "" = None -> Re.findall_aux r (PyStr.len s) s = [].
Proof.
  intros H. induction s as [|c s IH]; simpl.
  - now rewrite H.
  - exact IH.
Qed.

Lemma last_cons_some {A} (x : A) l d y :
  List.last l d = y -> y <> d -> List.last (x :: l) d = y.
Proof.
  intros H Hne. destruct l as [|z l]; [simpl in H; congruence|].
  exact H.
Qed.

(** On a text that ends with the phrase, the last match of the "last
    date" pattern is the date of the phrase, wherever the scan stands. *)
Lemma last_match_phrase pre skip :
  skip <= PyStr.len pre ->
  List.last
    (map Some (Re.findall_aux last_date_pattern skip (pre +:+ deadline_phrase)))
    None
  = Some deadline_date.
Proof.
  revert skip. induction pre as [|c pre IH]; intros skip Hskip.
  - simpl in Hskip. assert (skip = 0) as -> by lia. reflexivity.
  - destruct skip as [|k].
    + change (String c pre +:+ deadline_phrase)
        with (String c (pre +:+ deadline_phrase)).
      unfold Re.findall_aux; fold Re.findall_aux.
      destruct (Re.match_at last_date_pattern (String c (pre +:+ deadline_phrase)))
        as [[[e g0] g1]|] eqn:Hm.
      * apply (last_date_match_at (String c pre)) in Hm as [Hle|[-> ->]].
        -- simpl map. apply last_cons_some; [|discriminate].
           apply IH. unfold PyStr.len in *. simpl in Hle. lia.
        -- change (Init.Nat.pred (PyStr.len (String c pre +:+ deadline_phrase)))
             with (PyStr.len (pre +:+ deadline_phrase)).
           rewrite findall_skip_all by reflexivity. reflexivity.
      * apply IH. lia.
    + simpl. apply IH. unfold PyStr.len in *. simpl in Hskip. lia.
Qed.

(** Whatever precedes it, a text that ends with the phrase "last date:
    01-05-2025" gets that date from the first pattern of the cascade. *)
Lemma extract_last_date_phrase E pre org_name :
  extract_last_date_comprehensive E (pre +:+ deadline_phrase) org_name
  = (deadline_date, "last date keyword").
Proof.
  unfold extract_last_date_comprehensive.
  change date_patterns
    with ((last_date_pattern, "last date keyword") :: tl date_patterns).
  rewrite keyword_cascade_step.
  unfold keyword_hit, last_match, Re.findall.
  rewrite last_match_phrase by lia. reflexivity.
Qed.

Lemma extract_last_date_sample E org_name :
  extract_last_date_comprehensive E
    "Notification dated 10-03-2025. Apply online. Last date: 01-05-2025" org_name
  = ("01-05-2025", "last date keyword").
Proof. reflexivity. Qed.

(** C5.  The extractor tries its strategies in a fixed order and stops at
    the first success: the keyword cascade, then the line scan, then the
    known date of the organization, then the heuristic scan.  In the
    cascade each pattern contributes the last of its non-overlapping
    matches, normalized, and the first pattern (in priority order) for
    which this succeeds gives the result and the source label.  A text
    that ends with the phrase "last date: 01-05-2025" yields 01-05-2025
    with the label of the first cascade pattern whatever precedes the
    phrase, unrelated earlier dates included; so does the sample text,
    where the phrase is capitalised. *)
Theorem extract_last_date_order E text org_name :
  let lines := PyStr.split "010" text in
  let tokens := Re.findall (date_shape 4 4) text in
  let silent := Forall (fun ps => keyword_hit ps.1 text = "") in
  (forall pre pattern source post,
      date_patterns = pre ++ (pattern, source) :: post ->
      silent pre ->
      keyword_hit pattern text <> "" ->
      extract_last_date_comprehensive E text org_name
      = (keyword_hit pattern text, source))
  /\ (silent date_patterns ->
      (forall d, section_scan lines = Some d ->
         extract_last_date_comprehensive E text org_name = (d, "section scan"))
      /\ (section_scan lines = None ->
          (forall d, KNOWN_LAST_DATES !! org_name = Some d ->
             extract_last_date_comprehensive E text org_name
             = (d, "known fallback"))
          /\ (KNOWN_LAST_DATES !! org_name = None ->
              (forall d, heuristic_scan E tokens = Some d ->
                 extract_last_date_comprehensive E text org_name
                 = (d, "heuristic scan"))
              /\ (heuristic_scan E tokens = None ->
                  extract_last_date_comprehensive E text org_name
                  = ("", "not found")))))
  /\ ((forall pre,
         extract_last_date_comprehensive E (pre +:+ deadline_phrase) org_name
         = (deadline_date, "last date keyword"))
      /\ extract_last_date_comprehensive E
           "Notification dated 10-03-2025. Apply online. Last date: 01-05-2025"
           org_name
         = ("01-05-2025", "last date keyword")
      /\ In "last date keyword" keyword_labels).
Proof.
  intros lines tokens silent. split; [|split].
  - intros pre pattern source post Hsplit Hpre Hhit.
    unfold extract_last_date_comprehensive. rewrite Hsplit.
    rewrite (keyword_cascade_skip pre _ text Hpre), keyword_cascade_step.
    apply nonempty_true in Hhit. now rewrite Hhit.
  - intros Hsilent. unfold extract_last_date_comprehensive.
    rewrite <- (app_nil_r date_patterns).
    rewrite (keyword_cascade_skip date_patterns [] text Hsilent). simpl keyword_cascade.
    fold lines tokens. split.
    + intros d ->. reflexivity.
    + intros ->. split.
      * intros d ->. reflexivity.
      * intros ->. split.
        -- intros d ->. reflexivity.
        -- intros ->. reflexivity.
  - split; [intros pre; apply extract_last_date_phrase|].
    split; [apply extract_last_date_sample|]. simpl. tauto.
Qed.

Lemma extract_last_date_order_witness :
  extract_last_date_comprehensive sample_env
    ("Posts advertised on 10-03-2025." +:+ nl +:+ "Deadline 15/04/25") ""
  = ("15-04-2025", "deadline").
Proof.
  destruct (extract_last_date_order sample_env
              ("Posts advertised on 10-03-2025." +:+ nl +:+ "Deadline 15/04/25") "")
    as [H _].
  rewrite (H (firstn 4 date_patterns)
             (Re.word "deadline" ++ lazy_any ++ group (date_shape 2 4))
             "deadline" (skipn 5 date_patterns)).
  - reflexivity.
  - reflexivity.
  - repeat constructor.
  - discriminate.
Defined.

(** ** The repair of [last_date] *)

Lemma last_date_punted_str pos s :
  pos !! "last_date" = Some (JStr s) ->
  last_date_punted pos = ret (says_punted s).
Proof.
  intros H. unfold last_date_punted, getitem, says_punted. rewrite H.
  cbv beta iota delta [bind ret]. simpl truthy. rewrite negb_involutive.
  destruct (String.eqb s ""); [reflexivity|]. simpl.
  destruct (PyStr.contains "check" (PyStr.lower s)); reflexivity.
Qed.



(** ** Completion of the records *)

Lemma ensure_step_lookup (fields : list string) (m : gmap string json) k :
  fold_left
    (fun pos field =>
       match pos !! field with
       | Some _ => pos
       | None => <[field := JStr ""]> pos
       end) fields m !! k
  = match m !! k with
    | Some v => Some v
    | None => if decide (k ∈ fields) then Some (JStr "") else None
    end.
Proof.
  revert m. induction fields as [|f fields IH]; intros m; simpl.
  - destruct (m !! k); [reflexivity|].
    destruct (decide (k ∈ [])) as [Hin|_]; [|reflexivity].
    exfalso. eapply not_elem_of_nil; eauto.
  - rewrite IH. destruct (m !! f) eqn:Hf.
    + destruct (m !! k) eqn:Hk; [reflexivity|].
      destruct (decide (k ∈ fields)) as [Hin|Hin],
               (decide (k ∈ f :: fields)) as [Hin'|Hin']; try reflexivity.
      * exfalso. apply Hin'. now right.
      * apply elem_of_cons in Hin' as [->|?]; [congruence|contradiction].
    + destruct (decide (k = f)) as [->|Hne].
      * rewrite lookup_insert_eq, Hf.
        destruct (decide (f ∈ f :: fields)) as [_|Hin']; [reflexivity|].
        exfalso. apply Hin'. now left.
      * rewrite lookup_insert_ne by congruence.
        destruct (m !! k); [reflexivity|].
        destruct (decide (k ∈ fields)) as [Hin|Hin],
                 (decide (k ∈ f :: fields)) as [Hin'|Hin']; try reflexivity.
        -- exfalso. apply Hin'. now right.
        -- apply elem_of_cons in Hin' as [->|?]; [congruence|contradiction].
Qed.

(** After [ensure_fields] a key holds its former value, or the empty string
    when it was missing and is required. *)
Lemma ensure_fields_lookup (m : gmap string json) k :
  ensure_fields m !! k
  = match m !! k with
    | Some v => Some v
    | None => if decide (k ∈ required_fields) then Some (JStr "") else None
    end.
Proof. apply ensure_step_lookup. Qed.

Lemma ensure_fields_dom (m : gmap string json) :
  dom (ensure_fields m) = dom m ∪ required_keys.
Proof.
  apply set_eq. intros k.
  rewrite elem_of_union, !elem_of_dom, ensure_fields_lookup.
  unfold required_keys. rewrite elem_of_list_to_set.
  destruct (m !! k) eqn:Hk.
  - split; [left; eauto | eauto].
  - case_decide.
    + split; [now right | eauto].
    + split; [intros [? [=]] | intros [[? [=]]|?]; contradiction].
Qed.

Lemma fill_last_date_shape auto_date org (pos r : gmap string json) :
  fill_last_date auto_date org pos = inr r ->
  r = pos \/ exists d, r = <["last_date" := JStr d]> pos.
Proof.
  unfold fill_last_date.
  destruct (last_date_punted pos) as [e|[]]; cbv beta iota delta [bind ret];
    [discriminate| |intros [= <-]; now left].
  destruct (nonempty auto_date); [intros [= <-]; right; eauto|].
  destruct (KNOWN_LAST_DATES !! org); intros [= <-]; [right; eauto | now left].
Qed.

Lemma postprocess_position_completes auto_date org p r :
  postprocess_position auto_date org p = inr r -> completes p r.
Proof.
  destruct p as [| | | |l|m]; try discriminate.
  unfold postprocess_position.
  destruct (fill_last_date auto_date org (ensure_fields m)) as [e|m'] eqn:E;
    cbv beta iota delta [bind ret]; [discriminate|].
  destruct (validate_salary m'); [discriminate|]. intros [= <-].
  assert (Hin : "last_date" ∈ dom (ensure_fields m)).
  { rewrite ensure_fields_dom. apply elem_of_union_r.
    unfold required_keys. rewrite elem_of_list_to_set.
    apply list_elem_of_In. simpl. tauto. }
  exists m. split; [reflexivity|].
  apply fill_last_date_shape in E as [->|[d ->]].
  - split; [apply ensure_fields_dom|]. split.
    + intros k v Hk _. now rewrite ensure_fields_lookup, Hk.
    + intros k Hreq Hk _. rewrite ensure_fields_lookup, Hk.
      unfold required_keys in Hreq. rewrite elem_of_list_to_set in Hreq.
      now rewrite decide_True.
  - split.
    + rewrite dom_insert_L, <- ensure_fields_dom.
      apply subseteq_union_1_L, singleton_subseteq_l, Hin.
    + split.
      * intros k v Hk Hne. rewrite lookup_insert_ne by congruence.
        now rewrite ensure_fields_lookup, Hk.
      * intros k Hreq Hk Hne. rewrite lookup_insert_ne by congruence.
        rewrite ensure_fields_lookup, Hk.
        unfold required_keys in Hreq. rewrite elem_of_list_to_set in Hreq.
        now rewrite decide_True.
Qed.

Lemma mapM_Forall2 {A B} (f : A -> Exc B) l rs :
  mapM f l = inr rs -> Forall2 (fun a b => f a = inr b) l rs.
Proof.
  revert rs. induction l as [|a l IH]; intros rs; simpl.
  - intros [= <-]. constructor.
  - destruct (f a) as [e|b] eqn:Ha; cbv beta iota delta [bind ret]; [discriminate|].
    destruct (mapM f l) as [e|bs]; [discriminate|].
    intros [= <-]. constructor; auto.
Qed.

(** ** The orchestrator *)

Lemma analyze_handler_raises e : exists e', analyze_handler e = inl e'.
Proof. destruct e; simpl; eauto. Qed.

(** A returned result comes from the [try] block, after exactly one call
    of the completion service. *)
Lemma analyze_returns E text org_name log res log' :
  analyze_with_ultra_strict_ai E text org_name log = (inr res, log') ->
  let detected_org := detect_organization_from_text text org_name in
  let found := extract_last_date_comprehensive E text detected_org in
  mistral_client E = true
  /\ log' = log ++ [prompt_for E text org_name]
  /\ analyze_try E detected_org found.1 found.2
       (chat_complete E log (prompt_for E text org_name)) = inr res.
Proof.
  unfold analyze_with_ultra_strict_ai, prompt_for.
  destruct (mistral_client E); simpl negb; cbv iota; [|discriminate].
  destruct (extract_last_date_comprehensive E text
              (detect_organization_from_text text org_name)) as [auto src].
  simpl. intros [= Hres <-]. repeat split.
  unfold try_except in Hres.
  destruct (analyze_try _ _ _ _ _) as [e|r]; [|congruence].
  destruct (analyze_handler_raises e) as [e' He']. congruence.
Qed.

Lemma coverage_returns E total missing c :
  coverage E total missing = inr c -> total <> 0.
Proof.
  unfold coverage. destruct total; simpl; [discriminate|]. discriminate.
Qed.

(** A result is returned only for a reply that parses as a non-empty array
    whose elements all pass the per-record step. *)
Lemma analyze_try_returns E detected_org auto_date source reply res :
  analyze_try E detected_org auto_date source reply = inr res ->
  exists content l,
    reply = inr content
    /\ json_loads E (clean_response content) = inr (JArr l)
    /\ l <> []
    /\ mapM (postprocess_position auto_date detected_org) l = inr (positions res)
    /\ total_positions res = length (positions res)
    /\ organization res = JStr detected_org.
Proof.
  unfold analyze_try.
  destruct reply as [msg|content]; cbv beta iota delta [bind ret raise];
    [discriminate|].
  destruct (json_loads E (clean_response content)) as [msg|parsed] eqn:Hj;
    [discriminate|].
  destruct (postprocess_positions auto_date detected_org parsed) as [e|ps] eqn:Hps;
    [discriminate|].
  destruct (count_missing "last_date" ps) as [e|md]; [discriminate|].
  destruct (count_missing "salary" ps) as [e|ms]; [discriminate|].
  destruct (coverage E (length ps) md) as [e|c1] eqn:Hc; [discriminate|].
  destruct (coverage E (length ps) ms) as [e|c2]; [discriminate|].
  intros [= <-]. simpl.
  apply coverage_returns in Hc.
  exists content.
  destruct parsed as [| | |s|l|m]; simpl in Hps; try discriminate.
  - destruct (String.eqb s ""); [|discriminate].
    injection Hps as <-. now destruct Hc.
  - exists l. split; [reflexivity|]. split; [exact Hj|].
    split; [|split; [exact Hps|split; reflexivity]].
    intros ->. simpl in Hps. injection Hps as <-. now destruct Hc.
  - destruct (size m =? 0); [|discriminate].
    injection Hps as <-. now destruct Hc.
Qed.

(** C2, as stated, fails: a key the model adds on its own stays in the
    returned record, which then has more than the 14 required keys. *)
Lemma orchestrator_exact_keys_counterexample : ~ orchestrator_exact_keys.
Proof.
  intros H.
  destruct (analyze_with_ultra_strict_ai sample_env sample_text "" [])
    as [[e|res] log'] eqn:E; [vm_compute in E; discriminate E|].
  specialize (H _ _ _ _ _ _ E).
  assert (Hp : exists r, positions res = [r] /\ r !! "note" = Some (JStr "x")).
  { vm_compute in E. injection E as <- _. eexists. split; reflexivity. }
  destruct Hp as (r & Hr & Hnote). rewrite Hr in H.
  apply Forall_cons in H as [H _]. unfold exactly_required_keys in H.
  assert (Hin : "note" ∈ dom r) by (apply elem_of_dom; eauto).
  rewrite H in Hin. vm_compute in Hin. discriminate Hin.
Qed.

(** C2, amended.  Every record of a record set returned by the
    orchestrator has at least the 14 required keys: the reply parsed as
    an array, no element of it was dropped, and each returned record has
    the keys of its parsed element together with the 14 required ones,
    keeps the values the model gave and holds the empty string under the
    required keys that were missing ([last_date] apart, subject to the
    repair step). *)
Theorem orchestrator_completes E text org_name log res log' :
  analyze_with_ultra_strict_ai E text org_name log = (inr res, log') ->
  exists content l,
    chat_complete E log (prompt_for E text org_name) = inr content
    /\ json_loads E (clean_response content) = inr (JArr l)
    /\ Forall2 completes l (positions res)
    /\ length (positions res) = length l
    /\ total_positions res = length l
    /\ Forall (fun r => required_keys ⊆ dom r) (positions res).
Proof.
  intros H. apply analyze_returns in H as (_ & _ & H).
  apply analyze_try_returns in H as (content & l & Hr & Hj & _ & Hm & Ht & _).
  exists content, l. split; [assumption|]. split; [assumption|].
  apply mapM_Forall2 in Hm.
  assert (HF : Forall2 completes l (positions res)).
  { eapply Forall2_impl; [exact Hm|].
    intros p r. apply postprocess_position_completes. }
  pose proof (Forall2_length _ _ _ HF) as HL.
  repeat split; auto; try congruence.
  clear -HF. induction HF as [|p r l rs (m & _ & Hdom & _) _ IH]; constructor; auto.
  rewrite Hdom. apply union_subseteq_r.
Qed.

Lemma orchestrator_completes_witness :
  exists res log',
    analyze_with_ultra_strict_ai sample_env sample_text "" [] = (inr res, log')
    /\ Forall (fun r => required_keys ⊆ dom r) (positions res)
    /\ length (positions res) = 1.
Proof.
  destruct (analyze_with_ultra_strict_ai sample_env sample_text "" [])
    as [[e|res] log'] eqn:E; [vm_compute in E; discriminate E|].
  exists res, log'. split; [reflexivity|].
  destruct (orchestrator_completes sample_env sample_text "" [] res log' E)
    as (content & l & Hc & Hj & _ & Hl & _ & Hk).
  split; [exact Hk|].
  rewrite Hl. simpl in Hc. injection Hc as <-.
  vm_compute in Hj. injection Hj as <-. reflexivity.
Defined.






Lemma analyze_fails_500 E text org_name log e log' :
  mistral_client E = true ->
  analyze_with_ultra_strict_ai E text org_name log = (inl e, log') ->
  exists detail,
    e = HTTPException 500 ("AI response parsing failed: " +:+ detail)
    \/ e = HTTPException 500 ("Analysis failed: " +:+ detail).
Proof.
  intros Hc. unfold analyze_with_ultra_strict_ai. rewrite Hc. simpl negb. cbv iota.
  destruct (extract_last_date_comprehensive E text _) as [auto src].
  destruct (analyze_try _ _ _ _ _) as [e0|r]; unfold try_except; [|discriminate].
  intros [= He _].
  destruct e0; unfold analyze_handler, raise in He; injection He as <-; eauto.
Qed.

Lemma analyze_log E text org_name log :
  mistral_client E = true ->
  (analyze_with_ultra_strict_ai E text org_name log).2
  = log ++ [prompt_for E text org_name].
Proof.
  intros Hc. unfold analyze_with_ultra_strict_ai, prompt_for.
  rewrite Hc. simpl negb. cbv iota.
  destruct (extract_last_date_comprehensive E text _) as [auto src].
  reflexivity.
Qed.

(** ** Stable sorting by key *)

Section SortBy.
Context {A : Type} (key : A -> nat).

Let le_key (a b : A) : Prop := key a <= key b.

Lemma insert_by_perm x l : Permutation (insert_by key x l) (x :: l).
Proof.
  induction l as [|y l IH]; simpl; [reflexivity|].
  destruct (key x <? key y); [reflexivity|].
  rewrite IH. apply perm_swap.
Qed.

Lemma sort_by_acc_perm l acc :
  Permutation (fold_left (fun acc x => insert_by key x acc) l acc) (acc ++ l).
Proof.
  revert acc. induction l as [|x l IH]; intros acc; simpl.
  - now rewrite app_nil_r.
  - rewrite IH, insert_by_perm. simpl. apply Permutation_middle.
Qed.

Lemma sort_by_perm l : Permutation (sort_by key l) l.
Proof. apply (sort_by_acc_perm l []). Qed.

Lemma insert_by_hd x y l :
  le_key y x -> HdRel le_key y l -> HdRel le_key y (insert_by key x l).
Proof.
  intros Hyx H. destruct l as [|z l]; simpl; [now constructor|].
  destruct (key x <? key z); constructor; auto.
  now inversion H.
Qed.

Lemma insert_by_sorted x l :
  Sorted le_key l -> Sorted le_key (insert_by key x l).
Proof.
  induction 1 as [|y l Hs IH Hhd]; simpl; [repeat constructor|].
  destruct (key x <? key y) eqn:E.
  - apply Nat.ltb_lt in E. constructor; [now constructor|].
    constructor. unfold le_key. lia.
  - apply Nat.ltb_ge in E. constructor; [assumption|].
    now apply insert_by_hd.
Qed.

Lemma sort_by_acc_sorted l acc :
  Sorted le_key acc ->
  Sorted le_key (fold_left (fun acc x => insert_by key x acc) l acc).
Proof.
  revert acc. induction l as [|x l IH]; intros acc H; simpl; [assumption|].
  apply IH, insert_by_sorted, H.
Qed.

Lemma sort_by_sorted l : Sorted le_key (sort_by key l).
Proof. apply sort_by_acc_sorted. constructor. Qed.

Lemma sort_by_strongly_sorted l : StronglySorted le_key (sort_by key l).
Proof.
  apply Sorted_StronglySorted; [|apply sort_by_sorted].
  intros a b c. unfold le_key. lia.
Qed.
End SortBy.

(** ** The batch loop *)

Lemma backfill_spec orgs processed results :
  backfill orgs processed results
  = results ++ map missing_result (filter (fun org => org ∉ processed) orgs).
Proof.
  revert results. induction orgs as [|o orgs IH]; intros results; simpl.
  - now rewrite app_nil_r.
  - rewrite filter_cons.
    destruct (decide (o ∈ processed)) as [Hin|Hin].
    + rewrite IH. destruct (decide (o ∉ processed)); [contradiction|reflexivity].
    + rewrite IH. destruct (decide (o ∉ processed)); [|contradiction].
      simpl. now rewrite <- app_assoc.
Qed.

Lemma record_result_calls st r log :
  outcome_calls (record_result st r log) = log.
Proof.
  unfold record_result.
  destruct (add_org (organization r) (processed_orgs st)); reflexivity.
Qed.

Lemma process_handler_calls org_names idx e st :
  outcome_calls (process_handler org_names idx e st) = calls st.
Proof.
  unfold process_handler.
  destruct (hint_at org_names idx (JStr "")); [reflexivity|].
  apply record_result_calls.
Qed.

(** A result is appended whether adding its organization raises or not. *)
Lemma record_result_results st r log :
  match record_result st r log with
  | inl (_, st') | inr st' => analyzed_results st' = analyzed_results st ++ [r]
  end.
Proof.
  unfold record_result.
  destruct (add_org (organization r) (processed_orgs st)); reflexivity.
Qed.

Lemma analyze_forms_returns E files organizations report log :
  analyze_forms E files organizations = (inr report, log) ->
  mistral_client E = true /\ files <> []
  /\ exists st,
       batch_after E (parse_org_names E organizations) files = inr st
       /\ report
          = sort_by org_sort_key
              (analyzed_results st
               ++ map missing_result (missing_orgs (processed_orgs st)))
       /\ log = calls st.
Proof.
  unfold analyze_forms, batch_after.
  destruct (mistral_client E); simpl negb; cbv iota; [|discriminate].
  destruct files as [|f files]; [discriminate|]. cbv zeta.
  destruct (process_files E (parse_org_names E organizations) 0 (f :: files)
              empty_batch) as [[e st]|st]; [discriminate|].
  rewrite backfill_spec. intros [= <- <-].
  split; [reflexivity|]. split; [discriminate|]. eauto.
Qed.

(** ** Page markers and the threshold *)

Lemma lstrip_app_solid sp u c v :
  sp c = false ->
  PyStr.lstrip_by sp (u +:+ String c v) = PyStr.lstrip_by sp u +:+ String c v.
Proof.
  intros Hc. induction u as [|a u IH]; simpl.
  - now rewrite Hc.
  - destruct (sp a); [assumption|reflexivity].
Qed.

(** Stripping on the right stops at a character that is not blank. *)
Lemma rstrip_app_solid u c v :
  PyStr.is_space c = false ->
  PyStr.rstrip ((u +:+ String c "") +:+ v) = (u +:+ String c "") +:+ PyStr.rstrip v.
Proof.
  intros Hc. unfold PyStr.rstrip, PyStr.rstrip_by.
  rewrite rev_app, (rev_app u).
  change (PyStr.rev (String c "") +:+ PyStr.rev u) with (String c (PyStr.rev u)).
  rewrite lstrip_app_solid by assumption.
  now rewrite rev_app, rev_cons, rev_involutive.
Qed.

Lemma pdf_text_first_marker p rest :
  exists tail, pdf_text_of (p :: rest) = nl +:+ first_marker +:+ tail.
Proof.
  unfold pdf_text_of. simpl page_blocks.
  destruct (page_blocks 1 rest) as [|b bs] eqn:E.
  - exists (nl +:+ p). reflexivity.
  - exists (nl +:+ p +:+ nl +:+ PyStr.join nl (b :: bs)).
    change (PyStr.join nl (page_block 0 p :: b :: bs))
      with (page_block 0 p +:+ nl +:+ PyStr.join nl (b :: bs)).
    unfold page_block, first_marker.
    change (PyStr.str_of_nat (0 + 1)) with "1".
    rewrite !append_assoc. reflexivity.
Qed.

(** The markers of the first page alone pass the threshold: only a PDF
    without pages is short. *)
Lemma page_markers_exceed_threshold pages :
  pages <> [] -> 100 <= PyStr.len (PyStr.strip (pdf_text_of pages)).
Proof.
  destruct pages as [|p rest]; [congruence|]. intros _.
  destruct (pdf_text_first_marker p rest) as [tail ->].
  unfold PyStr.strip, PyStr.strip_by. fold (PyStr.rstrip).
  assert (Hl : PyStr.lstrip_by PyStr.is_space (nl +:+ first_marker +:+ tail)
               = first_marker +:+ tail)
    by reflexivity.
  rewrite Hl. fold (PyStr.rstrip (first_marker +:+ tail)).
  assert (Hm : first_marker
               = (PyStr.take 127 first_marker +:+ String "=" "")) by reflexivity.
  rewrite Hm, rstrip_app_solid by reflexivity.
  rewrite <- Hm, len_app.
  change (PyStr.len first_marker) with 128. lia.
Qed.

(** C3.  A document whose only page holds 40 blanks is not short-circuited.
    Its text is empty once stripped, far below the threshold of 100
    characters, yet the threshold is applied to the text with its page
    markers, which alone are 128 characters long: the loop hands the text
    to the orchestrator, the batch run makes a completion call for the
    document, and no entry of the report set is the placeholder of an
    empty document. *)
Theorem blank_page_sent_to_model :
  PyStr.strip forty_blanks = ""
  /\ process_try sample_env (JArr []) 0 whitespace_pdf []
     = analyze_with_ultra_strict_ai sample_env (pdf_text_of [forty_blanks]) "" []
  /\ (analyze_forms sample_env [whitespace_pdf] None).2
     = [prompt_for sample_env (pdf_text_of [forty_blanks]) ""]
  /\ exists report,
       (analyze_forms sample_env [whitespace_pdf] None).1 = inr report
       /\ Forall (fun entry =>
                    date_source (extraction_quality entry) <> "empty PDF")
            report.
Proof.
  split; [reflexivity|]. split; [reflexivity|]. split; [vm_compute; reflexivity|].
  destruct (analyze_forms sample_env [whitespace_pdf] None) as [[e|report] log] eqn:E;
    [vm_compute in E; discriminate E|].
  exists report. split; [reflexivity|].
  vm_compute in E. injection E as <- _.
  repeat (constructor; [discriminate|]). constructor.
Qed.

(** C10.  A failing document is not isolated when a hint is not a string.
    With the hints ["NTPC", ["x"]] and a completion service that is down,
    the first document fails on its completion call and becomes an error
    placeholder; the second fails on its hint, and the handler, which
    adds the same hint to the set of processed organizations, raises
    [TypeError] itself: the exception leaves the endpoint after the one
    completion call and the batch yields no report set. *)
Theorem ill_typed_hint_aborts_batch :
  parse_org_names down_env (Some nested_hints)
  = JArr [JStr "NTPC"; JArr [JStr "x"]]
  /\ (exists st,
        process_file down_env (JArr [JStr "NTPC"; JArr [JStr "x"]]) 0
          ntpc_pdf empty_batch = inr st
        /\ analyzed_results st
           = [failed_result (JStr "NTPC")
                (HTTPException 500 "Analysis failed: Service unavailable")])
  /\ analyze_forms down_env [ntpc_pdf; ntpc_pdf] (Some nested_hints)
     = (inl TypeError, [prompt_for down_env (pdf_text_of [sample_text]) "NTPC"]).
Proof.
  split; [reflexivity|]. split.
  - eexists. split; vm_compute; reflexivity.
  - vm_compute. reflexivity.
Qed.

(** C1.  The report set of a batch of one PDF without pages and without
    hints has six entries, not five: the document resolves to no required
    organization and becomes the placeholder "Organization_1", the
    backfill adds the five required organizations, and the sort puts the
    placeholder after them. *)
Theorem pageless_scan_gives_six_entries :
  exists report,
    analyze_forms sample_env [blank_scan] None = (inr report, [])
    /\ length report = 6
    /\ map organization report
       = map JStr (required_orgs ++ ["Organization_1"]).
Proof.
  destruct (analyze_forms sample_env [blank_scan] None) as [[e|report] log] eqn:E;
    [vm_compute in E; discriminate E|].
  vm_compute in E. injection E as <- <-.
  eexists. split; [reflexivity|]. split; reflexivity.
Qed.

(** * Further properties of the code *)

(** A bounded repetition starting from zero consumed between [lo] and [h]
    characters of its class. *)
Lemma rep_inv_bounded p lo h g k s pos cnt res :
  Re.rep p lo (Some h) g k s pos cnt = Some res ->
  exists j,
    j <= PyStr.len s
    /\ lo <= cnt + j
    /\ (cnt + j <= h \/ j = 0)
    /\ str_forall p (PyStr.take j s) = true
    /\ k (PyStr.drop j s) (pos + j) = Some res.
Proof.
  revert pos cnt res. induction s as [|c s IH]; intros pos cnt res.
  - simpl. destruct g.
    + destruct (lo <=? cnt) eqn:Hlo; [|discriminate]. intros H. exists 0.
      apply Nat.leb_le in Hlo. rewrite !Nat.add_0_r. repeat split; auto; simpl; lia.
    + destruct (lo <=? cnt) eqn:Hlo; [|discriminate].
      destruct (k "" pos) eqn:Hk; [|discriminate]. intros [= <-].
      apply Nat.leb_le in Hlo.
      exists 0. rewrite !Nat.add_0_r. repeat split; auto; simpl; lia.
  - simpl.
    assert (Hmore : forall r,
              (if p c && (cnt <? h)
               then Re.rep p lo (Some h) g k s (S pos) (S cnt) else None) = Some r ->
              exists j, j <= PyStr.len (String c s)
                /\ lo <= cnt + j
                /\ (cnt + j <= h \/ j = 0)
                /\ str_forall p (PyStr.take j (String c s)) = true
                /\ k (PyStr.drop j (String c s)) (pos + j) = Some r).
    { intros r. destruct (p c) eqn:Hp; simpl; [|discriminate].
      destruct (cnt <? h) eqn:Hb; [|discriminate]. intros H.
      apply Nat.ltb_lt in Hb.
      destruct (IH _ _ _ H) as (j & Hj & Hlo & Hhi & Hall & Hk).
      exists (S j). simpl. rewrite Hp, Hall.
      replace (pos + S j) with (S pos + j) by lia.
      repeat split; auto; [unfold PyStr.len in *; simpl; lia | lia | lia]. }
    assert (Hstop : forall r,
              (if lo <=? cnt then k (String c s) pos else None) = Some r ->
              exists j, j <= PyStr.len (String c s)
                /\ lo <= cnt + j
                /\ (cnt + j <= h \/ j = 0)
                /\ str_forall p (PyStr.take j (String c s)) = true
                /\ k (PyStr.drop j (String c s)) (pos + j) = Some r).
    { intros r H. destruct (lo <=? cnt) eqn:Hlo; [|discriminate].
      apply Nat.leb_le in Hlo.
      exists 0. rewrite !Nat.add_0_r. simpl. repeat split; auto; lia. }
    destruct g.
    + destruct (if p c && (cnt <? h) then _ else None) eqn:E.
      * intros [= <-]. now apply Hmore.
      * apply Hstop.
    + destruct (if lo <=? cnt then _ else None) eqn:E.
      * intros [= <-]. now apply Hstop.
      * apply Hmore.
Qed.

Lemma all_digits_str_forall s : all_digits s = str_forall Re.digit s.
Proof. induction s as [|c s IH]; simpl; [reflexivity|]. now rewrite IH. Qed.

Lemma len_take j s : j <= PyStr.len s -> PyStr.len (PyStr.take j s) = j.
Proof.
  revert s. induction j as [|j IH]; intros s H; [now destruct s|].
  destruct s as [|c s]; simpl in *; [unfold PyStr.len in H; simpl in H; lia|].
  unfold PyStr.len in *. simpl in *. rewrite IH; lia.
Qed.

Lemma take_drop_cons a b s c t :
  PyStr.drop a s = String c t ->
  PyStr.take (a + S b) s = PyStr.take a s +:+ String c (PyStr.take b t)
  /\ PyStr.drop (a + S b) s = PyStr.drop b t.
Proof.
  intros H. rewrite take_add, <- drop_drop, H. split; reflexivity.
Qed.

(** A run of digits of the repetition that opens or closes a date shape. *)
Lemma digits_run lo h k s pos res :
  Re.rep Re.digit lo (Some h) true k s pos 0 = Some res ->
  1 <= lo ->
  exists j,
    all_digits (PyStr.take j s) = true
    /\ lo <= PyStr.len (PyStr.take j s) <= h
    /\ j <= PyStr.len s
    /\ k (PyStr.drop j s) (pos + j) = Some res.
Proof.
  intros H Hlo.
  apply rep_inv_bounded in H as (j & Hj & Hlo' & Hhi & Hall & Hk).
  exists j. rewrite all_digits_str_forall, (len_take j s Hj).
  repeat split; auto; lia.
Qed.

(** Matching a date shape consumes a date-shaped token and goes on with
    the rest of the pattern. *)
Lemma date_shape_inv lo hi rest s pos gs ge res :
  1 <= lo ->
  Re.match_here (date_shape lo hi ++ rest) s pos gs ge = Some res ->
  exists j,
    j <= PyStr.len s
    /\ date_token lo hi (PyStr.take j s)
    /\ Re.match_here rest (PyStr.drop j s) (pos + j) gs ge = Some res.
Proof.
  intros Hlo H.
  change (date_shape lo hi ++ rest)
    with (Re.Rep Re.digit 1 (Some 2) true
          :: Re.Chr Re.date_sep
          :: Re.Rep Re.digit 1 (Some 2) true
          :: Re.Chr Re.date_sep
          :: Re.Rep Re.digit lo (Some hi) true :: rest) in H.
  rewrite match_here_rep in H.
  apply digits_run in H as (j1 & Hd1 & Hl1 & Hj1 & H); [|lia].
  apply match_here_chr in H as (c1 & t1 & Hs1 & Hc1 & H).
  rewrite match_here_rep in H.
  apply digits_run in H as (j2 & Hd2 & Hl2 & Hj2 & H); [|lia].
  apply match_here_chr in H as (c2 & t2 & Hs2 & Hc2 & H).
  rewrite match_here_rep in H.
  apply digits_run in H as (j3 & Hd3 & Hl3 & Hj3 & H); [|lia].
  destruct (take_drop_cons j2 j3 t1 c2 t2 Hs2) as [Ht2 Hr2].
  destruct (take_drop_cons j1 (j2 + S j3) s c1 t1 Hs1) as [Ht1 Hr1].
  exists (j1 + S (j2 + S j3)).
  split.
  { pose proof (len_drop j1 s) as L1. rewrite Hs1 in L1.
    pose proof (len_drop j2 t1) as L2. rewrite Hs2 in L2.
    unfold PyStr.len in *. simpl in L1, L2. lia. }
  split.
  - exists (PyStr.take j1 s), c1, (PyStr.take j2 t1), c2, (PyStr.take j3 t2).
    unfold date_input. rewrite Ht1, Ht2. repeat split; auto; lia.
  - rewrite Hr1, Hr2.
    replace (pos + (j1 + S (j2 + S j3))) with (S (S (pos + j1) + j2) + j3) by lia.
    exact H.
Qed.

Lemma plain_any_app A B :
  plain any_char A -> plain any_char B -> plain any_char (A ++ B).
Proof.
  induction A as [|it A IH]; simpl; [auto|].
  destruct it; try contradiction; intros [Hp HA] HB; split; auto.
Qed.

Lemma plain_any_word w : plain any_char (Re.word w).
Proof. induction w as [|c w IH]; simpl; [exact I|]. split; [reflexivity|exact IH]. Qed.

Lemma plain_any_lazy : plain any_char lazy_any.
Proof. simpl. split; [reflexivity|exact I]. Qed.

Lemma plain_any_spaces : plain any_char spaces.
Proof. simpl. split; [reflexivity|exact I]. Qed.

(** Plain items leave the group span as it was. *)
Lemma match_here_plain_end A s pos gs ge e g :
  plain any_char A ->
  Re.match_here A s pos gs ge = Some (e, g) ->
  g = match gs, ge with
      | Some a, Some b => Some (a, b)
      | _, _ => None
      end.
Proof.
  intros HA H. rewrite <- (app_nil_r A) in H.
  apply (match_here_plain any_char) in H as (j & _ & _ & H); [|exact HA].
  simpl in H. congruence.
Qed.

(** In a pattern with a date shape as its group, between plain items, a
    match captures a date-shaped token. *)
Lemma grouped_date_inv A lo hi B s e g0 g1 :
  plain any_char A -> plain any_char B -> 1 <= lo ->
  Re.match_at (A ++ group (date_shape lo hi) ++ B) s = Some (e, g0, g1) ->
  exists t, g1 = Some t /\ date_token lo hi t.
Proof.
  intros HA HB Hlo. unfold Re.match_at.
  destruct (Re.match_here _ s 0 None None) as [[e' g]|] eqn:H; [|discriminate].
  intros [= <- <- <-].
  apply (match_here_plain any_char) in H as (j0 & _ & _ & H); [|exact HA].
  change (group (date_shape lo hi) ++ B)
    with (Re.GroupOpen :: (date_shape lo hi ++ [Re.GroupClose]) ++ B) in H.
  rewrite <- app_assoc in H.
  change (Re.match_here (date_shape lo hi ++ [Re.GroupClose] ++ B)
            (PyStr.drop j0 s) (0 + j0) (Some (0 + j0)) None = Some (e', g)) in H.
  apply date_shape_inv in H as (jd & _ & Htok & H); [|exact Hlo].
  change (Re.match_here B (PyStr.drop jd (PyStr.drop j0 s)) (0 + j0 + jd)
            (Some (0 + j0)) (Some (0 + j0 + jd)) = Some (e', g)) in H.
  apply match_here_plain_end in H; [|exact HB]. subst g.
  exists (PyStr.take jd (PyStr.drop j0 s)). split; [|exact Htok].
  simpl. replace (j0 + jd - j0) with jd by lia. reflexivity.
Qed.

(** A match of a bare date shape is a date-shaped token. *)
Lemma bare_date_inv lo hi s e g0 g1 :
  1 <= lo ->
  Re.match_at (date_shape lo hi) s = Some (e, g0, g1) ->
  g1 = None /\ date_token lo hi g0.
Proof.
  intros Hlo. unfold Re.match_at.
  destruct (Re.match_here _ s 0 None None) as [[e' g]|] eqn:H; [|discriminate].
  intros [= <- <- <-].
  rewrite <- (app_nil_r (date_shape lo hi)) in H.
  apply date_shape_inv in H as (jd & _ & Htok & H); [|exact Hlo].
  simpl in H. injection H as <- <-. split; [reflexivity|exact Htok].
Qed.

(** What holds of every match holds of everything [findall] reports. *)
Lemma findall_aux_Forall (Q : string -> Prop) r :
  (forall s e g0 g1, Re.match_at r s = Some (e, g0, g1) -> Q (Re.reported g0 g1)) ->
  forall s skip, Forall Q (Re.findall_aux r skip s).
Proof.
  intros HQ. induction s as [|c s IH]; intros skip.
  - destruct skip; simpl; [|constructor].
    destruct (Re.match_at r "") as [[[e g0] g1]|] eqn:H; constructor; eauto.
  - destruct skip as [|k]; simpl; [|apply IH].
    destruct (Re.match_at r (String c s)) as [[[e g0] g1]|] eqn:H; [|apply IH].
    constructor; [eauto|apply IH].
Qed.

Lemma search_inv r s g0 g1 :
  Re.search r s = Some (g0, g1) ->
  exists s' e, Re.match_at r s' = Some (e, g0, g1).
Proof.
  induction s as [|c s IH]; simpl.
  - destruct (Re.match_at r "") as [[[e a] b]|] eqn:H; [|discriminate].
    intros [= <- <-]. eauto.
  - destruct (Re.match_at r (String c s)) as [[[e a] b]|] eqn:H; [|exact IH].
    intros [= <- <-]. eauto.
Qed.

Lemma date_token_mono lo lo' hi t :
  lo' <= lo -> date_token lo hi t -> date_token lo' hi t.
Proof.
  intros Hle (d & s1 & m & s2 & y & -> & Hd & Ld & Hm & Lm & Hy & Ly & H1 & H2).
  exists d, s1, m, s2, y. repeat split; auto; lia.
Qed.

(** A year of three digits is below the validity window. *)
Lemma normalize_date_short_year d s1 m s2 y :
  all_digits d = true -> 1 <= PyStr.len d <= 2 ->
  all_digits m = true -> 1 <= PyStr.len m <= 2 ->
  all_digits y = true -> PyStr.len y = 3 ->
  Re.date_sep s1 = true -> Re.date_sep s2 = true ->
  normalize_date (date_input d s1 m s2 y) = "".
Proof.
  intros Hd Ld Hm Lm Hy Ly H1 H2.
  unfold normalize_date, normalize_date_try.
  rewrite replace_date_input, split_date_input by assumption.
  destruct (zfill2_digits d Hd Ld) as (_ & Dd & Nd & Vd).
  destruct (zfill2_digits m Hm Lm) as (_ & Dm & Nm & Vm).
  cbv beta iota zeta. rewrite Ly. simpl Nat.eqb. cbv iota.
  unfold int_or_raise.
  rewrite (int_digits_string _ Dd Nd), Vd.
  cbv beta iota delta [bind ret].
  destruct (in_range 1 31 (num d)); [|reflexivity].
  rewrite (int_digits_string _ Dm Nm), Vm.
  destruct (in_range 1 12 (num m)); [|reflexivity].
  rewrite (int_digits_string y Hy) by (destruct y; discriminate).
  assert (Hsmall : in_range 2024 2026 (num y) = false).
  { destruct y as [|c1 [|c2 [|c3 [|c4 r]]]]; try discriminate Ly.
    simpl in Hy. rewrite andb_true_r in Hy.
    apply andb_prop in Hy as [Hc1 Hy]. apply andb_prop in Hy as [Hc2 Hc3].
    destruct (zdigit_digit_val c1 Hc1) as [_ B1].
    destruct (zdigit_digit_val c2 Hc2) as [_ B2].
    destruct (zdigit_digit_val c3 Hc3) as [_ B3].
    unfold num, in_range. simpl num_acc.
    apply andb_false_iff. left. apply Z.leb_gt. lia. }
  now rewrite Hsmall.
Qed.

(** On a date-shaped token the normalizer gives nothing or a canonical
    date of the window. *)
Lemma normalize_date_token t :
  date_token 2 4 t ->
  normalize_date t = "" \/ valid_date (normalize_date t).
Proof.
  intros (d & s1 & m & s2 & y & -> & Hd & Ld & Hm & Lm & Hy & Ly & H1 & H2).
  assert (Hlen : PyStr.len y = 3 \/ (PyStr.len y = 2 \/ PyStr.len y = 4)) by lia.
  destruct Hlen as [L3|L24].
  - left. now apply normalize_date_short_year.
  - unfold normalize_date.
    rewrite (normalize_date_well_formed d s1 m s2 y) by assumption.
    unfold ret.
    destruct (date_in_window (num d) (num m) (expanded_year y)) eqn:W.
    + right. exists (num d), (num m), (expanded_year y). auto.
    + now left.
Qed.

Ltac plain_items :=
  repeat first [ apply plain_any_app | apply plain_any_word
               | apply plain_any_lazy | apply plain_any_spaces | exact I ].

(** Every pattern of the cascade captures date-shaped tokens. *)
Lemma keyword_patterns_capture ps s e g0 g1 :
  In ps date_patterns ->
  Re.match_at ps.1 s = Some (e, g0, g1) ->
  date_token 2 4 (Re.reported g0 g1).
Proof.
  intros Hin H.
  assert (Htok : exists t, g1 = Some t /\ date_token 2 4 t).
  { unfold date_patterns in Hin. simpl in Hin.
    destruct Hin as [<-|[<-|[<-|[<-|[<-|[<-|[<-|[<-|[<-|[]]]]]]]]]]; simpl fst in H.
    - apply (grouped_date_inv (Re.word "last" ++ spaces ++ Re.word "date" ++ lazy_any) 2 4 []) in H;
        [exact H | plain_items | exact I | lia].
    - apply (grouped_date_inv (Re.word "closing" ++ spaces ++ Re.word "date" ++ lazy_any) 2 4 []) in H;
        [exact H | plain_items | exact I | lia].
    - apply (grouped_date_inv (Re.word "submit" ++ lazy_any ++ Re.word "by" ++ lazy_any) 2 4 []) in H;
        [exact H | plain_items | exact I | lia].
    - apply (grouped_date_inv (Re.word "application" ++ lazy_any ++ Re.word "till" ++ lazy_any) 2 4 []) in H;
        [exact H | plain_items | exact I | lia].
    - apply (grouped_date_inv (Re.word "deadline" ++ lazy_any) 2 4 []) in H;
        [exact H | plain_items | exact I | lia].
    - apply (grouped_date_inv (Re.word "before" ++ lazy_any) 2 4 []) in H;
        [exact H | plain_items | exact I | lia].
    - apply (grouped_date_inv (Re.word "within" ++ lazy_any) 2 4 []) in H;
        [exact H | plain_items | exact I | lia].
    - apply (grouped_date_inv [] 4 4 (lazy_any ++ Re.word "last")) in H;
        [|exact I | plain_items | lia].
      destruct H as (t & -> & Ht). exists t. split; [reflexivity|].
      apply (date_token_mono 4 2); [lia|exact Ht].
    - apply (grouped_date_inv (Re.word "online" ++ spaces ++ Re.word "application" ++ lazy_any) 2 4 []) in H;
        [exact H | plain_items | exact I | lia]. }
  destruct Htok as (t & -> & Ht). exact Ht.
Qed.

Lemma last_some_in {A} (l : list A) x :
  List.last (map Some l) None = Some x -> In x l.
Proof.
  induction l as [|a l IH]; [discriminate|].
  destruct l as [|b l]; simpl in *.
  - intros [= ->]. now left.
  - intros H. right. apply IH. exact H.
Qed.

Lemma keyword_hit_valid ps text :
  In ps date_patterns ->
  keyword_hit ps.1 text = "" \/ valid_date (keyword_hit ps.1 text).
Proof.
  intros Hin. unfold keyword_hit, last_match.
  destruct (List.last _ None) as [date_str|] eqn:Hl; [|now left].
  apply last_some_in in Hl.
  apply normalize_date_token.
  pose proof (findall_aux_Forall (date_token 2 4) ps.1
                (fun s e g0 g1 => keyword_patterns_capture ps s e g0 g1 Hin)
                text 0) as HF.
  rewrite Forall_forall in HF. apply HF. apply list_elem_of_In. exact Hl.
Qed.

Lemma keyword_cascade_valid pats text d source :
  (forall ps, In ps pats -> In ps date_patterns) ->
  keyword_cascade pats text = Some (d, source) ->
  valid_date d /\ In source (map snd pats).
Proof.
  induction pats as [|[p src] pats IH]; intros Hsub; [discriminate|].
  rewrite keyword_cascade_step.
  destruct (nonempty (keyword_hit p text)) eqn:Hne.
  - intros [= <- <-]. split; [|now left].
    destruct (keyword_hit_valid (p, src) text) as [He|Hv];
      [apply Hsub; now left | | exact Hv].
    simpl in He. apply nonempty_true in Hne. contradiction.
  - intros H. destruct IH as [Hv Hin]; auto.
    + intros ps Hps. apply Hsub. now right.
    + split; [exact Hv|now right].
Qed.

Lemma section_scan_cons line rest :
  section_scan (line :: rest)
  = if existsb (fun keyword => PyStr.contains keyword (PyStr.lower line))
               section_keywords
    then
      match Re.search (group (date_shape 2 4)) line with
      | Some (_, Some g1) =>
          if nonempty (normalize_date g1) then Some (normalize_date g1)
          else section_scan rest
      | _ => section_scan rest
      end
    else section_scan rest.
Proof. reflexivity. Qed.

Lemma section_scan_valid lines d :
  section_scan lines = Some d -> valid_date d.
Proof.
  induction lines as [|line lines IH]; [discriminate|].
  rewrite section_scan_cons.
  destruct (existsb _ section_keywords); [|exact IH].
  destruct (Re.search (group (date_shape 2 4)) line) as [[g0 [g1|]]|] eqn:Hs;
    [|exact IH|exact IH].
  destruct (nonempty (normalize_date g1)) eqn:Hne; [|exact IH].
  intros [= <-].
  apply search_inv in Hs as (s' & e & Hm).
  apply (grouped_date_inv [] 2 4 []) in Hm as (t & [= <-] & Ht);
    [|exact I|exact I|lia].
  destruct (normalize_date_token g1 Ht) as [He|Hv]; [|exact Hv].
  apply nonempty_true in Hne. contradiction.
Qed.

Lemma heuristic_scan_valid E tokens d :
  Forall (date_token 4 4) tokens ->
  heuristic_scan E tokens = Some d -> valid_date d.
Proof.
  induction 1 as [|t tokens Ht _ IH]; [discriminate|]. simpl.
  destruct (nonempty (normalize_date t)) eqn:Hne; simpl; [|exact IH].
  destruct (is_reasonable_future_date E (normalize_date t)); [|exact IH].
  intros [= <-].
  assert (Ht' : date_token 2 4 t) by (apply (date_token_mono 4 2); [lia|exact Ht]).
  destruct (normalize_date_token t Ht') as [He|Hv]; [|exact Hv].
  apply nonempty_true in Hne. contradiction.
Qed.

Lemma known_date_cases org d :
  KNOWN_LAST_DATES !! org = Some d ->
  In (org, d)
     [ ("NTPC", "01-05-2025"); ("TANUVAS", "15-02-2025"); ("CSIR", "15-02-2025");
       ("NHM", "31-01-2025"); ("AAU", "31-01-2025") ].
Proof.
  intros H. apply list_elem_of_In.
  apply (elem_of_list_to_map_2 (M := gmap string)). exact H.
Qed.

Lemma known_date_valid org d :
  KNOWN_LAST_DATES !! org = Some d -> valid_date d.
Proof.
  intros H. apply known_date_cases in H. simpl in H.
  destruct H as [[= <- <-]|[[= <- <-]|[[= <- <-]|[[= <- <-]|[[= <- <-]|[]]]]]].
  - exists 1%Z, 5%Z, 2025%Z. split; reflexivity.
  - exists 15%Z, 2%Z, 2025%Z. split; reflexivity.
  - exists 15%Z, 2%Z, 2025%Z. split; reflexivity.
  - exists 31%Z, 1%Z, 2025%Z. split; reflexivity.
  - exists 31%Z, 1%Z, 2025%Z. split; reflexivity.
Qed.

(** X1.  Whatever the text and the organization, the extractor returns
    either the empty string with the label "not found" or a canonical
    DD-MM-YYYY date whose day is in 1..31, month in 1..12 and year in
    2024..2026 (ten characters), with the label of the strategy that
    found it. *)
Theorem extract_last_date_valid E text org_name :
  let r := extract_last_date_comprehensive E text org_name in
  r = ("", "not found")
  \/ (valid_date r.1 /\ PyStr.len r.1 = 10 /\ In r.2 found_labels).
Proof.
  cbv zeta. unfold extract_last_date_comprehensive.
  assert (Hlen : forall d, valid_date d -> PyStr.len d = 10).
  { intros d (D & M & Y & _ & ->). reflexivity. }
  destruct (keyword_cascade date_patterns text) as [[d src]|] eqn:Hk.
  { right. apply keyword_cascade_valid in Hk as [Hv Hin]; [|auto].
    cbn [fst snd]. repeat split; auto. unfold found_labels, keyword_labels.
    apply in_or_app. now left. }
  destruct (section_scan (PyStr.split "010" text)) as [d|] eqn:Hs.
  { right. apply section_scan_valid in Hs. cbn [fst snd]. repeat split; auto.
    unfold found_labels. apply in_or_app. right. simpl. tauto. }
  destruct (KNOWN_LAST_DATES !! org_name) as [d|] eqn:Hn.
  { right. apply known_date_valid in Hn. cbn [fst snd]. repeat split; auto.
    unfold found_labels. apply in_or_app. right. simpl. tauto. }
  destruct (heuristic_scan E (Re.findall (date_shape 4 4) text)) as [d|] eqn:Hh.
  { right. apply heuristic_scan_valid in Hh.
    - cbn [fst snd]. repeat split; auto.
      unfold found_labels. apply in_or_app. right. simpl. tauto.
    - apply (findall_aux_Forall (date_token 4 4)).
      intros s e g0 g1 Hm. apply bare_date_inv in Hm as [-> Ht]; [exact Ht|lia]. }
  now left.
Qed.

Lemma date_lt_spec a b c x y z :
  date_lt (a, b, c) (x, y, z) = true <->
  (a < x \/ (a = x /\ (b < y \/ (b = y /\ c < z))))%Z.
Proof.
  unfold date_lt.
  rewrite !orb_true_iff, !andb_true_iff, !orb_true_iff, !andb_true_iff,
    !Z.ltb_lt, !Z.eqb_eq. tauto.
Qed.

Lemma reasonable_date_inv E s :
  is_reasonable_future_date E s = true ->
  exists d m y,
    map_int (PyStr.split "-" s) = inr [d; m; y]
    /\ datetime y m d = inr (y, m, d)
    /\ date_lt (now E) (y, m, d) = true
    /\ date_lt (y, m, d) (2025, 12, 31)%Z = true.
Proof.
  unfold is_reasonable_future_date, is_reasonable_future_date_try.
  destruct (map_int (PyStr.split "-" s)) as [e|ints]; [discriminate|].
  cbv beta iota delta [bind ret raise].
  destruct ints as [|d [|m [|y [|x r]]]]; try discriminate.
  destruct (datetime y m d) as [e|dt] eqn:Hdt; [discriminate|].
  assert (dt = (y, m, d)) as ->.
  { unfold datetime in Hdt. destruct (_ && _); [|discriminate].
    now injection Hdt. }
  intros H. apply andb_prop in H as [H1 H2].
  exists d, m, y. auto.
Qed.

Lemma keyword_label_cases src :
  In src keyword_labels -> src <> "heuristic scan" /\ src <> "not found".
Proof.
  unfold keyword_labels, date_patterns. simpl.
  intros H. repeat (destruct H as [<-|H]; [split; discriminate|]). contradiction.
Qed.

(** X2.  From 30 December 2025 on, the future-date heuristic accepts no
    string at all, so the extractor never reports a date under the label
    "heuristic scan": the horizon of the heuristic is the fixed date
    31 December 2025. *)
Theorem heuristic_expires E :
  date_lt (now E) (2025, 12, 30)%Z = false ->
  (forall s, is_reasonable_future_date E s = false)
  /\ (forall text org_name,
        (extract_last_date_comprehensive E text org_name).2 <> "heuristic scan").
Proof.
  intros Hnow.
  assert (Hnone : forall s, is_reasonable_future_date E s = false).
  { intros s. destruct (is_reasonable_future_date E s) eqn:H; [|reflexivity].
    apply reasonable_date_inv in H as (d & m & y & _ & _ & H1 & H2).
    destruct (now E) as [[a b] c].
    apply date_lt_spec in H1, H2.
    assert (Hc : date_lt (a, b, c) (2025, 12, 30)%Z = true)
      by (apply date_lt_spec; lia).
    congruence. }
  split; [exact Hnone|].
  intros text org_name. unfold extract_last_date_comprehensive.
  destruct (keyword_cascade date_patterns text) as [[d src]|] eqn:Hk.
  { apply keyword_cascade_valid in Hk as [_ Hin]; [|auto].
    apply keyword_label_cases in Hin. cbn [snd]. tauto. }
  destruct (section_scan _); [discriminate|].
  destruct (KNOWN_LAST_DATES !! org_name); [discriminate|].
  assert (Hh : forall l, heuristic_scan E l = None).
  { induction l as [|t l IH]; [reflexivity|]. simpl.
    now rewrite Hnone, andb_false_r. }
  rewrite Hh. discriminate.
Qed.

Lemma heuristic_expires_witness :
  is_reasonable_future_date late_env "15-03-2026" = false
  /\ (extract_last_date_comprehensive late_env
        "Interviews are planned for 15-03-2026 at the head office." "Railways").2
     <> "heuristic scan".
Proof.
  destruct (heuristic_expires late_env eq_refl) as [Hnone Hlabel].
  split; [apply Hnone|apply Hlabel].
Defined.

Lemma known_org_found E text org_name :
  is_Some (KNOWN_LAST_DATES !! org_name) ->
  (extract_last_date_comprehensive E text org_name).1 <> "".
Proof.
  intros [known Hknown].
  assert (Hne : forall d, valid_date d -> d <> "").
  { intros d (D & M & Y & _ & ->). discriminate. }
  unfold extract_last_date_comprehensive.
  destruct (keyword_cascade date_patterns text) as [[d src]|] eqn:Hk.
  { apply keyword_cascade_valid in Hk as [Hv _]; auto. }
  destruct (section_scan (PyStr.split "010" text)) as [d|] eqn:Hs.
  { apply section_scan_valid in Hs. auto. }
  rewrite Hknown. apply known_date_valid in Hknown. auto.
Qed.

(** X3.  For an organization with a known deadline the extractor always
    returns a date: the result is never empty, and its label is neither
    "not found" nor "heuristic scan", whatever the text and the clock. *)
Theorem known_org_has_deadline E text org_name :
  is_Some (KNOWN_LAST_DATES !! org_name) ->
  let r := extract_last_date_comprehensive E text org_name in
  r.1 <> "" /\ valid_date r.1
  /\ r.2 <> "not found" /\ r.2 <> "heuristic scan".
Proof.
  intros [known Hknown]. cbv zeta.
  assert (Hne : forall d, valid_date d -> d <> "").
  { intros d (D & M & Y & _ & ->). discriminate. }
  unfold extract_last_date_comprehensive.
  destruct (keyword_cascade date_patterns text) as [[d src]|] eqn:Hk.
  { apply keyword_cascade_valid in Hk as [Hv Hin]; [|auto].
    apply keyword_label_cases in Hin. cbn [fst snd]. repeat split; auto; tauto. }
  destruct (section_scan (PyStr.split "010" text)) as [d|] eqn:Hs.
  { apply section_scan_valid in Hs. cbn [fst snd].
    repeat split; auto; discriminate. }
  rewrite Hknown. apply known_date_valid in Hknown. cbn [fst snd].
  repeat split; auto; discriminate.
Qed.

Lemma known_org_has_deadline_witness :
  (extract_last_date_comprehensive late_env
     "No date is given in this notice." "CSIR").1 <> "".
Proof.
  apply (known_org_has_deadline late_env "No date is given in this notice." "CSIR").
  eexists. reflexivity.
Defined.

Lemma first_mapping_required hay org :
  first_mapping ORGANIZATION_MAPPINGS hay = Some org -> In org required_orgs.
Proof.
  intros H. apply first_mapping_Some in H as (pre & key & post & Htbl & _ & _).
  assert (Hin : In (key, org) ORGANIZATION_MAPPINGS)
    by (rewrite Htbl; apply in_or_app; right; now left).
  unfold ORGANIZATION_MAPPINGS in Hin. simpl in Hin.
  repeat (destruct Hin as [[= <- <-]|Hin]; [simpl; tauto|]). contradiction.
Qed.

(** X4.  The resolver has four possible outcomes: one of the five canonical
    identifiers; for a real hint, the hint stripped and uppercased; for a
    placeholder hint ("unknown", "organization" in any case), the hint as
    given; and "Unknown Organization" only when no hint was given at all.
    With a real hint the document text plays no part in the result. *)
Theorem resolver_outcomes text provided_name :
  let r := detect_organization_from_text text provided_name in
  (In r required_orgs
   \/ (is_real_name provided_name = true
       /\ r = PyStr.upper (PyStr.strip provided_name))
   \/ (is_real_name provided_name = false /\ provided_name <> ""
       /\ r = provided_name)
   \/ (provided_name = "" /\ r = "Unknown Organization"))
  /\ (is_real_name provided_name = true ->
      forall text', detect_organization_from_text text' provided_name = r).
Proof.
  cbv zeta. unfold detect_organization_from_text.
  fold (is_real_name provided_name).
  destruct (is_real_name provided_name) eqn:Hreal.
  - split; [|reflexivity].
    destruct (first_mapping ORGANIZATION_MAPPINGS _) as [org|] eqn:Hm.
    + left. eapply first_mapping_required, Hm.
    + right. left. auto.
  - split; [|discriminate].
    destruct (first_mapping ORGANIZATION_MAPPINGS
                (PyStr.lower (PyStr.take 500 text))) as [org|] eqn:Hh.
    { left. eapply first_mapping_required, Hh. }
    destruct (first_mapping ORGANIZATION_MAPPINGS (PyStr.lower text))
      as [org|] eqn:Hb.
    { left. eapply first_mapping_required, Hb. }
    destruct (nonempty provided_name) eqn:Hne.
    + right. right. left. apply nonempty_true in Hne. auto.
    + right. right. right. apply nonempty_false in Hne. auto.
Qed.

Lemma resolver_outcomes_witness :
  detect_organization_from_text "Recruitment at CSIR laboratories" "Railways"
  = detect_organization_from_text "" "Railways".
Proof.
  symmetry.
  apply (resolver_outcomes "Recruitment at CSIR laboratories" "Railways").
  reflexivity.
Defined.

(** The orchestrator with a client, a reply and a parsed payload. *)
Lemma analyze_with_reply E text org_name log content v :
  mistral_client E = true ->
  chat_complete E log (prompt_for E text org_name) = inr content ->
  json_loads E (clean_response content) = inr v ->
  let detected_org := detect_organization_from_text text org_name in
  let found := extract_last_date_comprehensive E text detected_org in
  analyze_with_ultra_strict_ai E text org_name log
  = (try_except
       (let* positions := postprocess_positions found.1 detected_org v in
        let total_pos := length positions in
        let* missing_dates := count_missing "last_date" positions in
        let* missing_salary := count_missing "salary" positions in
        let* last_date_cov := coverage E total_pos missing_dates in
        let* salary_cov := coverage E total_pos missing_salary in
        ret {| organization := JStr detected_org;
               positions := positions;
               total_positions := total_pos;
               extraction_quality :=
                 {| last_date_coverage := last_date_cov;
                    salary_coverage := salary_cov;
                    auto_last_date := found.1;
                    date_source := found.2 |} |})
       analyze_handler,
     log ++ [prompt_for E text org_name]).
Proof.
  intros Hc Hreply Hparse. cbv zeta.
  unfold analyze_with_ultra_strict_ai. rewrite Hc. simpl negb. cbv iota.
  unfold prompt_for in *.
  destruct (extract_last_date_comprehensive E text
              (detect_organization_from_text text org_name)) as [auto src].
  cbn [fst snd] in *. rewrite Hreply.
  unfold analyze_try. cbv beta iota delta [bind ret raise].
  rewrite Hparse. reflexivity.
Qed.

(** X5.  A reply whose payload parses to an empty array is not an empty
    result: the coverage percentages divide by the number of positions, so
    the orchestrator fails the document with "Analysis failed: division by
    zero", after its one completion call. *)
Theorem empty_array_fails E text org_name log content :
  mistral_client E = true ->
  chat_complete E log (prompt_for E text org_name) = inr content ->
  json_loads E (clean_response content) = inr (JArr []) ->
  analyze_with_ultra_strict_ai E text org_name log
  = (inl (HTTPException 500 "Analysis failed: division by zero"),
     log ++ [prompt_for E text org_name]).
Proof.
  intros Hc Hreply Hparse.
  rewrite (analyze_with_reply E text org_name log content (JArr []) Hc Hreply Hparse).
  reflexivity.
Qed.

Lemma empty_array_fails_witness :
  analyze_with_ultra_strict_ai empty_reply_env sample_text "" []
  = (inl (HTTPException 500 "Analysis failed: division by zero"),
     [prompt_for empty_reply_env sample_text ""]).
Proof.
  apply (empty_array_fails empty_reply_env sample_text "" [] "[]"); reflexivity.
Defined.

Lemma last_date_punted_cases (pos : gmap string json) v :
  pos !! "last_date" = Some v ->
  last_date_punted pos
  = match v with
    | JStr s => ret (says_punted s)
    | _ => if truthy v then raise AttributeError else ret true
    end.
Proof.
  intros H. destruct v as [|b|z|s|l|m];
    try (unfold last_date_punted, getitem; rewrite H;
         cbv beta iota delta [bind ret raise lower_of];
         match goal with |- context [truthy ?v] => destruct (truthy v) end;
         reflexivity).
  now apply last_date_punted_str.
Qed.

Lemma says_punted_empty s : says_punted s = false -> s <> "".
Proof. intros H ->. discriminate H. Qed.

(** With a pre-detected deadline, a record that passes the repair step
    holds a last date. *)
Lemma fill_last_date_has_date auto_date org (pos r : gmap string json) v :
  pos !! "last_date" = Some v ->
  auto_date <> "" ->
  fill_last_date auto_date org pos = inr r ->
  has_last_date auto_date r.
Proof.
  intros Hv Hauto. unfold fill_last_date.
  rewrite (last_date_punted_cases pos v Hv).
  apply nonempty_true in Hauto.
  assert (Hfilled : has_last_date auto_date (<["last_date" := JStr auto_date]> pos)).
  { exists auto_date. rewrite lookup_insert_eq. apply nonempty_true in Hauto. auto. }
  destruct v as [|b|z|s|l|m];
    try (match goal with |- context [truthy ?v] => destruct (truthy v) end;
         cbv beta iota delta [bind ret raise]; rewrite ?Hauto;
         first [discriminate | intros [= <-]; exact Hfilled]).
  cbv beta iota delta [bind ret raise].
  destruct (says_punted s) eqn:Hp; rewrite ?Hauto.
  - intros [= <-]. exact Hfilled.
  - intros [= <-]. exists s. split; [exact Hv|].
    split; [now apply says_punted_empty|now right].
Qed.

Lemma postprocess_position_has_date auto_date org p r :
  auto_date <> "" ->
  postprocess_position auto_date org p = inr r ->
  has_last_date auto_date r.
Proof.
  intros Hauto. destruct p as [| | | |l|m]; try discriminate.
  unfold postprocess_position.
  destruct (fill_last_date auto_date org (ensure_fields m)) as [e|m'] eqn:E;
    cbv beta iota delta [bind ret]; [discriminate|].
  destruct (validate_salary m'); [discriminate|]. intros [= <-].
  assert (Hv : exists v, ensure_fields m !! "last_date" = Some v).
  { rewrite ensure_fields_lookup. destruct (m !! "last_date"); eauto. }
  destruct Hv as [v Hv].
  eapply fill_last_date_has_date; eauto.
Qed.

Lemma count_missing_none auto_date ps :
  Forall (has_last_date auto_date) ps ->
  count_missing "last_date" ps = inr 0.
Proof.
  induction 1 as [|r ps (s & Hs & Hne & _) _ IH]; [reflexivity|].
  simpl. unfold getitem. rewrite Hs, IH.
  cbv beta iota delta [bind ret]. simpl truthy.
  apply nonempty_true in Hne. unfold nonempty in Hne. now rewrite Hne.
Qed.

(** The fields of a returned result. *)
Lemma analyze_try_fields E detected_org auto_date source reply res :
  analyze_try E detected_org auto_date source reply = inr res ->
  exists missing_dates missing_salary,
    count_missing "last_date" (positions res) = inr missing_dates
    /\ count_missing "salary" (positions res) = inr missing_salary
    /\ total_positions res = length (positions res)
    /\ total_positions res <> 0
    /\ extraction_quality res
       = {| last_date_coverage :=
              fmt_pct E (total_positions res - missing_dates) (total_positions res);
            salary_coverage :=
              fmt_pct E (total_positions res - missing_salary) (total_positions res);
            auto_last_date := auto_date;
            date_source := source |}.
Proof.
  unfold analyze_try.
  destruct reply as [msg|content]; cbv beta iota delta [bind ret raise];
    [discriminate|].
  destruct (json_loads E (clean_response content)) as [msg|parsed];
    [discriminate|].
  destruct (postprocess_positions auto_date detected_org parsed) as [e|ps];
    [discriminate|].
  destruct (count_missing "last_date" ps) as [e|md] eqn:Hmd; [discriminate|].
  destruct (count_missing "salary" ps) as [e|ms] eqn:Hms; [discriminate|].
  unfold coverage.
  destruct (length ps =? 0) eqn:Hz; [discriminate|].
  intros [= <-]. apply Nat.eqb_neq in Hz.
  exists md, ms. cbn [positions total_positions extraction_quality].
  repeat split; auto.
Qed.

(** X6.  When the extractor found a deadline, which it always does for an
    organization with a known deadline, every record the orchestrator
    returns holds a non-empty last date (the model's own value when it
    does not punt, the detected deadline otherwise), and the last-date
    coverage is computed from the full count. *)
Theorem detected_deadline_reaches_records E text org_name log res log' :
  analyze_with_ultra_strict_ai E text org_name log = (inr res, log') ->
  auto_last_date (extraction_quality res) <> ""
  \/ (exists org,
        organization res = JStr org /\ is_Some (KNOWN_LAST_DATES !! org)) ->
  let auto_date := auto_last_date (extraction_quality res) in
  auto_date <> ""
  /\ Forall (has_last_date auto_date) (positions res)
  /\ last_date_coverage (extraction_quality res)
     = fmt_pct E (total_positions res) (total_positions res).
Proof.
  intros Hrun Hsome. cbv zeta.
  apply analyze_returns in Hrun as (_ & _ & Htry).
  pose proof (analyze_try_returns _ _ _ _ _ _ Htry)
    as (content & l & _ & _ & _ & Hmap & _ & Horg).
  pose proof (analyze_try_fields _ _ _ _ _ _ Htry)
    as (md & ms & Hmd & _ & _ & _ & Hq).
  rewrite Hq. cbn [auto_last_date last_date_coverage].
  set (detected := detect_organization_from_text text org_name) in *.
  set (found := extract_last_date_comprehensive E text detected) in *.
  assert (Hauto : found.1 <> "").
  { destruct Hsome as [H|H].
    - rewrite Hq in H. exact H.
    - destruct H as (org & Heq & H). rewrite Horg in Heq.
      injection Heq as <-.
      exact (known_org_found E text detected H). }
  assert (Hall : Forall (has_last_date found.1) (positions res)).
  { apply mapM_Forall2 in Hmap. clear -Hmap Hauto.
    induction Hmap as [|p r l rs Hp _ IH]; constructor; auto.
    eapply postprocess_position_has_date; eauto. }
  split; [exact Hauto|]. split; [exact Hall|].
  rewrite (count_missing_none _ _ Hall) in Hmd. injection Hmd as <-.
  now rewrite Nat.sub_0_r.
Qed.

Lemma detected_deadline_reaches_records_witness :
  exists res log',
    analyze_with_ultra_strict_ai sample_env sample_text "" [] = (inr res, log')
    /\ Forall (has_last_date "01-05-2025") (positions res).
Proof.
  destruct (analyze_with_ultra_strict_ai sample_env sample_text "" [])
    as [[e|res] log'] eqn:E; [vm_compute in E; discriminate E|].
  exists res, log'. split; [reflexivity|].
  assert (Hauto : auto_last_date (extraction_quality res) = "01-05-2025").
  { vm_compute in E. injection E as <- _. reflexivity. }
  rewrite <- Hauto.
  apply (detected_deadline_reaches_records sample_env sample_text "" [] res log' E).
  left. rewrite Hauto. discriminate.
Defined.

(** X7.  A readable PDF with at least one page is never taken for an
    empty document, blank pages included: the page markers alone pass the
    100-character threshold, so the batch loop hands the text to the
    orchestrator with the hint it looked up, or fails the document when
    the lookup itself raises.  For a list of strings the hint is the one
    of the hint list or, beyond the list, the organization read off the
    file name. *)
Theorem paged_pdf_reaches_orchestrator E org_names idx f log pages :
  file f = inr pages ->
  pages <> [] ->
  process_try E org_names idx f log
  = match batch_hint org_names idx f with
    | inr hint => analyze_with_hint E (pdf_text_of pages) hint log
    | inl e => (inl e, log)
    end
  /\ (forall names,
        org_names = JArr (JStr <$> names) ->
        process_try E org_names idx f log
        = analyze_with_ultra_strict_ai E (pdf_text_of pages)
            (default (org_from_filename required_orgs (PyStr.lower (filename f)))
                     (names !! idx))
            log).
Proof.
  intros Hfile Hpages.
  pose proof (page_markers_exceed_threshold pages Hpages) as Hlen.
  apply Nat.ltb_ge in Hlen.
  assert (Hrun : process_try E org_names idx f log
                 = match batch_hint org_names idx f with
                   | inr hint => analyze_with_hint E (pdf_text_of pages) hint log
                   | inl e => (inl e, log)
                   end).
  { unfold process_try, extract_text_from_pdf, batch_hint.
    rewrite Hfile. fold (pdf_text_of pages). unfold ret.
    destruct (hint_at org_names idx _) as [e|hint]; [reflexivity|].
    now rewrite Hlen. }
  split; [exact Hrun|].
  intros names ->. rewrite Hrun. unfold batch_hint, hint_at, ret.
  rewrite list_lookup_fmap. now destruct (names !! idx).
Qed.

Lemma paged_pdf_reaches_orchestrator_witness :
  (process_try sample_env (JArr []) 0 blank_page_pdf []).2
  = [prompt_for sample_env (pdf_text_of [""]) "AAU"].
Proof.
  rewrite (proj2 (paged_pdf_reaches_orchestrator sample_env (JArr []) 0
                    blank_page_pdf [] [""] eq_refl ltac:(discriminate))
             [] eq_refl).
  reflexivity.
Defined.

Lemma analyze_with_hint_log E text hint log :
  mistral_client E = true ->
  (analyze_with_hint E text hint log).2
  = log ++ match readable_hint hint with
           | Some name => [prompt_for E text name]
           | None => []
           end.
Proof.
  intros Hc. unfold analyze_with_hint, readable_hint.
  destruct hint as [|b|z|s|l|m];
    try (destruct (truthy _));
    rewrite ?Hc; simpl negb; cbv iota;
    try apply (analyze_log E text _ log Hc);
    simpl; now rewrite app_nil_r.
Qed.

Lemma process_try_calls E org_names idx f log :
  mistral_client E = true -> is_pdf f = true ->
  (process_try E org_names idx f log).2 = log ++ file_calls E org_names idx f.
Proof.
  intros Hc Hpdf. unfold process_try, file_calls, extract_text_from_pdf, batch_hint.
  rewrite Hpdf.
  destruct (file f) as [msg|pages]; [simpl; now rewrite app_nil_r|].
  fold (pdf_text_of pages). unfold ret.
  destruct (hint_at org_names idx _) as [e|hint]; [simpl; now rewrite app_nil_r|].
  destruct (PyStr.len (PyStr.strip (pdf_text_of pages)) <? 100);
    [simpl; now rewrite app_nil_r|].
  apply analyze_with_hint_log, Hc.
Qed.

(** Whatever one iteration leaves, the calls it added are those due for
    the file. *)
Lemma process_file_calls E org_names idx f st :
  mistral_client E = true ->
  outcome_calls (process_file E org_names idx f st)
  = calls st ++ file_calls E org_names idx f.
Proof.
  intros Hc. unfold process_file.
  destruct (is_pdf f) eqn:Hpdf.
  2:{ unfold is_pdf in Hpdf. unfold file_calls, is_pdf. rewrite Hpdf.
      simpl. now rewrite app_nil_r. }
  pose proof (process_try_calls E org_names idx f (calls st) Hc Hpdf) as Hlog.
  unfold is_pdf in Hpdf. rewrite Hpdf. simpl negb. cbv iota.
  destruct (process_try E org_names idx f (calls st)) as [[e|r] log].
  - rewrite process_handler_calls. exact Hlog.
  - pose proof (record_result_calls st r log) as Hrec.
    destruct (record_result st r log) as [[e st']|st']; simpl in Hrec.
    + rewrite process_handler_calls, Hrec. exact Hlog.
    + simpl. rewrite Hrec. exact Hlog.
Qed.

Lemma file_calls_length E org_names idx f :
  length (file_calls E org_names idx f) <= 1.
Proof.
  unfold file_calls.
  destruct (is_pdf f); [|simpl; lia].
  destruct (file f); [simpl; lia|].
  destruct (batch_hint org_names idx f) as [e|hint]; [simpl; lia|].
  destruct (_ <? 100); [simpl; lia|].
  destruct (readable_hint hint); simpl; lia.
Qed.

Lemma batch_calls_length E org_names idx files :
  length (batch_calls E org_names idx files) <= length files.
Proof.
  revert idx. induction files as [|f files IH]; intros idx; simpl; [lia|].
  rewrite length_app.
  pose proof (file_calls_length E org_names idx f).
  pose proof (IH (S idx)). lia.
Qed.

(** The calls of the loop are those due for the files it went through:
    all the files when it ends, the files up to the one at which an
    exception left it otherwise. *)
Lemma process_files_calls E org_names idx files st :
  mistral_client E = true ->
  exists n,
    n <= length files
    /\ outcome_calls (process_files E org_names idx files st)
       = calls st ++ batch_calls E org_names idx (take n files)
    /\ (forall st', process_files E org_names idx files st = inr st' ->
          n = length files).
Proof.
  intros Hc. revert idx st.
  induction files as [|f files IH]; intros idx st.
  - exists 0. simpl. rewrite app_nil_r. auto.
  - simpl process_files.
    pose proof (process_file_calls E org_names idx f st Hc) as Hf.
    destruct (process_file E org_names idx f st) as [[e st1]|st1]; simpl in Hf.
    + exists 1. split; [simpl; lia|]. split; [|discriminate].
      simpl. rewrite Hf. now rewrite app_nil_r.
    + destruct (IH (S idx) st1) as (n & Hn & Hcalls & Hall).
      exists (S n). split; [simpl; lia|]. split.
      * rewrite Hcalls, Hf. simpl. now rewrite app_assoc.
      * intros st' Hst'. simpl. f_equal. now apply Hall with (st' := st').
Qed.

(** X8.  With the client configured, the completion calls of a batch run
    are exactly the prompts due for its files, in upload order: one for a
    file that is named as a PDF, that the reader accepts, whose text
    reaches the threshold and whose hint can be looked up and read (a
    string, or a falsy value of another type), and none for any other
    file.  When an exception leaves the endpoint, the calls made are those
    due for the files up to that point.  So there are never more calls
    than files, and no second call for a document whatever the first one
    returned. *)
Theorem batch_call_log E files organizations :
  mistral_client E = true -> files <> [] ->
  let org_names := parse_org_names E organizations in
  let run := analyze_forms E files organizations in
  (exists n,
     n <= length files
     /\ run.2 = batch_calls E org_names 0 (take n files))
  /\ (forall report, run.1 = inr report ->
        run.2 = batch_calls E org_names 0 files)
  /\ length run.2 <= length files.
Proof.
  intros Hc Hne. cbv zeta.
  destruct (process_files_calls E (parse_org_names E organizations) 0 files
              empty_batch Hc) as (n & Hn & Hcalls & Hall).
  assert (Hrun : (analyze_forms E files organizations).2
                 = batch_calls E (parse_org_names E organizations) 0 (take n files)
                 /\ (forall report,
                       (analyze_forms E files organizations).1 = inr report ->
                       n = length files)).
  { unfold analyze_forms. rewrite Hc. simpl negb. cbv iota.
    destruct files as [|f files]; [congruence|]. cbv zeta.
    destruct (process_files E (parse_org_names E organizations) 0 (f :: files)
                empty_batch) as [[e st]|st]; simpl in Hcalls; cbn [fst snd].
    - split; [exact Hcalls|]. intros report Hr. discriminate Hr.
    - split; [exact Hcalls|]. intros report _. now apply Hall with (st' := st). }
  destruct Hrun as [Hlog Hdone].
  split; [eauto|]. split.
  - intros report Hr. rewrite Hlog, (Hdone report Hr). now rewrite firstn_all.
  - rewrite Hlog.
    etransitivity; [apply batch_calls_length|]. rewrite length_take. lia.
Qed.

Lemma batch_call_log_witness :
  (analyze_forms hinted_env [ntpc_pdf; ntpc_pdf; word_file] (Some number_hints)).2
  = [prompt_for hinted_env (pdf_text_of [sample_text]) "NTPC"].
Proof.
  destruct (batch_call_log hinted_env [ntpc_pdf; ntpc_pdf; word_file]
              (Some number_hints) eq_refl) as (_ & H & _); [discriminate|].
  destruct ((analyze_forms hinted_env [ntpc_pdf; ntpc_pdf; word_file]
               (Some number_hints)).1) as [e|report] eqn:E;
    [vm_compute in E; discriminate E|].
  rewrite (H report eq_refl). vm_compute. reflexivity.
Defined.

Lemma process_files_skip E org_names idx files st :
  Forall (fun f => is_pdf f = false) files ->
  process_files E org_names idx files st = inr st.
Proof.
  intros H. revert idx. induction H as [|f files Hf _ IH]; intros idx; [reflexivity|].
  simpl. unfold process_file. unfold is_pdf in Hf. rewrite Hf. simpl. apply IH.
Qed.

(** X9.  A batch in which no file name ends in ".pdf" (the test is case
    sensitive) is processed without a call of the completion service,
    whatever the hints: the report set is exactly the five "not
    processed" placeholders, in canonical order. *)
Theorem batch_without_pdf E files organizations :
  mistral_client E = true -> files <> [] ->
  Forall (fun f => is_pdf f = false) files ->
  analyze_forms E files organizations
  = (inr (map missing_result required_orgs), []).
Proof.
  intros Hc Hne Hskip. unfold analyze_forms. rewrite Hc. simpl negb. cbv iota.
  destruct files as [|f files]; [congruence|]. cbv zeta.
  rewrite (process_files_skip _ _ _ _ _ Hskip). reflexivity.
Qed.

Lemma batch_without_pdf_witness :
  analyze_forms sample_env
    [word_file; {| filename := "NTPC_ADVT.PDF"; file := inr [sample_text] |}] None
  = (inr (map missing_result required_orgs), []).
Proof.
  apply batch_without_pdf; [reflexivity | discriminate |].
  repeat constructor.
Defined.

Lemma failed_result_remark org e :
  exists r,
    positions (failed_result org e) = [r]
    /\ r !! "remarks" = Some (JStr ("Error during extraction: " +:+ str_exn e))
    /\ r !! "post_name" = Some (JStr "EXTRACTION FAILED - See error")
    /\ dom r = required_keys.
Proof. eexists. repeat split; reflexivity. Qed.

Lemma empty_pdf_result_ok org : entry_ok (empty_pdf_result org).
Proof.
  repeat split; [discriminate|]. repeat constructor.
  assert (H : dom (str_record
                     [ ("advertisement_number", manual); ("advertisement_date", manual);
                       ("post_name", manual); ("vacancies", manual);
                       ("last_date", manual); ("salary", manual);
                       ("location", manual); ("age_limit", manual);
                       ("category", manual); ("qualification", manual);
                       ("mandatory", manual); ("specialization", manual);
                       ("experience_years", manual);
                       ("remarks",
                        "Document was empty or unreadable. Please verify all details from the original PDF.") ])
              = required_keys) by reflexivity.
  simpl. rewrite H. reflexivity.
Qed.

Lemma failed_result_ok org e : entry_ok (failed_result org e).
Proof.
  destruct (failed_result_remark org e) as (r & Hr & _ & _ & Hdom).
  unfold entry_ok. rewrite Hr. repeat split; [discriminate|].
  repeat constructor. now rewrite Hdom.
Qed.

Lemma missing_result_ok org : entry_ok (missing_result org).
Proof.
  assert (H : exists r, positions (missing_result org) = [r] /\ dom r = required_keys)
    by (eexists; split; reflexivity).
  destruct H as (r & Hr & Hdom).
  unfold entry_ok. rewrite Hr. repeat split; [discriminate|].
  repeat constructor. now rewrite Hdom.
Qed.

Lemma orchestrator_result_ok E text org_name log res log' :
  analyze_with_ultra_strict_ai E text org_name log = (inr res, log') ->
  entry_ok res.
Proof.
  intros H. apply analyze_returns in H as (_ & _ & H).
  apply analyze_try_returns in H as (content & l & _ & _ & Hne & Hm & Ht & _).
  apply mapM_Forall2 in Hm.
  repeat split.
  - intros Hnil. rewrite Hnil in Hm. inversion Hm. congruence.
  - exact Ht.
  - clear -Hm. induction Hm as [|p r l rs Hp _ IH]; constructor; auto.
    apply postprocess_position_completes in Hp as (m & _ & Hdom & _).
    rewrite Hdom. apply union_subseteq_r.
Qed.

Lemma process_try_ok E org_names idx f log r log' :
  process_try E org_names idx f log = (inr r, log') -> entry_ok r.
Proof.
  unfold process_try.
  destruct (extract_text_from_pdf (file f)) as [e|pdf_text]; [discriminate|].
  destruct (hint_at org_names idx _) as [e|hint]; [discriminate|].
  destruct (PyStr.len (PyStr.strip pdf_text) <? 100).
  - intros [= <- _]. apply empty_pdf_result_ok.
  - unfold analyze_with_hint.
    destruct hint as [|b|z|s|l|m];
      try (destruct (truthy _); [destruct (negb _); discriminate|]);
      apply orchestrator_result_ok.
Qed.

Lemma record_result_ok st r log :
  entry_ok r -> Forall entry_ok (analyzed_results st) ->
  match record_result st r log with
  | inl (_, st') | inr st' => Forall entry_ok (analyzed_results st')
  end.
Proof.
  intros Hr Hst. pose proof (record_result_results st r log) as H.
  destruct (record_result st r log) as [[e st']|st']; rewrite H;
    apply Forall_app; split; auto.
Qed.

Lemma process_handler_ok org_names idx e st :
  Forall entry_ok (analyzed_results st) ->
  match process_handler org_names idx e st with
  | inl (_, st') | inr st' => Forall entry_ok (analyzed_results st')
  end.
Proof.
  intros Hst. unfold process_handler.
  destruct (hint_at org_names idx (JStr "")) as [e'|name]; [exact Hst|].
  apply record_result_ok; [apply failed_result_ok|exact Hst].
Qed.

Lemma process_file_ok E org_names idx f st :
  Forall entry_ok (analyzed_results st) ->
  match process_file E org_names idx f st with
  | inl (_, st') | inr st' => Forall entry_ok (analyzed_results st')
  end.
Proof.
  intros Hst. unfold process_file.
  destruct (negb (PyStr.endswith ".pdf" (filename f))); [exact Hst|].
  destruct (process_try E org_names idx f (calls st)) as [[e|r] log] eqn:Ht.
  - now apply process_handler_ok.
  - pose proof (record_result_ok st r log (process_try_ok _ _ _ _ _ _ _ Ht) Hst) as H.
    destruct (record_result st r log) as [[e st']|st']; [|exact H].
    now apply process_handler_ok.
Qed.

Lemma process_files_ok E org_names idx files st st' :
  Forall entry_ok (analyzed_results st) ->
  process_files E org_names idx files st = inr st' ->
  Forall entry_ok (analyzed_results st').
Proof.
  revert idx st. induction files as [|f files IH]; intros idx st H; simpl.
  - now intros [= <-].
  - pose proof (process_file_ok E org_names idx f st H) as Hf.
    destruct (process_file E org_names idx f st) as [[e st1]|st1]; [discriminate|].
    now apply IH.
Qed.

(** X10.  Every entry of a report set is fit for the spreadsheet writer,
    whichever path produced it (orchestrator, empty-document, failure or
    backfill placeholder) and whatever the hints: it has at least one
    record, its count is the number of its records, and every record has
    all 14 required keys. *)
Theorem report_entries_ok E files organizations report log :
  analyze_forms E files organizations = (inr report, log) ->
  Forall entry_ok report.
Proof.
  intros H.
  apply analyze_forms_returns in H as (_ & _ & st & Hst & -> & _).
  eapply Permutation_Forall; [symmetry; apply sort_by_perm|].
  apply Forall_app. split.
  - eapply process_files_ok; [|exact Hst]. constructor.
  - apply Forall_forall. intros entry Hin.
    apply list_elem_of_In, in_map_iff in Hin as (org & <- & _).
    apply missing_result_ok.
Qed.

Lemma report_entries_ok_witness :
  exists report log,
    analyze_forms hinted_env [ntpc_pdf; blank_scan; broken_pdf] (Some number_hints)
    = (inr report, log)
    /\ Forall entry_ok report.
Proof.
  destruct (analyze_forms hinted_env [ntpc_pdf; blank_scan; broken_pdf]
              (Some number_hints))
    as [[e|report] log] eqn:E; [vm_compute in E; discriminate E|].
  exists report, log. split; [reflexivity|].
  apply (report_entries_ok hinted_env [ntpc_pdf; blank_scan; broken_pdf]
           (Some number_hints) report log E).
Defined.

(** X11.  The single-document endpoint, with the client configured.  A PDF
    the reader rejects gives status 500, not 400: the extraction error is
    wrapped, its own status becoming part of the detail, and no completion
    call is made.  A readable PDF is sent to the completion service exactly
    once whatever its length, there is no empty-document check as in the
    batch loop; a result of the orchestrator is returned unchanged, and a
    failure of the orchestrator is wrapped a second time, always with
    status 500. *)
Theorem single_document_outcomes E f organization log :
  mistral_client E = true ->
  match file f with
  | inl msg =>
      analyze_single E f organization log
      = (inl (HTTPException 500 ("400: PDF extraction failed: " +:+ msg)), log)
  | inr pages =>
      let run :=
        analyze_with_ultra_strict_ai E (pdf_text_of pages) organization log in
      (analyze_single E f organization log).2
      = log ++ [prompt_for E (pdf_text_of pages) organization]
      /\ match (analyze_single E f organization log).1 with
         | inr res => run.1 = inr res
         | inl e =>
             exists detail,
               e = HTTPException 500 ("500: AI response parsing failed: " +:+ detail)
               \/ e = HTTPException 500 ("500: Analysis failed: " +:+ detail)
         end
  end.
Proof.
  intros Hc. unfold analyze_single, extract_text_from_pdf.
  rewrite Hc. simpl negb. cbv iota.
  destruct (file f) as [msg|pages]; unfold raise, ret; [reflexivity|].
  fold (pdf_text_of pages). cbv zeta.
  pose proof (analyze_log E (pdf_text_of pages) organization log Hc) as Hlog.
  destruct (analyze_with_ultra_strict_ai E (pdf_text_of pages) organization log)
    as [[e|res] log'] eqn:Hrun; cbn [fst snd] in *; split; auto.
  apply (analyze_fails_500 _ _ _ _ _ _ Hc) in Hrun as [detail [-> | ->]];
    exists detail; [left|right]; reflexivity.
Qed.

Lemma single_document_outcomes_witness :
  analyze_single sample_env broken_pdf "" []
  = (inl (HTTPException 500 "400: PDF extraction failed: EOF marker not found"), [])
  /\ (analyze_single sample_env pageless_pdf "" []).2
     = [prompt_for sample_env "" ""].
Proof.
  split.
  - exact (single_document_outcomes sample_env broken_pdf "" [] eq_refl).
  - exact (proj1 (single_document_outcomes sample_env pageless_pdf "" [] eq_refl)).
Defined.

Section Stable.
Context {A : Type} (key : A -> nat) (P : A -> bool) (k : nat).
Hypothesis P_key : forall a, P a = true -> key a = k.

Lemma filter_none (l : list A) :
  Forall (fun a => k < key a) l -> List.filter P l = [].
Proof.
  induction 1 as [|a l Ha _ IH]; simpl; [reflexivity|].
  destruct (P a) eqn:Pa; [|exact IH].
  apply P_key in Pa. lia.
Qed.

Lemma insert_by_filter x l :
  StronglySorted (fun a b => key a <= key b) l ->
  List.filter P (insert_by key x l)
  = List.filter P l ++ (if P x then [x] else []).
Proof.
  induction 1 as [|y l Hs IH Hall]; simpl.
  - destruct (P x); reflexivity.
  - destruct (key x <? key y) eqn:E.
    + apply Nat.ltb_lt in E. simpl. destruct (P x) eqn:Px.
      * apply P_key in Px.
        assert (Hnone : List.filter P (y :: l) = []).
        { apply filter_none. constructor; [lia|].
          eapply Forall_impl; [exact Hall|]. simpl. intros b Hb. lia. }
        simpl in Hnone. rewrite Hnone. reflexivity.
      * now rewrite app_nil_r.
    + simpl. rewrite IH. destruct (P y); reflexivity.
Qed.

Lemma sort_by_acc_filter l acc :
  Sorted (fun a b => key a <= key b) acc ->
  List.filter P (fold_left (fun acc x => insert_by key x acc) l acc)
  = List.filter P acc ++ List.filter P l.
Proof.
  revert acc. induction l as [|x l IH]; intros acc Hacc; simpl.
  - now rewrite app_nil_r.
  - rewrite IH by now apply insert_by_sorted.
    rewrite insert_by_filter.
    + rewrite <- app_assoc. destruct (P x); reflexivity.
    + apply Sorted_StronglySorted; [|exact Hacc].
      intros a b c Hab Hbc. lia.
Qed.

Lemma sort_by_filter l :
  List.filter P (sort_by key l) = List.filter P l.
Proof. apply (sort_by_acc_filter l []). constructor. Qed.

End Stable.

(** X12.  Sorting the report set is stable.  The entries of one
    organization, when several documents resolve to it, come out in the
    order in which the documents were processed, and so do the entries
    that share a sort position: the entries of organizations outside the
    required five keep their processing order among themselves.  More
    generally the sort leaves the order within any class of entries that
    share a sort position as it was. *)
Theorem report_keeps_processing_order E files organizations report log :
  analyze_forms E files organizations = (inr report, log) ->
  exists st,
    batch_after E (parse_org_names E organizations) files = inr st
    /\ let unsorted :=
         analyzed_results st
         ++ map missing_result (missing_orgs (processed_orgs st)) in
       (forall org,
          List.filter (fun r => has_org r org) report
          = List.filter (fun r => has_org r org) unsorted)
       /\ (forall k,
             List.filter (fun r => org_sort_key r =? k) report
             = List.filter (fun r => org_sort_key r =? k) unsorted)
       /\ (forall (P : OrgResult -> bool) k,
             (forall r, P r = true -> org_sort_key r = k) ->
             List.filter P report = List.filter P unsorted).
Proof.
  intros H.
  apply analyze_forms_returns in H as (_ & _ & st & Hst & -> & _).
  exists st. split; [exact Hst|]. cbv zeta. split; [|split].
  3:{ intros P k HP. now apply (sort_by_filter org_sort_key P k). }
  - intros org.
    apply (sort_by_filter org_sort_key _
             (match index_of org required_orgs with Some i => i | None => 999 end)).
    intros r Hr. unfold has_org in Hr. unfold org_sort_key.
    destruct (organization r) as [| | |s| |]; try discriminate Hr.
    apply String.eqb_eq in Hr. now rewrite Hr.
  - intros k. apply (sort_by_filter org_sort_key _ k).
    intros r Hr. now apply Nat.eqb_eq in Hr.
Qed.

Lemma report_keeps_processing_order_witness :
  exists report log,
    analyze_forms sample_env [broken_pdf; ntpc_pdf; broken_pdf] None
    = (inr report, log)
    /\ map organization (List.filter (fun r => org_sort_key r =? 999) report)
       = [JStr "Organization_1"; JStr "Organization_3"].
Proof.
  destruct (analyze_forms sample_env [broken_pdf; ntpc_pdf; broken_pdf] None)
    as [[e|report] log] eqn:E; [vm_compute in E; discriminate E|].
  exists report, log. split; [reflexivity|].
  destruct (report_keeps_processing_order sample_env
              [broken_pdf; ntpc_pdf; broken_pdf] None report log E)
    as (st & Hst & _ & Hkey & _).
  rewrite (Hkey 999).
  vm_compute in Hst. injection Hst as <-.
  vm_compute. reflexivity.
Defined.

Lemma normalize_date_try_parts s :
  normalize_date_try s
  = match PyStr.split "-" (PyStr.replace "." "-" (PyStr.replace "/" "-" s)) with
    | [day; month; year] =>
        checked_date (PyStr.zfill2 day) (PyStr.zfill2 month) (full_year year)
    | _ => ret ""
    end.
Proof. reflexivity. Qed.

Lemma str_forall_rev p s : str_forall p (PyStr.rev s) = str_forall p s.
Proof.
  induction s as [|c s IH]; [reflexivity|].
  rewrite rev_cons, str_forall_app, IH. simpl.
  rewrite andb_true_r. apply andb_comm.
Qed.

Lemma split_aux_sep sep a cur rest :
  str_forall (fun c => negb (Ascii.eqb c sep)) a = true ->
  PyStr.split_aux sep cur (a +:+ String sep rest)
  = (PyStr.rev cur +:+ a) :: PyStr.split_aux sep "" rest.
Proof.
  revert cur. induction a as [|c a IH]; intros cur H; simpl.
  - now rewrite Ascii.eqb_refl, append_nil_r.
  - simpl in H. apply andb_prop in H as [Hc Ha].
    apply negb_true_iff in Hc. rewrite Hc, IH by assumption.
    now rewrite rev_cons, append_assoc.
Qed.

Lemma split_aux_end sep a cur :
  str_forall (fun c => negb (Ascii.eqb c sep)) a = true ->
  PyStr.split_aux sep cur a = [PyStr.rev cur +:+ a].
Proof.
  revert cur. induction a as [|c a IH]; intros cur H; simpl.
  - now rewrite append_nil_r.
  - simpl in H. apply andb_prop in H as [Hc Ha].
    apply negb_true_iff in Hc. rewrite Hc, IH by assumption.
    now rewrite rev_cons, append_assoc.
Qed.

(** The pieces of a split hold the characters of the string other than
    the separator. *)
Lemma split_aux_pieces (q : ascii -> bool) sep s cur :
  str_forall q cur = true ->
  str_forall (fun c => Ascii.eqb c sep || q c) s = true ->
  Forall (fun piece => str_forall q piece = true) (PyStr.split_aux sep cur s).
Proof.
  revert cur. induction s as [|c s IH]; intros cur Hcur H; simpl.
  - constructor; [|constructor]. now rewrite str_forall_rev.
  - simpl in H. apply andb_prop in H as [Hc Hs].
    destruct (Ascii.eqb c sep) eqn:E.
    + constructor; [now rewrite str_forall_rev|]. now apply IH.
    + apply IH; [|exact Hs]. simpl in *. now rewrite Hc, Hcur.
Qed.

Lemma unified_replaced s :
  str_forall unified_char
    (PyStr.replace "." "-" (PyStr.replace "/" "-" s)) = true.
Proof.
  rewrite !replace_char.
  induction s as [|c s IH]; [reflexivity|].
  simpl. rewrite IH, andb_true_r. clear.
  destruct c as [[] [] [] [] [] [] [] []]; reflexivity.
Qed.

Lemma replace_absent a b s :
  str_forall (fun c => negb (Ascii.eqb a c)) s = true ->
  PyStr.replace (String a "") (String b "") s = s.
Proof.
  rewrite replace_char.
  induction s as [|c s IH]; [reflexivity|].
  simpl. intros H. apply andb_prop in H as [Hc Hs].
  apply negb_true_iff in Hc. unfold subst_char at 1. now rewrite Hc, IH.
Qed.

Lemma part_char_cases c :
  part_char c = true ->
  Ascii.eqb c "-" = false /\ Ascii.eqb "/" c = false /\ Ascii.eqb "." c = false.
Proof.
  unfold part_char. destruct c as [[] [] [] [] [] [] [] []]; simpl;
    intros H; try discriminate H; repeat split.
Qed.

Lemma zfill2_part s :
  str_forall part_char s = true -> str_forall part_char (PyStr.zfill2 s) = true.
Proof.
  destruct s as [|c [|c' s]]; [reflexivity| |auto].
  simpl. rewrite andb_true_r. intros Hc.
  destruct (Ascii.eqb c "+" || Ascii.eqb c "-"); simpl; now rewrite Hc.
Qed.

Lemma zfill2_idem s : PyStr.zfill2 (PyStr.zfill2 s) = PyStr.zfill2 s.
Proof.
  destruct s as [|c [|c' s]]; [reflexivity| |reflexivity].
  simpl. destruct (Ascii.eqb c "+" || Ascii.eqb c "-"); reflexivity.
Qed.

Lemma full_year_part s :
  str_forall part_char s = true -> str_forall part_char (full_year s) = true.
Proof.
  unfold full_year. destruct (PyStr.len s =? 2); [|auto].
  intros H. rewrite str_forall_app, H. reflexivity.
Qed.

Lemma full_year_idem s : full_year (full_year s) = full_year s.
Proof.
  unfold full_year at 2 3. destruct (PyStr.len s =? 2) eqn:E.
  - apply Nat.eqb_eq in E. unfold full_year. rewrite len_app, E. reflexivity.
  - unfold full_year. now rewrite E.
Qed.

(** A date assembled from clean parts is read back as these parts. *)
Lemma normalize_date_try_assembled day month year :
  str_forall part_char day = true ->
  str_forall part_char month = true ->
  str_forall part_char year = true ->
  normalize_date_try (day +:+ "-" +:+ month +:+ "-" +:+ year)
  = checked_date (PyStr.zfill2 day) (PyStr.zfill2 month) (full_year year).
Proof.
  intros Hd Hm Hy. rewrite normalize_date_try_parts.
  assert (Hall : str_forall unified_char
                   (day +:+ "-" +:+ month +:+ "-" +:+ year) = true).
  { rewrite !str_forall_app.
    rewrite (str_forall_impl part_char unified_char day), 
            (str_forall_impl part_char unified_char month),
            (str_forall_impl part_char unified_char year); auto;
      intros c Hc; unfold unified_char; rewrite Hc; apply orb_true_r. }
  rewrite (replace_absent "/" "-").
  2:{ eapply str_forall_impl; [|exact Hall]. intros c.
      destruct c as [[] [] [] [] [] [] [] []]; simpl; intros H;
        try discriminate H; reflexivity. }
  rewrite (replace_absent "." "-").
  2:{ eapply str_forall_impl; [|exact Hall]. intros c.
      destruct c as [[] [] [] [] [] [] [] []]; simpl; intros H;
        try discriminate H; reflexivity. }
  assert (Hsep : forall t, str_forall part_char t = true ->
                   str_forall (fun c => negb (Ascii.eqb c "-")) t = true).
  { intros t. apply str_forall_impl. intros c Hc.
    apply part_char_cases in Hc as (-> & _). reflexivity. }
  unfold PyStr.split.
  change (day +:+ "-" +:+ month +:+ "-" +:+ year)
    with (day +:+ String "-" (month +:+ String "-" year)).
  rewrite split_aux_sep by auto. rewrite split_aux_sep by auto.
  rewrite split_aux_end by auto. reflexivity.
Qed.

Lemma checked_date_cases day month year :
  checked_date day month year = inr (day +:+ "-" +:+ month +:+ "-" +:+ year)
  \/ checked_date day month year = inr ""
  \/ exists e, checked_date day month year = inl e.
Proof.
  unfold checked_date, int_or_raise, bind, ret, raise.
  destruct (PyStr.int day) as [d|]; [|eauto].
  destruct (in_range 1 31 d); [|auto].
  destruct (PyStr.int month) as [m|]; [|eauto].
  destruct (in_range 1 12 m); [|auto].
  destruct (PyStr.int year) as [y|]; [|eauto].
  destruct (in_range 2024 2026 y); auto.
Qed.

(** X13.  Normalizing is idempotent on every string: what [normalize_date]
    returns, the empty string or a date, is returned unchanged when it is
    normalized again.  A normalized date can so be stored and fed back
    without drifting. *)
Theorem normalize_date_idempotent s :
  normalize_date (normalize_date s) = normalize_date s.
Proof.
  unfold normalize_date at 2 3. rewrite normalize_date_try_parts.
  pose proof (split_aux_pieces part_char "-"
                (PyStr.replace "." "-" (PyStr.replace "/" "-" s)) ""
                eq_refl (unified_replaced s)) as Hparts.
  fold (PyStr.split "-" (PyStr.replace "." "-" (PyStr.replace "/" "-" s)))
    in Hparts.
  destruct (PyStr.split "-" (PyStr.replace "." "-" (PyStr.replace "/" "-" s)))
    as [|day [|month [|year [|extra parts]]]]; try reflexivity.
  apply Forall_cons in Hparts as [Hd Hparts].
  apply Forall_cons in Hparts as [Hm Hparts].
  apply Forall_cons in Hparts as [Hy _].
  destruct (checked_date_cases (PyStr.zfill2 day) (PyStr.zfill2 month)
              (full_year year)) as [H | [H | [e H]]];
    rewrite H; try reflexivity.
  unfold normalize_date.
  rewrite normalize_date_try_assembled
    by auto using zfill2_part, full_year_part.
  now rewrite !zfill2_idem, full_year_idem, H.
Qed.

Lemma page_blocks_lookup n pages k p :
  pages !! k = Some p ->
  page_blocks n pages !! k = Some (page_block (n + k) p).
Proof.
  revert n k. induction pages as [|q pages IH]; intros n k H; [discriminate H|].
  destruct k as [|k]; simpl in *.
  - injection H as ->. now rewrite Nat.add_0_r.
  - rewrite (IH (S n) k H). do 2 f_equal. lia.
Qed.

Lemma join_lookup sep l k x :
  l !! k = Some x ->
  exists pre post, PyStr.join sep l = pre +:+ x +:+ post.
Proof.
  revert k. induction l as [|y l IH]; intros k H; [discriminate H|].
  destruct k as [|k]; simpl in H.
  - injection H as ->. destruct l as [|z l].
    + exists "", "". simpl. now rewrite append_nil_r.
    + exists "", (sep +:+ PyStr.join sep (z :: l)). reflexivity.
  - destruct (IH k H) as (pre & post & Hj).
    destruct l as [|z l]; [discriminate H|].
    exists (y +:+ sep +:+ pre), post.
    change (PyStr.join sep (y :: z :: l))
      with (y +:+ sep +:+ PyStr.join sep (z :: l)).
    now rewrite Hj, !append_assoc.
Qed.

(** X14.  Text extraction loses no page: for a PDF the reader accepts, the
    text of every page appears in the extracted text, whole and right after
    the marker lines that carry its page number counted from 1. *)
Theorem page_text_kept pdf_file pages k page_text :
  pdf_file = inr pages ->
  pages !! k = Some page_text ->
  exists text pre post,
    extract_text_from_pdf pdf_file = inr text
    /\ text = pre +:+ nl +:+ rule +:+ nl +:+ "PAGE " +:+ PyStr.str_of_nat (k + 1)
                  +:+ nl +:+ rule +:+ nl +:+ page_text +:+ post.
Proof.
  intros -> H. apply (page_blocks_lookup 0) in H.
  apply (join_lookup nl) in H as (pre & post & Hj).
  exists (PyStr.join nl (page_blocks 0 pages)), pre, post.
  split; [reflexivity|].
  rewrite Hj. unfold page_block. simpl Nat.add. now rewrite !append_assoc.
Qed.

Lemma page_text_kept_witness :
  exists text pre post,
    extract_text_from_pdf (inr ["first page"; "second page"]) = inr text
    /\ text = pre +:+ nl +:+ rule +:+ nl +:+ "PAGE " +:+ PyStr.str_of_nat (1 + 1)
                  +:+ nl +:+ rule +:+ nl +:+ "second page" +:+ post.
Proof.
  exact (page_text_kept (inr ["first page"; "second page"])
           ["first page"; "second page"] 1 "second page" eq_refl eq_refl).
Defined.
